(** * FlavorMetrics: the analytic core of the REST API, embedded in Rocq

    The four analytic handlers of the server (menu engineering, cover
    forecast, at-risk customers, schedule optimiser) are translated from
    the TypeScript sources as pure functions over the rows the Prisma
    queries return.

    Numbers.  A JavaScript number is an IEEE double.  Finite doubles are
    modelled by the rational they denote and arithmetic on them is exact
    (no rounding of [+], [*], [/]); NaN and the two infinities are kept as
    separate values where the handlers can produce them (a division by an
    array length), and the sign of zero is dropped.  [Math.round] is
    [floor (x + 1/2)].  A double sum can differ from the exact one in its
    last bits, which can decide a rounding at a half or a test against
    0.  Where that can show in an answer, the theorem states a bound
    around the exact value, names the sum in the order in which the
    handler adds it up, or asks for whole amounts.

    Time.  A date string is the index of its UTC day.  [Date.getDay]
    answers in the time zone of the server; the weekdays it returns are
    parameters of the model, and the theorems hold for every zone.

    Queries.  The rows of a query come as given, in the order of its
    [orderBy].  Where a statement depends on the order of rows that the
    [orderBy] does not tell apart and a [take] cuts between them, the
    query is a relation: every arrangement that respects the [orderBy]
    is a possible result.

    Maps.  [Map<K, V>] is a [gmap]; the handlers only look keys up, set
    them, and sum over the values, so the insertion order of the
    JavaScript map is not observable in exact arithmetic. *)

From Stdlib Require Import ZArith QArith Qround Lia Lqa.
From stdpp Require Import gmap strings list fin_maps sorting.

Local Open Scope string_scope.
Local Open Scope list_scope.

(** ** JavaScript numbers *)

Module Js.

Inductive num : Type :=
| Fin (q : Q)
| NaN
| PosInf
| NegInf.

Definition Qlt_bool (a b : Q) : bool := negb (Qle_bool b a).

(** [Math.round] on a finite double, as an integer. *)
Definition round_fin (q : Q) : Z := Qfloor (q + (1 # 2)).

(** [Math.ceil] on a finite double. *)
Definition ceil_fin (q : Q) : Z := Qceiling q.

(** The infinity of the given sign. *)
Definition signedInf (positive : bool) : num :=
  if positive then PosInf else NegInf.

(** [x / y] *)
Definition div (x y : num) : num :=
  match x, y with
  | NaN, _ | _, NaN => NaN
  | Fin a, Fin b =>
      if Qeq_bool b 0 then
        if Qeq_bool a 0 then NaN
        else signedInf (Qle_bool 0 a)
      else Fin (a / b)
  | Fin _, (PosInf | NegInf) => Fin 0
  | PosInf, Fin b => signedInf (Qle_bool 0 b)
  | NegInf, Fin b => signedInf (negb (Qle_bool 0 b))
  | (PosInf | NegInf), (PosInf | NegInf) => NaN
  end.

(** [x * y] *)
Definition mul (x y : num) : num :=
  match x, y with
  | NaN, _ | _, NaN => NaN
  | Fin a, Fin b => Fin (a * b)
  | Fin a, PosInf | PosInf, Fin a =>
      if Qeq_bool a 0 then NaN else signedInf (Qle_bool 0 a)
  | Fin a, NegInf | NegInf, Fin a =>
      if Qeq_bool a 0 then NaN else signedInf (negb (Qle_bool 0 a))
  | PosInf, PosInf | NegInf, NegInf => PosInf
  | PosInf, NegInf | NegInf, PosInf => NegInf
  end.

(** [Math.round(x)] *)
Definition round (x : num) : num :=
  match x with
  | Fin q => Fin (inject_Z (round_fin q))
  | other => other
  end.

(** Truthiness of a number: [0] and [NaN] are falsy. *)
Definition truthy (x : num) : bool :=
  match x with
  | Fin q => negb (Qeq_bool q 0)
  | NaN => false
  | PosInf | NegInf => true
  end.

(** [x || d] on numbers. *)
Definition or_else (x d : num) : num := if truthy x then x else d.

(** [x >= y] *)
Definition ge (x y : num) : bool :=
  match x, y with
  | NaN, _ | _, NaN => false
  | Fin a, Fin b => Qle_bool b a
  | PosInf, _ => true
  | _, NegInf => true
  | Fin _, PosInf | NegInf, Fin _ | NegInf, PosInf => false
  end.

(** [x < y] *)
Definition lt (x y : num) : bool :=
  match x, y with
  | NaN, _ | _, NaN => false
  | Fin a, Fin b => Qlt_bool a b
  | PosInf, _ => false
  | _, NegInf => false
  | Fin _, PosInf | NegInf, Fin _ | NegInf, PosInf => true
  end.

(** Equality of numbers as values: finite numbers are compared as
    rationals, not as fractions. *)
Definition eq (x y : num) : Prop :=
  match x, y with
  | Fin a, Fin b => a == b
  | NaN, NaN | PosInf, PosInf | NegInf, NegInf => True
  | _, _ => False
  end.

(** [x === y] as JavaScript computes it ([NaN] differs from itself). *)
Definition eqb (x y : num) : bool :=
  match x, y with
  | Fin a, Fin b => Qeq_bool a b
  | PosInf, PosInf | NegInf, NegInf => true
  | _, _ => false
  end.

End Js.

(** ** Menu engineering: GET /api/menu/engineering (server/src/routes/menu.ts) *)

Module Menu.

(** A row of [menuItem]; [cost] is a nullable decimal. *)
Record menuItem : Type := {
  id : string;
  name : string;
  category : string;
  price : Q;
  item_cost : option Q
}.

(** A non-void row of [orderItem] of an order closed in the period,
    with the [cost] of the included [menuItem] ([None] when the item or
    its cost is null). *)
Record orderItem : Type := {
  menuItemId : string;
  oi_quantity : Z;
  unitPrice : option Q;
  menuItem_cost : option Q
}.

Record metrics : Type := {
  quantity : Z;
  revenue : Q;
  cost : Q;
  profit : Q
}.

Definition noMetrics : metrics :=
  {| quantity := 0; revenue := 0; cost := 0; profit := 0 |}.

(** [Number(oi.unitPrice) * oi.quantity] *)
Definition oi_revenue (oi : orderItem) : Q :=
  (default 0 (unitPrice oi) * inject_Z (oi_quantity oi))%Q.

(** [(oi.menuItem?.cost || 0) * oi.quantity] *)
Definition oi_cost (oi : orderItem) : Q :=
  (default 0 (menuItem_cost oi) * inject_Z (oi_quantity oi))%Q.

(** The body of [orderItems.forEach]. *)
Definition addOrderItem (m : gmap string metrics) (oi : orderItem)
  : gmap string metrics :=
  let existing := default noMetrics (m !! menuItemId oi) in
  <[ menuItemId oi :=
       {| quantity := quantity existing + oi_quantity oi;
          revenue := revenue existing + oi_revenue oi;
          cost := cost existing + oi_cost oi;
          profit := profit existing + (oi_revenue oi - oi_cost oi) |} ]> m.

Definition itemMetrics (orderItems : list orderItem) : gmap string metrics :=
  foldl addOrderItem ∅ orderItems.

(** [Array.from(itemMetrics.values())] *)
Definition allMetrics (orderItems : list orderItem) : list metrics :=
  (map_to_list (itemMetrics orderItems)).*2.

(** [xs.reduce((s, m) => s + f(m), 0)] *)
Definition sumOf {A} (f : A → Q) (xs : list A) : Q :=
  foldl (λ s m, (s + f m)%Q) 0%Q xs.

Definition lengthOf {A} (xs : list A) : Q := inject_Z (Z.of_nat (length xs)).

Definition avgQuantity (orderItems : list orderItem) : Js.num :=
  let all := allMetrics orderItems in
  Js.or_else
    (Js.div (Js.Fin (sumOf (λ m, inject_Z (quantity m)) all))
            (Js.Fin (lengthOf all)))
    (Js.Fin 1).

Definition avgProfit (orderItems : list orderItem) : Js.num :=
  let all := allMetrics orderItems in
  Js.or_else
    (Js.div (Js.Fin (sumOf profit all)) (Js.Fin (lengthOf all)))
    (Js.Fin 1).

(** The if/else chain of the handler. *)
Definition classify (popularity profitability : Js.num) : string :=
  if Js.ge popularity (Js.Fin 1) && Js.ge profitability (Js.Fin 1) then "Star"
  else if Js.ge popularity (Js.Fin 1) && Js.lt profitability (Js.Fin 1)
       then "Plowhorse"
  else if Js.lt popularity (Js.Fin 1) && Js.ge profitability (Js.Fin 1)
       then "Puzzle"
  else "Dog".

(** [Math.round(x * k) / k] *)
Definition roundTo (k : Q) (x : Js.num) : Js.num :=
  Js.div (Js.round (Js.mul x (Js.Fin k))) (Js.Fin k).

Record analysisRow : Type := {
  a_id : string;
  a_name : string;
  a_category : string;
  a_price : Q;
  a_cost : Q;
  quantitySold : Z;
  a_revenue : Js.num;
  a_profit : Js.num;
  contributionMargin : Js.num;
  popularityIndex : Js.num;
  profitabilityIndex : Js.num;
  classification : string
}.

Definition metricsOf (orderItems : list orderItem) (item : menuItem) : metrics :=
  default noMetrics (itemMetrics orderItems !! id item).

(** [metrics.quantity / avgQuantity], before any rounding. *)
Definition popularity (orderItems : list orderItem) (item : menuItem) : Js.num :=
  Js.div (Js.Fin (inject_Z (quantity (metricsOf orderItems item))))
         (avgQuantity orderItems).

(** [metrics.profit / avgProfit], before any rounding. *)
Definition profitability (orderItems : list orderItem) (item : menuItem) : Js.num :=
  Js.div (Js.Fin (profit (metricsOf orderItems item))) (avgProfit orderItems).

(** The callback of [items.map]. *)
Definition analyse (orderItems : list orderItem) (item : menuItem) : analysisRow :=
  let m := metricsOf orderItems item in
  let margin :=
    if Js.Qlt_bool 0 (revenue m)
    then ((revenue m - cost m) / revenue m * 100)%Q
    else 0%Q in
  let pop := popularity orderItems item in
  let prof := profitability orderItems item in
  {| a_id := id item;
     a_name := name item;
     a_category := category item;
     a_price := price item;
     a_cost := default 0%Q (item_cost item);
     quantitySold := quantity m;
     a_revenue := roundTo 100 (Js.Fin (revenue m));
     a_profit := roundTo 100 (Js.Fin (profit m));
     contributionMargin := roundTo 10 (Js.Fin margin);
     popularityIndex := roundTo 100 pop;
     profitabilityIndex := roundTo 100 prof;
     classification := classify pop prof |}.

Definition analysis (items : list menuItem) (orderItems : list orderItem)
  : list analysisRow :=
  analyse orderItems <$> items.

Record summaryCounts : Type := {
  starCount : nat;
  plowhorseCount : nat;
  puzzleCount : nat;
  dogCount : nat
}.

(** [analysis.filter((a) => a.classification === label).length] *)
Definition countOf (label : string) (rows : list analysisRow) : nat :=
  length (filter (λ a, classification a = label) rows).

Definition summary (rows : list analysisRow) : summaryCounts :=
  {| starCount := countOf "Star" rows;
     plowhorseCount := countOf "Plowhorse" rows;
     puzzleCount := countOf "Puzzle" rows;
     dogCount := countOf "Dog" rows |}.

End Menu.

(** ** Cover forecast: POST /api/forecast/covers

    Dates are calendar days counted from 1970-01-01, the days of the
    ISO date strings the handler takes with [toISOString], which are in
    UTC.  [Date.getDay] answers in the local time zone of the server:
    the weekdays it returns are parameters of the model. *)

Module Forecast.

(** A closed order of the trailing window; [guests] is a nullable
    integer column. *)
Record order : Type := {
  closedAt : Z;
  guests : option Z
}.

(** [o.guests || 1] *)
Definition guestsOr1 (o : order) : Z :=
  match guests o with
  | Some g => if Z.eqb g 0 then 1 else g
  | None => 1
  end.

(** The body of [historicalOrders.forEach]. *)
Definition addOrder (m : gmap Z Z) (o : order) : gmap Z Z :=
  <[ closedAt o := (default 0 (m !! closedAt o) + guestsOr1 o)%Z ]> m.

Definition dailyCovers (orders : list order) : gmap Z Z :=
  foldl addOrder ∅ orders.

(** The local time zone of the server, as far as the handler reads it:
    [getDay] is [targetDate.getDay()], the local weekday at the instant
    the loop targets on a date, which is the time of the request that
    many days later; [getDayOfDate] is [new Date(date).getDay()], the
    local weekday at midnight UTC of a date of the history.  Both are
    numbers from 0 (Sunday) to 6. *)
Record zone : Type := {
  getDay : Z → Z;
  getDayOfDate : Z → Z
}.

(** The weekdays of a date range over 0 .. 6. *)
Definition weekdays (f : Z → Z) : Prop := ∀ d, (0 ≤ f d < 7)%Z.

(** A server whose clock runs on UTC: both weekdays are the weekday of
    the date, and 1970-01-01 was a Thursday. *)
Definition utc : zone :=
  {| getDay := λ date, ((date + 4) `mod` 7)%Z;
     getDayOfDate := λ date, ((date + 4) `mod` 7)%Z |}.

(** The body of the [forEach] that fills [dowAverages]. *)
Definition pushCovers (tz : zone) (m : gmap Z (list Z)) (e : Z * Z)
  : gmap Z (list Z) :=
  let dow := getDayOfDate tz e.1 in
  <[ dow := default [] (m !! dow) ++ [e.2] ]> m.

Definition dowAverages (tz : zone) (orders : list order) : gmap Z (list Z) :=
  foldl (pushCovers tz) ∅ (map_to_list (dailyCovers orders)).

Record stats : Type := { mean : Q; std : Q }.

Definition sumZ (values : list Z) : Q :=
  foldl (λ a b, (a + inject_Z b)%Q) 0%Q values.

(** [Math.sqrt] is a parameter of the model: it returns a double, that
    is a rational, and nothing more is used about it. *)
Definition dowStats (msqrt : Q → Q) (values : list Z) : stats :=
  let n := inject_Z (Z.of_nat (length values)) in
  let mean := (sumZ values / n)%Q in
  let std :=
    msqrt (foldl (λ sum v, sum + (inject_Z v - mean) * (inject_Z v - mean))
                 0 values / n)%Q in
  {| mean := mean; std := std |}.

Definition dowMeans (tz : zone) (msqrt : Q → Q) (orders : list order)
  : gmap Z stats :=
  dowStats msqrt <$> dowAverages tz orders.

Definition defaultStats : stats := {| mean := 50; std := 10 |}.

Definition dayNames : list string :=
  ["Sun"; "Mon"; "Tue"; "Wed"; "Thu"; "Fri"; "Sat"].

(** One element of the [predictions] array of the response. *)
Record prediction : Type := {
  date : Z;
  dayOfWeek : string;
  predictedCovers : Z;
  confidenceLow : Z;
  confidenceHigh : Z
}.

(** One row of [demandForecast], as written by the upsert. *)
Record forecastRow : Type := {
  row_predictedCovers : Z;
  row_confidenceLow : Z;
  row_confidenceHigh : Z;
  modelVersion : string
}.

(** [(Math.random() - 0.5) * stats.std * 0.5] for the draw [r]. *)
Definition variation (s : stats) (r : Q) : Q :=
  ((r - (1 # 2)) * std s * (1 # 2))%Q.

(** [Math.round(stats.mean + variation)] *)
Definition predicted (s : stats) (r : Q) : Z :=
  Js.round_fin (mean s + variation s r).

(** [Math.max(0, Math.round(predicted - stats.std * 1.5))] *)
Definition lowOf (s : stats) (p : Z) : Z :=
  Z.max 0 (Js.round_fin (inject_Z p - std s * (3 # 2))).

(** [Math.round(predicted + stats.std * 1.5)] *)
Definition highOf (s : stats) (p : Z) : Z :=
  Js.round_fin (inject_Z p + std s * (3 # 2)).

Definition statsFor (tz : zone) (means : gmap Z stats) (targetDate : Z)
  : stats :=
  default defaultStats (means !! getDay tz targetDate).

Definition predictionOf (tz : zone) (means : gmap Z stats) (targetDate : Z)
    (r : Q) : prediction :=
  let s := statsFor tz means targetDate in
  let p := predicted s r in
  {| date := targetDate;
     dayOfWeek := default "" (dayNames !! Z.to_nat (getDay tz targetDate));
     predictedCovers := Z.max 0 p;
     confidenceLow := lowOf s p;
     confidenceHigh := highOf s p |}.

Definition rowOf (tz : zone) (means : gmap Z stats) (targetDate : Z) (r : Q)
  : forecastRow :=
  let s := statsFor tz means targetDate in
  let p := predicted s r in
  {| row_predictedCovers := p;
     row_confidenceLow := lowOf s p;
     row_confidenceHigh := highOf s p;
     modelVersion := "dow_average_v1" |}.

(** The state the loop threads: the response array and the
    [demandForecast] table, keyed by (restaurantId, forecastDate). *)
Record state : Type := {
  predictions : list prediction;
  table : gmap (string * Z) forecastRow
}.

(** One iteration of [for (let i = 1; i <= days; i++)]; [rand i] is the
    value [Math.random()] returns in iteration [i]. *)
Definition step (tz : zone) (restaurantId : string) (means : gmap Z stats)
    (today : Z) (rand : nat → Q) (st : state) (i : nat) : state :=
  let targetDate := (today + Z.of_nat i)%Z in
  {| predictions :=
       predictions st ++ [predictionOf tz means targetDate (rand i)];
     table :=
       <[ (restaurantId, targetDate) := rowOf tz means targetDate (rand i) ]>
         (table st) |}.

Definition generate (tz : zone) (restaurantId : string)
    (means : gmap Z stats) (today : Z) (days : nat) (rand : nat → Q)
    (db : gmap (string * Z) forecastRow) : state :=
  foldl (step tz restaurantId means today rand)
        {| predictions := []; table := db |} (seq 1 days).

(** The handler, from the orders the first query returns. *)
Definition covers (tz : zone) (msqrt : Q → Q) (restaurantId : string)
    (historicalOrders : list order) (today : Z) (days : nat)
    (rand : nat → Q) (db : gmap (string * Z) forecastRow) : state :=
  generate tz restaurantId (dowMeans tz msqrt historicalOrders)
    today days rand db.

End Forecast.

(** ** At-risk customers: GET /api/customers/at-risk *)

Module Customers.

Record customer : Type := {
  id : string;
  restaurantId : string;
  churnRisk : option Q;
  lifetimeValue : option Q;
  lastVisit : option Z
}.

(** [Number(c.churnRisk)] *)
Definition riskOf (c : customer) : Q := default 0%Q (churnRisk c).

(** [where: { restaurantId, churnRisk: { gte: minRisk } }]: a null
    risk never matches. *)
Definition matches (rid : string) (minRisk : Q) (c : customer) : bool :=
  bool_decide (restaurantId c = rid) &&
  match churnRisk c with
  | Some r => Qle_bool minRisk r
  | None => false
  end.

(** [orderBy: { churnRisk: 'desc' }] as a stable sort: rows of equal
    risk keep the order they have in the table.  This is one of the
    orders the database may choose; the statement that depends on the
    order of such rows is made for all of them. *)
Fixpoint insertDesc (c : customer) (l : list customer) : list customer :=
  match l with
  | [] => [c]
  | d :: l' =>
      if Qle_bool (riskOf d) (riskOf c) then c :: d :: l'
      else d :: insertDesc c l'
  end.

Definition orderByRiskDesc (l : list customer) : list customer :=
  foldr insertDesc [] l.

(** [prisma.customer.findMany({ where, orderBy, take })] over the rows
    of the customer table, with the stable sort. *)
Definition findMany (customers : list customer) (rid : string)
    (minRisk : Q) (limit : nat) : list customer :=
  take limit
    (orderByRiskDesc (filter (λ c, matches rid minRisk c = true) customers)).

Definition getChurnAction (risk : Q) (daysSinceVisit : option Z) : string :=
  if Qle_bool (8 # 10) risk then
    "Urgent: Send personalized win-back offer with significant discount"
  else if Qle_bool (6 # 10) risk then
    "Send re-engagement email with special offer"
  else
    match daysSinceVisit with
    | Some d =>
        if negb (Z.eqb d 0) && Z.ltb 60 d then "Add to win-back campaign list"
        else "Monitor - no immediate action needed"
    | None => "Monitor - no immediate action needed"
    end.

Record enrichedCustomer : Type := {
  base : customer;
  daysSinceLastVisit : option Z;
  churnRiskPercent : Z;
  e_lifetimeValue : Q;
  recommendedAction : string
}.

Definition msPerDay : Z := (1000 * 60 * 60 * 24)%Z.

(** The callback of [customers.map]; [now] is [Date.now()]. *)
Definition enrich (now : Z) (c : customer) : enrichedCustomer :=
  let daysSinceVisit :=
    (λ t, Qfloor (inject_Z (now - t) / inject_Z msPerDay)) <$> lastVisit c in
  {| base := c;
     daysSinceLastVisit := daysSinceVisit;
     churnRiskPercent := Js.round_fin (riskOf c * 100);
     e_lifetimeValue :=
       (inject_Z (Js.round_fin (default 0 (lifetimeValue c) * 100)) / 100)%Q;
     recommendedAction := getChurnAction (riskOf c) daysSinceVisit |}.

Record atRiskSummary : Type := {
  total : nat;
  avgChurnRisk : Js.num;
  totalAtRiskValue : Q
}.

Record atRiskData : Type := {
  customers : list enrichedCustomer;
  summary : atRiskSummary
}.

Definition sumOf {A} (f : A → Q) (xs : list A) : Q :=
  foldl (λ s c, (s + f c)%Q) 0%Q xs.

Definition summarise (enriched : list enrichedCustomer) : atRiskSummary :=
  {| total := length enriched;
     avgChurnRisk :=
       Js.round
         (Js.mul
            (Js.div (Js.Fin (sumOf (λ c, riskOf (base c)) enriched))
                    (Js.Fin (inject_Z (Z.of_nat (length enriched)))))
            (Js.Fin 100));
     totalAtRiskValue :=
       (inject_Z (Js.round_fin (sumOf e_lifetimeValue enriched * 100)) / 100)%Q |}.

(** The handler: query, enrich, summarise. *)
Definition atRisk (table : list customer) (rid : string) (minRisk : Q)
    (limit : nat) (now : Z) : atRiskData :=
  let enriched := enrich now <$> findMany table rid minRisk limit in
  {| customers := enriched; summary := summarise enriched |}.

End Customers.

(** ** Schedule optimiser: POST /api/staff/schedule/optimize
    (server/src/routes/staff.ts) *)

Module Staff.

Record staff : Type := {
  id : string;
  name : string;
  role : string
}.

(** A row of [demandForecast]; [predictedCovers] is a nullable integer. *)
Record demandForecast : Type := {
  forecastDate : Z;
  predictedCovers : option Z
}.

Record constraints : Type := {
  maxHoursPerEmployee : Q;
  minHoursPerShift : Q;
  maxHoursPerShift : Q
}.

Record shift : Type := {
  staffId : string;
  staffName : string;
  shift_role : string;
  shift_date : Z;
  start : string;
  end_ : string;
  hours : Z
}.

Record staffing : Type := {
  servers : Z;
  cooks : Z;
  staffing_total : Z
}.

Record dayRecommendation : Type := {
  date : Z;
  expectedCovers : Z;
  needed : staffing;
  suggestedShifts : list shift
}.

(** [forecast.predictedCovers || 50] *)
Definition coversOf (f : demandForecast) : Z :=
  match predictedCovers f with
  | Some c => if Z.eqb c 0 then 50 else c
  | None => 50
  end.

(** [Math.ceil(covers / 20)] *)
Definition serversNeeded (covers : Z) : Z := Js.ceil_fin (inject_Z covers / 20).

(** [Math.ceil(covers / 40)] *)
Definition cooksNeeded (covers : Z) : Z := Js.ceil_fin (inject_Z covers / 40).

(** [constraints?.maxHoursPerEmployee || 40] *)
Definition capOf (c : option constraints) : Q :=
  match c with
  | Some c => if Qeq_bool (maxHoursPerEmployee c) 0 then 40 else maxHoursPerEmployee c
  | None => 40
  end.

(** [staffHours.get(id) || 0] *)
Definition hoursOf (staffHours : gmap string Z) (sid : string) : Z :=
  default 0%Z (staffHours !! sid).

Definition shiftFor (day : Z) (server : staff) : shift :=
  {| staffId := id server;
     staffName := name server;
     shift_role := "server";
     shift_date := day;
     start := "T11:00:00";
     end_ := "T20:00:00";
     hours := 9 |}.

(** The body of the inner loop, for [server = servers[i]]. *)
Definition assign (cap : Q) (day : Z) (acc : list shift * gmap string Z)
    (server : staff) : list shift * gmap string Z :=
  let currentHours := hoursOf acc.2 (id server) in
  if Js.Qlt_bool (inject_Z currentHours) cap
  then (acc.1 ++ [shiftFor day server],
        <[ id server := (currentHours + 9)%Z ]> acc.2)
  else acc.

(** [staff.filter((s) => s.role === 'server')] *)
Definition serversOf (roster : list staff) : list staff :=
  filter (λ s, role s = "server") roster.

(** The inner loop [for (i = 0; i < serversNeeded && i < servers.length; i++)]
    visits the first [serversNeeded] servers in roster order. *)
Definition assignServers (cap : Q) (day : Z) (roster : list staff)
    (n : Z) (staffHours : gmap string Z) : list shift * gmap string Z :=
  foldl (assign cap day) ([], staffHours) (take (Z.to_nat n) (serversOf roster)).

(** One iteration of [for (const forecast of forecasts)]. *)
Definition scheduleDay (c : option constraints) (roster : list staff)
    (acc : list dayRecommendation * gmap string Z) (f : demandForecast)
  : list dayRecommendation * gmap string Z :=
  let covers := coversOf f in
  let sn := serversNeeded covers in
  let cn := cooksNeeded covers in
  let r := assignServers (capOf c) (forecastDate f) roster sn acc.2 in
  (acc.1 ++ [ {| date := forecastDate f;
                 expectedCovers := covers;
                 needed := {| servers := sn; cooks := cn;
                              staffing_total := sn + cn + 1 |};
                 suggestedShifts := r.1 |} ],
   r.2).

Record optimizeData : Type := {
  recommendations : list dayRecommendation;
  totalShiftsRecommended : nat;
  staffUtilization : gmap string Z
}.

(** The handler, from the rows the two queries return. *)
Definition optimize (c : option constraints) (forecasts : list demandForecast)
    (roster : list staff) : optimizeData :=
  let r := foldl (scheduleDay c roster) ([], ∅) forecasts in
  {| recommendations := r.1;
     totalShiftsRecommended :=
       foldl (λ s d, s + length (suggestedShifts d))%nat 0%nat r.1;
     staffUtilization := r.2 |}.

End Staff.

(** * Vocabulary of the properties *)

(** Moves [inject_Z] inside sums and differences and turns the image of
    an integer literal into the rational literal, so that [lra] sees
    through it. *)
Ltac push_inject :=
  unfold Z.sub;
  repeat rewrite ?inject_Z_plus, ?inject_Z_opp;
  repeat match goal with
         | |- context [inject_Z (Zpos ?p)] =>
             change (inject_Z (Zpos p)) with (Zpos p # 1)%Q
         | |- context [inject_Z (Zneg ?p)] =>
             change (inject_Z (Zneg p)) with (Zneg p # 1)%Q
         | |- context [inject_Z Z0] => change (inject_Z Z0) with 0%Q
         end.

(** The four classifications. *)
Definition labels : list string := ["Star"; "Plowhorse"; "Puzzle"; "Dog"].

(** Both reported indices are the number 1. *)
Definition reported_one (a : Menu.analysisRow) : bool :=
  Js.eqb (Menu.popularityIndex a) (Js.Fin 1) &&
  Js.eqb (Menu.profitabilityIndex a) (Js.Fin 1).

(** Every weekday with a history has a non-negative mean and a
    non-negative standard deviation. *)
Definition nonnegStats (means : gmap Z Forecast.stats) : Prop :=
  map_Forall (λ _ s, (0 <= Forecast.mean s)%Q ∧ (0 <= Forecast.std s)%Q) means.

(** The band of a response day is ordered around the prediction and
    starts at 0 or above. *)
Definition bandOrdered (p : Forecast.prediction) : Prop :=
  (Forecast.confidenceLow p ≤ Forecast.predictedCovers p)%Z ∧
  (Forecast.predictedCovers p ≤ Forecast.confidenceHigh p)%Z ∧
  (0 ≤ Forecast.confidenceLow p)%Z.

(** A square root on the rationals for the examples: the integer square
    root of the integer part. *)
Definition floorSqrt (q : Q) : Q := inject_Z (Z.sqrt (Qfloor q)).

(** A response day derived from the default statistics: the prediction
    is [round (50 + v)] for a jitter [v] of at most 0.25 * 10, floored at
    0, and the band is the prediction plus and minus 1.5 * 10, the lower
    end floored at 0.  With these numbers nothing is floored: the
    prediction lies in 48..53 (a sum of 52.5 rounds up to 53) and the
    band is exactly 15 either side. *)
Definition from_defaults (p : Forecast.prediction) : Prop :=
  ∃ v : Q,
    (- (5 # 2) <= v)%Q ∧ (v <= 5 # 2)%Q ∧
    Forecast.predictedCovers p = Z.max 0 (Js.round_fin (50 + v)) ∧
    Forecast.confidenceLow p =
      Z.max 0 (Js.round_fin (inject_Z (Js.round_fin (50 + v)) - 15)) ∧
    Forecast.confidenceHigh p =
      Js.round_fin (inject_Z (Js.round_fin (50 + v)) + 15) ∧
    (48 ≤ Forecast.predictedCovers p)%Z ∧ (Forecast.predictedCovers p ≤ 53)%Z ∧
    Forecast.confidenceLow p = (Forecast.predictedCovers p - 15)%Z ∧
    Forecast.confidenceHigh p = (Forecast.predictedCovers p + 15)%Z.

(** Descending order of churn risk. *)
Definition riskDesc (a b : Customers.customer) : Prop :=
  (Customers.riskOf b <= Customers.riskOf a)%Q.

(** The test of the inner loop: the hours accumulated so far are below
    the cap. *)
Definition underCap (cap : Q) (staffHours : gmap string Z) (s : Staff.staff)
  : Prop :=
  Js.Qlt_bool (inject_Z (Staff.hoursOf staffHours (Staff.id s))) cap = true.

#[global] Instance underCap_dec cap staffHours s :
  Decision (underCap cap staffHours s).
Proof. unfold underCap. apply _. Defined.

(** The servers the inner loop visits on a day: the first
    [serversNeeded] servers of the roster. *)
Definition considered (roster : list Staff.staff) (d : Staff.dayRecommendation)
  : list Staff.staff :=
  take (Z.to_nat (Staff.servers (Staff.needed d))) (Staff.serversOf roster).

(** The 9-hour shift fits under the cap. *)
Definition roomForShift (cap : Q) (staffHours : gmap string Z)
    (s : Staff.staff) : Prop :=
  (inject_Z (Staff.hoursOf staffHours (Staff.id s)) + 9 <= cap)%Q.

(** The hours have reached the cap. *)
Definition atCap (cap : Q) (staffHours : gmap string Z) (s : Staff.staff)
  : Prop :=
  (cap <= inject_Z (Staff.hoursOf staffHours (Staff.id s)))%Q.

(** The hours map at the start of day [k]: the utilisation after the first
    [k] forecasts. *)
Definition hoursBefore (c : option Staff.constraints)
    (forecasts : list Staff.demandForecast) (roster : list Staff.staff)
    (k : nat) : gmap string Z :=
  Staff.staffUtilization (Staff.optimize c (take k forecasts) roster).

(** No one passes the cap by a full shift. *)
Definition nearCap (cap : Q) (st : gmap string Z) : Prop :=
  ∀ sid, Staff.hoursOf st sid = 0%Z ∨
         (inject_Z (Staff.hoursOf st sid) < cap + 9)%Q.

(** The number of shifts of a day given to staff of one role. *)
Definition shiftsOfRole (role : string) (d : Staff.dayRecommendation) : nat :=
  length (filter (λ sh, Staff.shift_role sh = role) (Staff.suggestedShifts d)).

(** The number of staff of one role on the roster. *)
Definition staffOfRole (role : string) (roster : list Staff.staff) : nat :=
  length (filter (λ s, Staff.role s = role) roster).

(** A role is staffed on a day when it gets as many shifts as its target
    headcount, or all the staff of the role when there are fewer. *)
Definition roleStaffed (role : string) (target : Z)
    (roster : list Staff.staff) (d : Staff.dayRecommendation) : Prop :=
  Z.of_nat (shiftsOfRole role d) = Z.min target (Z.of_nat (staffOfRole role roster)).

(** The items with at least one sale in the period. *)
Definition soldIds (orderItems : list Menu.orderItem) : list string :=
  remove_dups (Menu.menuItemId <$> orderItems).

(** [xs.map(f)] summed up. *)
Definition total {A} (f : A → Q) (xs : list A) : Q :=
  foldr (λ x s, (f x + s)%Q) 0%Q xs.

(** The sales of one item. *)
Definition salesOf (i : string) (orderItems : list Menu.orderItem)
  : list Menu.orderItem :=
  filter (λ oi, Menu.menuItemId oi = i) orderItems.









(** The metrics one sale adds to the entry of its item. *)
Definition addTo (m : Menu.metrics) (oi : Menu.orderItem) : Menu.metrics :=
  {| Menu.quantity := Menu.quantity m + Menu.oi_quantity oi;
     Menu.revenue := Menu.revenue m + Menu.oi_revenue oi;
     Menu.cost := Menu.cost m + Menu.oi_cost oi;
     Menu.profit := Menu.profit m + (Menu.oi_revenue oi - Menu.oi_cost oi) |}.

(** The entry of item [i] after the sales [ois], starting from [m0]. *)
Definition entryOf (i : string) (m0 : Menu.metrics)
    (ois : list Menu.orderItem) : Menu.metrics :=
  foldl addTo m0 (salesOf i ois).

(** * Example inputs *)

(** The two sales of the rounding example: item [a] sells 249 units and
    item [b] 251, both at price 2 and cost 1, so the averages are 250. *)
Definition rounding_sales : list Menu.orderItem :=
  [ {| Menu.menuItemId := "a"; Menu.oi_quantity := 249;
       Menu.unitPrice := Some 2%Q; Menu.menuItem_cost := Some 1%Q |};
    {| Menu.menuItemId := "b"; Menu.oi_quantity := 251;
       Menu.unitPrice := Some 2%Q; Menu.menuItem_cost := Some 1%Q |} ].

Definition rounding_items : list Menu.menuItem :=
  [ {| Menu.id := "a"; Menu.name := "Soup"; Menu.category := "starter";
       Menu.price := 2; Menu.item_cost := Some 1%Q |} ].

(** Two Fridays, with 4 and 2 guests: mean 3, variance 1. *)
Definition friday_history : list Forecast.order :=
  [ {| Forecast.closedAt := 1; Forecast.guests := Some 4%Z |};
    {| Forecast.closedAt := 8; Forecast.guests := Some 2%Z |} ].

(** Statistics with a deviation far above the mean, on Fridays. *)
Definition wide_stats : gmap Z Forecast.stats :=
  {[ 5%Z := {| Forecast.mean := 1; Forecast.std := 12 |} ]}.

(** One closed order on day 1 (a Friday) with a guest count of -3. *)
Definition negative_history : list Forecast.order :=
  [ {| Forecast.closedAt := 1; Forecast.guests := Some (-3)%Z |} ].

(** One customer of the restaurant, with churn risk 0.30. *)
Definition loyal_table : list Customers.customer :=
  [ {| Customers.id := "c1"; Customers.restaurantId := "r1";
       Customers.churnRisk := Some (3 # 10)%Q;
       Customers.lifetimeValue := Some 120%Q;
       Customers.lastVisit := Some 0%Z |} ].

(** Five forecast days of 20 covers each. *)
Definition five_days : list Staff.demandForecast :=
  (λ d, {| Staff.forecastDate := d; Staff.predictedCovers := Some 20%Z |})
    <$> [0; 1; 2; 3; 4]%Z.

Definition ann : Staff.staff :=
  {| Staff.id := "s1"; Staff.name := "Ann"; Staff.role := "server" |}.

Definition bo : Staff.staff :=
  {| Staff.id := "k1"; Staff.name := "Bo"; Staff.role := "cook" |}.

Definition cy : Staff.staff :=
  {| Staff.id := "s2"; Staff.name := "Cy"; Staff.role := "server" |}.

Definition one_server : list Staff.staff := [ann].

Definition one_cook : list Staff.staff := [bo].

Definition forty_covers : list Staff.demandForecast :=
  [ {| Staff.forecastDate := 0; Staff.predictedCovers := Some 40%Z |} ].

(** Two servers and a cook. *)
Definition small_roster : list Staff.staff := [ann; bo; cy].

(** Two days of 50 covers, the second by default: three servers needed. *)
Definition two_days : list Staff.demandForecast :=
  [ {| Staff.forecastDate := 0; Staff.predictedCovers := Some 50%Z |};
    {| Staff.forecastDate := 1; Staff.predictedCovers := None |} ].

(** Six forecast days of 20 covers each. *)
Definition six_days : list Staff.demandForecast :=
  (λ d, {| Staff.forecastDate := d; Staff.predictedCovers := Some 20%Z |})
    <$> [0; 1; 2; 3; 4; 5]%Z.

(** Two servers. *)
Definition two_servers : list Staff.staff := [ann; cy].


(** * Vocabulary of the further properties *)

(** The rows the where-clause of the at-risk query selects. *)
Definition matching (table : list Customers.customer) (rid : string)
    (minRisk : Q) : list Customers.customer :=
  filter (λ c, Customers.matches rid minRisk c = true) table.

(** What [findMany] with [orderBy: { churnRisk: 'desc' }] and [take] may
    return: the first [limit] rows of some arrangement of the selected
    rows by descending risk.  Which of several rows of equal risk comes
    first is the database's choice, and it may differ from one query to
    the next. *)
Definition mayReturn (table : list Customers.customer) (rid : string)
    (minRisk : Q) (limit : nat) (rows : list Customers.customer) : Prop :=
  ∃ ordered, ordered ≡ₚ matching table rid minRisk ∧
             StronglySorted riskDesc ordered ∧
             rows = take limit ordered.

(** The response of the handler for the rows the query has returned. *)
Definition answerOf (now : Z) (rows : list Customers.customer)
  : Customers.atRiskData :=
  let enriched := Customers.enrich now <$> rows in
  {| Customers.customers := enriched;
     Customers.summary := Customers.summarise enriched |}.

Definition mayAnswer (table : list Customers.customer) (rid : string)
    (minRisk : Q) (limit : nat) (now : Z) (data : Customers.atRiskData)
  : Prop :=
  ∃ rows, mayReturn table rid minRisk limit rows ∧ data = answerOf now rows.

(** No two rows have the same churn risk. *)
Definition distinctRisks (l : list Customers.customer) : Prop :=
  ∀ a b, a ∈ l → b ∈ l →
         (Customers.riskOf a == Customers.riskOf b)%Q → a = b.

(** Two customers of restaurant r1 with the same risk 0.95. *)
Definition tie_a : Customers.customer :=
  {| Customers.id := "a"; Customers.restaurantId := "r1";
     Customers.churnRisk := Some (95 # 100)%Q;
     Customers.lifetimeValue := None; Customers.lastVisit := None |}.

Definition tie_b : Customers.customer :=
  {| Customers.id := "b"; Customers.restaurantId := "r1";
     Customers.churnRisk := Some (95 # 100)%Q;
     Customers.lifetimeValue := None; Customers.lastVisit := None |}.

Definition tie_table : list Customers.customer := [tie_a; tie_b].

(** The two outreach actions of [getChurnAction]. *)
Definition urgentAction : string :=
  "Urgent: Send personalized win-back offer with significant discount".

Definition reengageAction : string :=
  "Send re-engagement email with special offer".

(** Three customers of restaurant r1 with risks 0.65, 0.30 and 0.90, and
    one of another restaurant. *)
Definition mixed_table : list Customers.customer :=
  [ {| Customers.id := "c1"; Customers.restaurantId := "r1";
       Customers.churnRisk := Some (65 # 100)%Q;
       Customers.lifetimeValue := Some 80%Q; Customers.lastVisit := None |};
    {| Customers.id := "c2"; Customers.restaurantId := "r1";
       Customers.churnRisk := Some (30 # 100)%Q;
       Customers.lifetimeValue := None; Customers.lastVisit := Some 0%Z |};
    {| Customers.id := "c3"; Customers.restaurantId := "r1";
       Customers.churnRisk := Some (90 # 100)%Q;
       Customers.lifetimeValue := Some 310%Q; Customers.lastVisit := Some 0%Z |};
    {| Customers.id := "c4"; Customers.restaurantId := "r2";
       Customers.churnRisk := Some (95 # 100)%Q;
       Customers.lifetimeValue := Some 12%Q; Customers.lastVisit := None |} ].

(** The dates a run of the cover forecast writes: [today + 1] to
    [today + days]. *)
Definition generatedKey (rid : string) (today : Z) (days : nat)
    (k : string * Z) : Prop :=
  k.1 = rid ∧ (today < k.2)%Z ∧ (k.2 ≤ today + Z.of_nat days)%Z.

#[global] Instance generatedKey_dec rid today days k :
  Decision (generatedKey rid today days k).
Proof. unfold generatedKey. apply _. Defined.

(** What the upsert leaves in the table for a response day. *)
Definition storedFor (st : Forecast.state) (rid : string)
    (p : Forecast.prediction) : Prop :=
  ∃ row, Forecast.table st !! (rid, Forecast.date p) = Some row ∧
         Forecast.row_confidenceLow row = Forecast.confidenceLow p ∧
         Forecast.row_confidenceHigh row = Forecast.confidenceHigh p ∧
         Forecast.predictedCovers p = Z.max 0 (Forecast.row_predictedCovers row) ∧
         Forecast.modelVersion row = "dow_average_v1".

(** The record one iteration of the optimiser adds for the forecast [f],
    from the hours map [staffHours] of the start of the day. *)
Definition dayFor (c : option Staff.constraints) (roster : list Staff.staff)
    (staffHours : gmap string Z) (f : Staff.demandForecast)
  : Staff.dayRecommendation :=
  let covers := Staff.coversOf f in
  {| Staff.date := Staff.forecastDate f;
     Staff.expectedCovers := covers;
     Staff.needed :=
       {| Staff.servers := Staff.serversNeeded covers;
          Staff.cooks := Staff.cooksNeeded covers;
          Staff.staffing_total :=
            Staff.serversNeeded covers + Staff.cooksNeeded covers + 1 |};
     Staff.suggestedShifts :=
       (Staff.assignServers (Staff.capOf c) (Staff.forecastDate f) roster
          (Staff.serversNeeded covers) staffHours).1 |}.

(** All the shifts the optimiser suggests for the week. *)
Definition shiftsOfWeek (out : Staff.optimizeData) : list Staff.shift :=
  Staff.recommendations out ≫= Staff.suggestedShifts.

(** The number of shifts of the week suggested to one staff member. *)
Definition shiftCount (sid : string) (shifts : list Staff.shift) : nat :=
  length (filter (λ sh, Staff.staffId sh = sid) shifts).

(** The target headcounts of a day are the least numbers of servers and
    cooks that cover the expected covers at 20 and 40 covers each. *)
Definition headcountCovers (d : Staff.dayRecommendation) : Prop :=
  let e := Staff.expectedCovers d in
  let n := Staff.needed d in
  (20 * (Staff.servers n - 1) < e)%Z ∧ (e ≤ 20 * Staff.servers n)%Z ∧
  (40 * (Staff.cooks n - 1) < e)%Z ∧ (e ≤ 40 * Staff.cooks n)%Z ∧
  Staff.staffing_total n = (Staff.servers n + Staff.cooks n + 1)%Z.

(** The orders closed on one date, and their guests ([o.guests || 1]). *)
Definition ordersOn (d : Z) (orders : list Forecast.order) : list Forecast.order :=
  filter (λ o, Forecast.closedAt o = d) orders.

Definition guestsOn (d : Z) (orders : list Forecast.order) : Z :=
  foldr (λ o s, (Forecast.guestsOr1 o + s)%Z) 0%Z (ordersOn d orders).

(** The dates of the history that the handler files under one weekday. *)
Definition datesOn (tz : Forecast.zone) (w : Z) (orders : list Forecast.order)
  : list Z :=
  filter (λ d, Forecast.getDayOfDate tz d = w)
         (remove_dups (Forecast.closedAt <$> orders)).

(** A finite number: neither NaN nor an infinity. *)
Definition isFin (x : Js.num) : Prop := ∃ q, x = Js.Fin q.

(** Every number of an analysis row is finite. *)
Definition rowFinite (a : Menu.analysisRow) : Prop :=
  isFin (Menu.a_revenue a) ∧ isFin (Menu.a_profit a) ∧
  isFin (Menu.contributionMargin a) ∧ isFin (Menu.popularityIndex a) ∧
  isFin (Menu.profitabilityIndex a).

(** Revenue and cost of one item over the period. *)
Definition itemRevenue (orderItems : list Menu.orderItem) (i : string) : Q :=
  total Menu.oi_revenue (salesOf i orderItems).

Definition itemCost (orderItems : list Menu.orderItem) (i : string) : Q :=
  total Menu.oi_cost (salesOf i orderItems).

(** A menu item that does not occur in [rounding_sales]. *)
Definition unsold_item : Menu.menuItem :=
  {| Menu.id := "z"; Menu.name := "Tripe"; Menu.category := "main";
     Menu.price := 9; Menu.item_cost := None |}.

(** * Further handlers *)

(** ** JavaScript arrays: subtraction of numbers and [sort]

    [Array.prototype.sort] is stable; it is given here as the insertion
    that lets an element pass another only when the comparator returns a
    positive number for the pair. *)

Module JsArray.

(** [x - y] *)
Definition sub (x y : Js.num) : Js.num :=
  match x, y with
  | Js.NaN, _ | _, Js.NaN => Js.NaN
  | Js.Fin a, Js.Fin b => Js.Fin (a - b)
  | Js.Fin _, Js.PosInf | Js.NegInf, Js.Fin _ | Js.NegInf, Js.PosInf => Js.NegInf
  | Js.Fin _, Js.NegInf | Js.PosInf, Js.Fin _ | Js.PosInf, Js.NegInf => Js.PosInf
  | Js.PosInf, Js.PosInf | Js.NegInf, Js.NegInf => Js.NaN
  end.

(** The comparator result puts its first argument after the second. *)
Definition after (r : Js.num) : bool := Js.lt (Js.Fin 0) r.

Fixpoint insert {A} (cmp : A → A → Js.num) (x : A) (l : list A) : list A :=
  match l with
  | [] => [x]
  | y :: l' => if after (cmp x y) then y :: insert cmp x l' else x :: y :: l'
  end.

(** [l.sort(cmp)] *)
Definition sort {A} (cmp : A → A → Js.num) (l : list A) : list A :=
  foldr (insert cmp) [] l.

End JsArray.

(** ** Menu recommendations: generateMenuRecommendations
    (server/src/routes/menu.ts)

    The text a number takes inside a template string is a parameter. *)

Module MenuAdvice.

(** The double-quote character, for the quoted item names. *)
Definition quote : string :=
  String (Ascii.Ascii false true false false false true false false) EmptyString.

(** [analysis.filter((a) => a.classification === label)] *)
Definition ofClass (label : string) (analysis : list Menu.analysisRow)
  : list Menu.analysisRow :=
  filter (λ a, Menu.classification a = label) analysis.

(** [(a, b) => a.profit - b.profit] *)
Definition byProfitAsc (a b : Menu.analysisRow) : Js.num :=
  JsArray.sub (Menu.a_profit a) (Menu.a_profit b).

(** [(a, b) => b.quantitySold - a.quantitySold] *)
Definition byQuantityDesc (a b : Menu.analysisRow) : Js.num :=
  Js.Fin (inject_Z (Menu.quantitySold b) - inject_Z (Menu.quantitySold a)).

(** [(a, b) => b.profit - a.profit] *)
Definition byProfitDesc (a b : Menu.analysisRow) : Js.num :=
  JsArray.sub (Menu.a_profit b) (Menu.a_profit a).

(** [dogs.sort(...)[0]], and the same for the two other classes; [None]
    stands for the empty class, which the handler tests before. *)
Definition worstDog (analysis : list Menu.analysisRow) : option Menu.analysisRow :=
  head (JsArray.sort byProfitAsc (ofClass "Dog" analysis)).

Definition topPlowhorse (analysis : list Menu.analysisRow)
  : option Menu.analysisRow :=
  head (JsArray.sort byQuantityDesc (ofClass "Plowhorse" analysis)).

Definition topPuzzle (analysis : list Menu.analysisRow) : option Menu.analysisRow :=
  head (JsArray.sort byProfitDesc (ofClass "Puzzle" analysis)).

Definition dogAdvice (a : Menu.analysisRow) : string :=
  "Consider removing " ++ quote ++ Menu.a_name a ++ quote
  ++ " from the menu - low sales and low profitability.".

Definition plowhorseAdvice (show : Js.num → string) (a : Menu.analysisRow)
  : string :=
  quote ++ Menu.a_name a ++ quote ++ " is popular but has low margin ("
  ++ show (Menu.contributionMargin a)
  ++ "%). Consider reducing portion size or increasing price by 5-10%.".

Definition puzzleAdvice (a : Menu.analysisRow) : string :=
  quote ++ Menu.a_name a ++ quote
  ++ " is highly profitable but underselling. Consider featuring it as a special or training servers to recommend it.".

Definition balanced : string :=
  "Menu is well-balanced. Continue monitoring performance.".

(** The pushes of the three [if (xs.length > 0)] blocks, in order. *)
Definition advice (show : Js.num → string) (analysis : list Menu.analysisRow)
  : list string :=
  (if decide (0 < length (ofClass "Dog" analysis))%nat
   then from_option (λ a, [dogAdvice a]) [] (worstDog analysis) else [])
  ++ (if decide (0 < length (ofClass "Plowhorse" analysis))%nat
      then from_option (λ a, [plowhorseAdvice show a]) [] (topPlowhorse analysis)
      else [])
  ++ (if decide (0 < length (ofClass "Puzzle" analysis))%nat
      then from_option (λ a, [puzzleAdvice a]) [] (topPuzzle analysis)
      else []).

Definition generateMenuRecommendations (show : Js.num → string)
    (analysis : list Menu.analysisRow) : list string :=
  let recommendations := advice show analysis in
  if decide (length recommendations = 0)%nat then [balanced] else recommendations.

End MenuAdvice.
(** The profit a row reports, when it is finite. *)
Definition reportedProfit (a : Menu.analysisRow) : Q :=
  match Menu.a_profit a with Js.Fin q => q | _ => 0%Q end.

(** The number of the three classes Dog, Plowhorse and Puzzle that have
    at least one item. *)
Definition actionableClasses (analysis : list Menu.analysisRow) : nat :=
  length (filter (λ label, MenuAdvice.ofClass label analysis ≠ [])
                 ["Dog"; "Plowhorse"; "Puzzle"]).

(** A comparator orders the elements that satisfy [P] by increasing
    [key]. *)
Definition ordersBy {A} (cmp : A → A → Js.num) (key : A → Q) (P : A → Prop)
  : Prop :=
  ∀ x y, P x → P y → (JsArray.after (cmp x y) = true ↔ (key y < key x)%Q).

(** ** JavaScript [Map] and [Set]: entries kept in insertion order *)

Module JsMap.

(** [m.get(k)] *)
Fixpoint get {K V} `{EqDecision K} (m : list (K * V)) (k : K) : option V :=
  match m with
  | [] => None
  | (k', v) :: m' => if decide (k' = k) then Some v else get m' k
  end.

(** [m.set(k, v)]: the value of a key already there is replaced in
    place, a new key goes last. *)
Fixpoint set {K V} `{EqDecision K} (m : list (K * V)) (k : K) (v : V)
  : list (K * V) :=
  match m with
  | [] => [(k, v)]
  | (k', v') :: m' =>
      if decide (k' = k) then (k, v) :: m' else (k', v') :: set m' k v
  end.

(** [m.set(key(x), f(m.get(key(x)) || init(x), x))], the body of the
    [forEach] loops that aggregate rows by key; the values are objects
    or arrays, so that [||] only replaces a missing entry. *)
Definition accumulate {K V A} `{EqDecision K} (key : A → K) (init : A → V)
    (f : V → A → V) (m : list (K * V)) (x : A) : list (K * V) :=
  set m (key x) (f (default (init x) (get m (key x))) x).

(** The map a [forEach] of that shape builds from the empty map. *)
Definition groupBy {K V A} `{EqDecision K} (key : A → K) (init : A → V)
    (f : V → A → V) (xs : list A) : list (K * V) :=
  foldl (accumulate key init f) [] xs.

(** [xs.reduce(f, init(x0))] started from the first element, if any. *)
Definition fold1 {V A} (init : A → V) (f : V → A → V) (xs : list A)
  : option V :=
  match xs with
  | [] => None
  | x :: _ => Some (foldl f (init x) xs)
  end.

End JsMap.

Module JsSet.

(** [s.add(x)] *)
Definition add {A} `{EqDecision A} (s : list A) (x : A) : list A :=
  if decide (x ∈ s) then s else s ++ [x].

(** [[...new Set(xs)]] *)
Definition distinct {A} `{EqDecision A} (xs : list A) : list A :=
  foldl add [] xs.

End JsSet.

(** The distinct elements of a list in the order of their first
    occurrence. *)
Fixpoint firstSeen {A} `{EqDecision A} (l : list A) : list A :=
  match l with
  | [] => []
  | x :: l' => x :: filter (λ y, y ≠ x) (firstSeen l')
  end.

(** ** Item-level forecast: POST /api/forecast/items/:restaurantId
    (server/src/routes/forecast.ts)

    Times are instants in milliseconds; [Date.getDay], the weekday of an
    instant in the local time zone of the server, is a parameter. *)

Module ItemForecast.

(** A non-void order item with the name of the included menu item
    ([oi.menuItem?.name]). *)
Record orderItem : Type := {
  menuItemId : string;
  menuItemName : option string;
  quantity : Z
}.

(** A closed order of the last 60 days with its order items; [guests]
    is a nullable integer column. *)
Record order : Type := {
  closedAt : Z;
  guests : option Z;
  orderItems : list orderItem
}.

(** [o.guests || 1] *)
Definition guestsOr1 (o : order) : Z :=
  match guests o with
  | Some g => if Z.eqb g 0 then 1 else g
  | None => 1
  end.

(** A value of the [itemRatios] map. *)
Record ratioEntry : Type := { name : string; ratio : Q }.

(** One element of [itemForecasts]. *)
Record itemForecast : Type := {
  f_menuItemId : string;
  itemName : string;
  predictedQuantity : Z;
  f_ratio : Q
}.

(** [coverForecast?.predictedCovers || 50] *)
Definition storedCovers (coverForecast : option Forecast.forecastRow) : Q :=
  match coverForecast with
  | Some row =>
      if Z.eqb (Forecast.row_predictedCovers row) 0 then 50%Q
      else inject_Z (Forecast.row_predictedCovers row)
  | None => 50%Q
  end.

(** [covers]: the body's [expectedCovers] unless it is missing or 0,
    then the stored forecast of the date. *)
Definition coversFor (expectedCovers : option Q)
    (coverForecast : option Forecast.forecastRow) : Q :=
  match expectedCovers with
  | Some c => if Qeq_bool c 0 then storedCovers coverForecast else c
  | None => storedCovers coverForecast
  end.

(** [historicalOrders.filter((o) => o.closedAt?.getDay() === dow)] *)
Definition sameDowOrders (getDay : Z → Z) (forecastDate : Z)
    (historicalOrders : list order) : list order :=
  filter (λ o, getDay (closedAt o) = getDay forecastDate) historicalOrders.

(** [oi.menuItem?.name || 'Unknown'] *)
Definition nameOf (oi : orderItem) : string :=
  match menuItemName oi with
  | Some n => if decide (n = EmptyString) then "Unknown" else n
  | None => "Unknown"
  end.

(** The body of [o.orderItems.forEach]. *)
Definition addItem (m : list (string * ratioEntry)) (oi : orderItem)
  : list (string * ratioEntry) :=
  JsMap.accumulate menuItemId
    (λ oi, {| name := nameOf oi; ratio := 0 |})
    (λ existing oi, {| name := name existing;
                       ratio := ratio existing + inject_Z (quantity oi) |})
    m oi.

(** The body of [sameDowOrders.forEach], on [itemRatios] and
    [totalCovers]. *)
Definition addOrder (st : list (string * ratioEntry) * Z) (o : order)
  : list (string * ratioEntry) * Z :=
  (foldl addItem st.1 (orderItems o),
   (st.2 + guestsOr1 o)%Z).

Definition tally (orders : list order) : list (string * ratioEntry) * Z :=
  foldl addOrder ([], 0%Z) orders.

(** The body of the [forEach] that converts the totals to ratios. *)
Definition toRatio (totalCovers : Z) (e : string * ratioEntry)
  : string * ratioEntry :=
  (e.1, {| name := name e.2;
           ratio := if (0 <? totalCovers)%Z
                    then ratio e.2 / inject_Z totalCovers else 0 |}).

(** The callback of [Array.from(itemRatios.entries()).map]. *)
Definition forecastOf (covers : Q) (e : string * ratioEntry) : itemForecast :=
  {| f_menuItemId := e.1;
     itemName := name e.2;
     predictedQuantity := Js.round_fin (ratio e.2 * covers);
     f_ratio := inject_Z (Js.round_fin (ratio e.2 * 100)) / 100 |}.

(** [(a, b) => b.predictedQuantity - a.predictedQuantity] *)
Definition byQuantityDesc (a b : itemForecast) : Js.num :=
  Js.Fin (inject_Z (predictedQuantity b) - inject_Z (predictedQuantity a)).

Definition itemForecasts (getDay : Z → Z) (covers : Q) (forecastDate : Z)
    (historicalOrders : list order) : list itemForecast :=
  let st := tally (sameDowOrders getDay forecastDate historicalOrders) in
  JsArray.sort byQuantityDesc
    (filter (λ f, (0 < predictedQuantity f)%Z)
            (forecastOf covers <$> (toRatio st.2 <$> st.1))).

(** The upserts of [itemForecast] rows, keyed by restaurant, menu item
    and date. *)
Definition save (restaurantId : string) (forecastDate : Z)
    (db : gmap (string * string * Z) Z) (forecasts : list itemForecast)
  : gmap (string * string * Z) Z :=
  foldl (λ db f, <[ (restaurantId, f_menuItemId f, forecastDate)
                    := predictedQuantity f ]> db)
        db (take 50 forecasts).

Record response : Type := {
  date : Z;
  expectedCovers : Q;
  forecasts : list itemForecast
}.

(** The handler, from the body, the stored cover forecast of the date
    and the orders the query returns. *)
Definition items (getDay : Z → Z) (restaurantId : string) (forecastDate : Z)
    (expected : option Q) (coverForecast : option Forecast.forecastRow)
    (historicalOrders : list order) (db : gmap (string * string * Z) Z)
  : response * gmap (string * string * Z) Z :=
  let covers := coversFor expected coverForecast in
  let fs := itemForecasts getDay covers forecastDate historicalOrders in
  ({| date := (forecastDate `div` 86400000)%Z;
      expectedCovers := covers; forecasts := fs |},
   save restaurantId forecastDate db fs).

End ItemForecast.

(** The order items of the orders closed on the local weekday of the
    forecast date. *)
Definition soldOn (getDay : Z → Z) (forecastDate : Z)
    (historicalOrders : list ItemForecast.order)
  : list ItemForecast.orderItem :=
  ItemForecast.sameDowOrders getDay forecastDate historicalOrders
    ≫= ItemForecast.orderItems.

(** The quantity of one item among them. *)
Definition soldQuantity (getDay : Z → Z) (forecastDate : Z)
    (historicalOrders : list ItemForecast.order) (i : string) : Q :=
  total (λ oi, inject_Z (ItemForecast.quantity oi))
        (filter (λ oi, ItemForecast.menuItemId oi = i)
                (soldOn getDay forecastDate historicalOrders)).

(** The covers of the orders of that weekday. *)
Definition coversOn (getDay : Z → Z) (forecastDate : Z)
    (historicalOrders : list ItemForecast.order) : Z :=
  foldr (λ o s, (ItemForecast.guestsOr1 o + s)%Z) 0%Z
        (ItemForecast.sameDowOrders getDay forecastDate historicalOrders).

(** The items per cover of the history, scaled to the expected covers. *)
Definition scaled (getDay : Z → Z) (covers : Q) (forecastDate : Z)
    (historicalOrders : list ItemForecast.order) (i : string) : Q :=
  (soldQuantity getDay forecastDate historicalOrders i
   / inject_Z (coversOn getDay forecastDate historicalOrders) * covers)%Q.

(** The scaled quantity as a whole number. *)
Definition scaledQuantity (getDay : Z → Z) (covers : Q) (forecastDate : Z)
    (historicalOrders : list ItemForecast.order) (i : string) : Z :=
  Js.round_fin (scaled getDay covers forecastDate historicalOrders i).

(** ** Menu listing: GET /api/menu (server/src/routes/menu.ts) *)

Module MenuList.

Record group : Type := {
  g_category : string;
  g_items : list Menu.menuItem
}.

Record data : Type := {
  items : list Menu.menuItem;
  grouped : list group;
  totalItems : nat
}.

(** [[...new Set(items.map((i) => i.category))]] *)
Definition categories (items : list Menu.menuItem) : list string :=
  JsSet.distinct (Menu.category <$> items).

(** The callback of [categories.map]. *)
Definition groupOf (items : list Menu.menuItem) (cat : string) : group :=
  {| g_category := cat;
     g_items := filter (λ i, Menu.category i = cat) items |}.

(** The response, from the rows the query returns. *)
Definition list (items : list Menu.menuItem) : data :=
  {| items := items;
     grouped := groupOf items <$> categories items;
     totalItems := length items |}.

End MenuList.

(** ** Item performance: GET /api/menu/:id/performance
    (server/src/routes/menu.ts) *)

Module ItemPerformance.

(** A non-void order item of the menu item, with the day its order was
    closed; the query keeps the orders closed since [startDate]. *)
Record sale : Type := {
  item : Menu.orderItem;
  closedAt : Z
}.

(** A value of the [dailySales] map. *)
Record day : Type := { quantity : Z; revenue : Q }.

(** One element of [trend]. *)
Record point : Type := {
  date : Z;
  p_quantity : Z;
  p_revenue : Q
}.

Record performance : Type := {
  totalQuantity : Z;
  totalRevenue : Js.num;
  avgDailyQuantity : Js.num;
  avgDailyRevenue : Js.num
}.

Record data : Type := {
  d_id : string;
  d_name : string;
  d_category : string;
  d_price : Q;
  d_cost : Q;
  perf : performance;
  trend : list point
}.

(** The body of [orderItems.forEach]. *)
Definition addSale (m : list (Z * day)) (oi : sale) : list (Z * day) :=
  JsMap.accumulate closedAt
    (λ _, {| quantity := 0; revenue := 0 |})
    (λ existing oi,
       {| quantity := quantity existing + Menu.oi_quantity (item oi);
          revenue := revenue existing + Menu.oi_revenue (item oi) |})
    m oi.

Definition dailySales (orderItems : list sale) : list (Z * day) :=
  foldl addSale [] orderItems.

(** [(a, b) => a.date.localeCompare(b.date)]: the dates are ISO days,
    which compare as strings the way they do as days. *)
Definition byDate (a b : point) : Js.num :=
  Js.Fin (inject_Z (Z.sgn (date a - date b))).

Definition trendOf (orderItems : list sale) : list point :=
  JsArray.sort byDate
    ((λ e, {| date := e.1; p_quantity := quantity e.2;
              p_revenue := revenue e.2 |}) <$> dailySales orderItems).

(** [trend.reduce((s, d) => s + d.quantity, 0)] *)
Definition quantityOf (trend : list point) : Z :=
  foldl (λ s d, (s + p_quantity d)%Z) 0%Z trend.

(** [trend.reduce((s, d) => s + d.revenue, 0)] *)
Definition revenueOf (trend : list point) : Q :=
  Menu.sumOf p_revenue trend.

(** The handler: [None] is the 404 answer for a menu item that does not
    exist; [days] is the validated query parameter, between 7 and 365. *)
Definition get (found : option Menu.menuItem) (days : Q)
    (orderItems : list sale) : option data :=
  match found with
  | None => None
  | Some it =>
      let trend := trendOf orderItems in
      let totalQuantity := quantityOf trend in
      let totalRevenue := revenueOf trend in
      Some {| d_id := Menu.id it;
              d_name := Menu.name it;
              d_category := Menu.category it;
              d_price := Menu.price it;
              d_cost := default 0%Q (Menu.item_cost it);
              perf :=
                {| totalQuantity := totalQuantity;
                   totalRevenue := Menu.roundTo 100 (Js.Fin totalRevenue);
                   avgDailyQuantity :=
                     Menu.roundTo 10
                       (Js.div (Js.Fin (inject_Z totalQuantity)) (Js.Fin days));
                   avgDailyRevenue :=
                     Menu.roundTo 100
                       (Js.div (Js.Fin totalRevenue) (Js.Fin days)) |};
              trend := trend |}
  end.

End ItemPerformance.

(** The sales of one day. *)
Definition salesOn (d : Z) (orderItems : list ItemPerformance.sale)
  : list ItemPerformance.sale :=
  filter (λ oi, ItemPerformance.closedAt oi = d) orderItems.

(** The quantity and the revenue of a list of sales. *)
Definition quantityOfSales (orderItems : list ItemPerformance.sale) : Q :=
  total (λ oi, inject_Z (Menu.oi_quantity (ItemPerformance.item oi))) orderItems.

Definition revenueOfSales (orderItems : list ItemPerformance.sale) : Q :=
  total (λ oi, Menu.oi_revenue (ItemPerformance.item oi)) orderItems.

(** ** Inventory: GET /api/inventory and GET /api/inventory/alerts
    (server/src/routes/inventory.ts) *)

Module Inventory.

(** A row of [inventoryItem]; the nullable decimals are options. *)
Record item : Type := {
  id : string;
  name : string;
  category : string;
  currentQuantity : Q;
  reorderPoint : option Q;
  parLevel : option Q;
  unitCost : option Q
}.

(** [Number(x || 0)] and [Number(x)] on a nullable decimal. *)
Definition num (x : option Q) : Q := default 0%Q x.

(** [Number(i.currentQuantity) <= Number(i.reorderPoint || 0)] *)
Definition isLow (i : item) : Prop :=
  (currentQuantity i <= num (reorderPoint i))%Q.

#[global] Instance isLow_dec (i : item) : Decision (isLow i).
Proof.
  unfold isLow.
  destruct (Qlt_le_dec (num (reorderPoint i)) (currentQuantity i)) as [H|H];
    [right; lra|by left].
Defined.

Record summary : Type := {
  totalItems : nat;
  totalValue : Js.num;
  lowStockCount : nat
}.

Record data : Type := {
  items : list item;
  d_summary : summary
}.

(** [Number(i.currentQuantity) * Number(i.unitCost || 0)] *)
Definition valueOf (i : item) : Q := (currentQuantity i * num (unitCost i))%Q.

(** The handler of the listing, from the rows the query returns;
    [lowStock] stands for [params.lowStock === 'true']. *)
Definition getItems (lowStock : bool) (rows : list item) : data :=
  let items := if lowStock then filter isLow rows else rows in
  {| items := items;
     d_summary :=
       {| totalItems := length items;
          totalValue := Menu.roundTo 100 (Js.Fin (Menu.sumOf valueOf items));
          lowStockCount := length (filter isLow items) |} |}.

Record alert : Type := {
  a_id : string;
  a_name : string;
  a_category : string;
  a_currentQuantity : Q;
  a_reorderPoint : Q;
  a_parLevel : Q;
  orderQuantity : Q;
  estimatedCost : Q;
  urgency : string
}.

(** The nested conditional that fills [urgency]. *)
Definition urgencyOf (i : item) : string :=
  if Qeq_bool (currentQuantity i) 0 then "critical"
  else if Js.Qlt_bool (currentQuantity i) (num (reorderPoint i) * (1 # 2))
       then "high"
  else "medium".

(** The callback of [.map]. *)
Definition toAlert (i : item) : alert :=
  {| a_id := id i;
     a_name := name i;
     a_category := category i;
     a_currentQuantity := currentQuantity i;
     a_reorderPoint := num (reorderPoint i);
     a_parLevel := num (parLevel i);
     orderQuantity := num (parLevel i) - currentQuantity i;
     estimatedCost := (num (parLevel i) - currentQuantity i) * num (unitCost i);
     urgency := urgencyOf i |}.

(** [urgencyOrder[u]]; a missing key gives [undefined], a [NaN] in the
    subtraction. *)
Definition urgencyOrder (u : string) : Js.num :=
  if decide (u = "critical") then Js.Fin 0
  else if decide (u = "high") then Js.Fin 1
  else if decide (u = "medium") then Js.Fin 2
  else Js.NaN.

(** The comparator of [.sort]. *)
Definition byUrgency (a b : alert) : Js.num :=
  JsArray.sub (urgencyOrder (urgency a)) (urgencyOrder (urgency b)).

Definition alertsOf (items : list item) : list alert :=
  JsArray.sort byUrgency (toAlert <$> filter isLow items).

Record alertSummary : Type := {
  critical : nat;
  high : nat;
  medium : nat;
  totalOrderValue : Js.num
}.

Record alertData : Type := {
  alerts : list alert;
  a_summary : alertSummary
}.

(** [alerts.filter((a) => a.urgency === u).length] *)
Definition countOf (u : string) (alerts : list alert) : nat :=
  length (filter (λ a, urgency a = u) alerts).

(** The handler of the alerts, from the rows of the restaurant. *)
Definition getAlerts (items : list item) : alertData :=
  let alerts := alertsOf items in
  {| alerts := alerts;
     a_summary :=
       {| critical := countOf "critical" alerts;
          high := countOf "high" alerts;
          medium := countOf "medium" alerts;
          totalOrderValue :=
            Menu.roundTo 100 (Js.Fin (Menu.sumOf estimatedCost alerts)) |} |}.

End Inventory.

(** The place of an urgency in the order critical, high, medium. *)
Definition urgencyRank (u : string) : Z :=
  if decide (u = "critical") then 0
  else if decide (u = "high") then 1
  else 2.

(** An alert carries one of the three urgencies. *)
Definition graded (a : Inventory.alert) : Prop :=
  Inventory.urgency a = "critical" ∨ Inventory.urgency a = "high"
  ∨ Inventory.urgency a = "medium".

(** ** Waste log: GET /api/inventory/waste/:restaurantId
    (server/src/routes/inventory.ts) *)

Module Waste.

(** A row of [wasteLog] as far as the summary reads it. *)
Record row : Type := {
  reason : option string;
  cost : option Q
}.

(** [w.reason || 'other'] *)
Definition reasonOf (w : row) : string :=
  match reason w with
  | Some r => if decide (r = EmptyString) then "other" else r
  | None => "other"
  end.

(** [Number(w.cost || 0)] *)
Definition costOf (w : row) : Q := default 0%Q (cost w).

(** A value of the [byReason] map. *)
Record tally : Type := { count : Z; t_cost : Q }.

(** The body of [waste.forEach]. *)
Definition addRow (m : list (string * tally)) (w : row)
  : list (string * tally) :=
  JsMap.accumulate reasonOf
    (λ _, {| count := 0; t_cost := 0 |})
    (λ existing w, {| count := count existing + 1;
                      t_cost := t_cost existing + costOf w |})
    m w.

Definition byReason (waste : list row) : list (string * tally) :=
  foldl addRow [] waste.

(** [waste.reduce((s, w) => s + Number(w.cost || 0), 0)] *)
Definition totalCost (waste : list row) : Q := Menu.sumOf costOf waste.

(** One element of [summary.byReason]. *)
Record reasonSummary : Type := {
  s_reason : string;
  s_count : Z;
  s_cost : Js.num;
  percentage : Js.num
}.

(** The callback of [Array.from(byReason.entries()).map]. *)
Definition summarise (totalCost : Q) (e : string * tally) : reasonSummary :=
  {| s_reason := e.1;
     s_count := count e.2;
     s_cost := Menu.roundTo 100 (Js.Fin (t_cost e.2));
     percentage :=
       if Js.Qlt_bool 0 totalCost
       then Js.div
              (Js.round (Js.mul (Js.div (Js.Fin (t_cost e.2)) (Js.Fin totalCost))
                                (Js.Fin 1000)))
              (Js.Fin 10)
       else Js.Fin 0 |}.

Record summary : Type := {
  s_totalCost : Js.num;
  s_byReason : list reasonSummary
}.

(** The summary of the answer, from the rows the query returns. *)
Definition summaryOf (waste : list row) : summary :=
  {| s_totalCost := Menu.roundTo 100 (Js.Fin (totalCost waste));
     s_byReason := summarise (totalCost waste) <$> byReason waste |}.

End Waste.

(** The rows logged under a reason, and their cost. *)
Definition wasteFor (r : string) (waste : list Waste.row) : list Waste.row :=
  filter (λ w, Waste.reasonOf w = r) waste.

Definition wasteCost (waste : list Waste.row) : Q := total Waste.costOf waste.

(** A percentage of the summary lies between 0 and 100. *)
Definition isPercentage (x : Js.num) : Prop :=
  match x with
  | Js.Fin p => (0 <= p <= 100)%Q
  | _ => False
  end.

(** Three rows, two of them without a reason. *)
Definition waste_rows : list Waste.row :=
  [ {| Waste.reason := Some "spoilage"; Waste.cost := Some 12%Q |};
    {| Waste.reason := None; Waste.cost := Some 3%Q |};
    {| Waste.reason := Some "other"; Waste.cost := None |} ].

(** ** Weekly schedule: GET /api/staff/schedule/:restaurantId
    (server/src/routes/staff.ts)

    Times are in milliseconds since the epoch; a date is the index of
    its UTC day, the first ten characters of [toISOString()].  The cost
    estimate of the summary is left out. *)

Module Schedule.

(** A row of [shift] as the handler reads it. *)
Record shift : Type := {
  id : string;
  staffId : string;
  role : string;
  scheduledStart : Z;
  scheduledEnd : Z
}.

Definition msPerDay : Z := 86400000.

(** [t.toISOString().slice(0, 10)] *)
Definition dateOf (t : Z) : Z := (t `div` msPerDay)%Z.

(** [(s.scheduledEnd.getTime() - s.scheduledStart.getTime())
     / (1000 * 60 * 60)] *)
Definition hoursOf (s : shift) : Q :=
  (inject_Z (scheduledEnd s - scheduledStart s) / 3600000)%Q.

(** One element of a day's [shifts]. *)
Record entry : Type := {
  e_id : string;
  e_staffId : string;
  e_role : string;
  e_start : Z;
  e_end : Z;
  e_hours : Q
}.

Definition entryOf (s : shift) : entry :=
  {| e_id := id s;
     e_staffId := staffId s;
     e_role := role s;
     e_start := scheduledStart s;
     e_end := scheduledEnd s;
     e_hours := hoursOf s |}.

(** The loop [for (let i = 0; i < 7; i++)] that enters the days of the
    week with no shift. *)
Definition emptyWeek (startDate : Z) : list (Z * list entry) :=
  foldl (λ byDay i,
           JsMap.set byDay (dateOf (startDate + Z.of_nat i * msPerDay)) [])
        [] (seq 0 7).

(** The body of [shifts.forEach]. *)
Definition addShift (byDay : list (Z * list entry)) (s : shift)
  : list (Z * list entry) :=
  JsMap.accumulate (λ s, dateOf (scheduledStart s))
    (λ _, [])
    (λ dayShifts s, dayShifts ++ [entryOf s])
    byDay s.

Definition byDay (startDate : Z) (shifts : list shift)
  : list (Z * list entry) :=
  foldl addShift (emptyWeek startDate) shifts.

(** One element of [schedule]. *)
Record day : Type := {
  date : Z;
  shifts : list entry;
  d_totalHours : Q
}.

Definition dayOf (e : Z * list entry) : day :=
  {| date := e.1;
     shifts := e.2;
     d_totalHours := Menu.sumOf e_hours e.2 |}.

Record summary : Type := {
  totalShifts : nat;
  totalHours : Js.num
}.

Record data : Type := {
  weekStart : Z;
  weekEnd : Z;
  schedule : list day;
  d_summary : summary
}.

(** The handler, from the shifts the query returns: those of the
    restaurant that start in the seven days from [startDate]. *)
Definition get (startDate : Z) (rows : list shift) : data :=
  let endDate := (startDate + 7 * msPerDay)%Z in
  {| weekStart := dateOf startDate;
     weekEnd := dateOf (endDate - 1);
     schedule := dayOf <$> byDay startDate rows;
     d_summary :=
       {| totalShifts := length rows;
          totalHours := Menu.roundTo 10 (Js.Fin (Menu.sumOf hoursOf rows)) |} |}.

End Schedule.

(** The where clause of the query of the schedule. *)
Definition inWeek (startDate : Z) (s : Schedule.shift) : Prop :=
  (startDate ≤ Schedule.scheduledStart s
   < startDate + 7 * Schedule.msPerDay)%Z.

(** The shifts that start on a date. *)
Definition startingOn (d : Z) (rows : list Schedule.shift)
  : list Schedule.shift :=
  filter (λ s, Schedule.dateOf (Schedule.scheduledStart s) = d) rows.

(** The seven dates from a date on. *)
Definition weekFrom (d : Z) : list Z :=
  (λ i, (d + Z.of_nat i)%Z) <$> seq 0 7.

(** A week that starts at 18:00 UTC, with a shift on the morning of the
    eighth date. *)
Definition evening_week : Z := 64800000.

Definition evening_shifts : list Schedule.shift :=
  [ {| Schedule.id := "s1"; Schedule.staffId := "ann";
       Schedule.role := "server";
       Schedule.scheduledStart := 86400000 + 36000000;
       Schedule.scheduledEnd := 86400000 + 64800000 |};
    {| Schedule.id := "s2"; Schedule.staffId := "bo";
       Schedule.role := "server";
       Schedule.scheduledStart := 7 * 86400000 + 36000000;
       Schedule.scheduledEnd := 7 * 86400000 + 64800000 |} ].

(** ** Customer profile: GET /api/customers/:id
    (server/src/routes/customers.ts) *)

Module Profile.

(** An order item with the name of the included menu item
    ([oi.menuItem?.name]). *)
Record orderItem : Type := {
  itemName : option string;
  quantity : Z
}.

(** One of the twenty most recent orders of the customer; [closedAt] is
    in milliseconds. *)
Record order : Type := {
  o_id : string;
  closedAt : option Z;
  o_total : option Q;
  orderItems : list orderItem
}.

(** [oi.menuItem?.name || 'Unknown'] *)
Definition nameOf (oi : orderItem) : string :=
  match itemName oi with
  | Some n => if decide (n = EmptyString) then "Unknown" else n
  | None => "Unknown"
  end.

(** A value of the [itemCounts] map. *)
Record favorite : Type := { name : string; count : Z }.

(** The body of [o.orderItems.forEach]. *)
Definition addItem (m : list (string * favorite)) (oi : orderItem)
  : list (string * favorite) :=
  JsMap.accumulate nameOf
    (λ oi, {| name := nameOf oi; count := 0 |})
    (λ existing oi, {| name := nameOf oi;
                       count := count existing + quantity oi |})
    m oi.

Definition itemCounts (orders : list order) : list (string * favorite) :=
  foldl (λ m o, foldl addItem m (orderItems o)) [] orders.

(** [(a, b) => b.count - a.count] *)
Definition byCountDesc (a b : favorite) : Js.num :=
  Js.Fin (inject_Z (count b) - inject_Z (count a)).

(** [Array.from(itemCounts.values()).sort(...).slice(0, 5)] *)
Definition favoriteItems (orders : list order) : list favorite :=
  take 5 (JsArray.sort byCountDesc (itemCounts orders).*2).

(** [orders.filter((o) => o.closedAt).map((o) => o.closedAt!.getTime())] *)
Definition visitDates (orders : list order) : list Z :=
  omap closedAt orders.

(** The loop that fills [gaps]. *)
Fixpoint gaps (visitDates : list Z) : list Q :=
  match visitDates with
  | previous :: (current :: _) as rest =>
      (inject_Z (previous - current) / inject_Z Customers.msPerDay)%Q
      :: gaps rest
  | _ => []
  end.

Definition avgDaysBetweenVisits (orders : list order) : option Z :=
  let visitDates := visitDates orders in
  if decide (1 < length visitDates)%nat
  then Some (Js.round_fin
               (Menu.sumOf (λ g, g) (gaps visitDates)
                / inject_Z (Z.of_nat (length (gaps visitDates)))))
  else None.

Record insights : Type := {
  i_favoriteItems : list favorite;
  i_avgDaysBetweenVisits : option Z;
  i_daysSinceLastVisit : option Z
}.

Record recentOrder : Type := {
  r_id : string;
  r_date : option Z;
  r_total : Q;
  r_items : nat
}.

Record data : Type := {
  customer : Customers.customer;
  churnRiskPercent : Z;
  d_insights : insights;
  recentOrders : list recentOrder
}.

(** The handler: [None] is the 404 answer for a customer that does not
    exist; [now] is [Date.now()]. *)
Definition get (found : option Customers.customer) (orders : list order)
    (now : Z) : option data :=
  match found with
  | None => None
  | Some c =>
      Some {| customer := c;
              churnRiskPercent := Js.round_fin (Customers.riskOf c * 100);
              d_insights :=
                {| i_favoriteItems := favoriteItems orders;
                   i_avgDaysBetweenVisits := avgDaysBetweenVisits orders;
                   i_daysSinceLastVisit :=
                     (λ t, Qfloor (inject_Z (now - t)
                                   / inject_Z Customers.msPerDay))
                       <$> Customers.lastVisit c |};
              recentOrders :=
                (λ o, {| r_id := o_id o;
                         r_date := closedAt o;
                         r_total := default 0%Q (o_total o);
                         r_items := length (orderItems o) |})
                  <$> take 10 orders |}
  end.

End Profile.

(** The order items of the orders of a profile, and the quantity of
    those of one name. *)
Definition orderedItems (orders : list Profile.order) : list Profile.orderItem :=
  orders ≫= Profile.orderItems.

Definition orderedQuantity (orders : list Profile.order) (n : string) : Q :=
  total (λ oi, inject_Z (Profile.quantity oi))
        (filter (λ oi, Profile.nameOf oi = n) (orderedItems orders)).

(** The days from the oldest to the most recent dated order, divided by
    the number of gaps between the dated orders. *)
Definition spanPerGap (visitDates : list Z) : option Q :=
  match head visitDates, last visitDates with
  | Some newest, Some oldest =>
      if decide (2 ≤ length visitDates)%nat
      then Some (inject_Z (newest - oldest) / inject_Z Customers.msPerDay
                 / inject_Z (Z.of_nat (length visitDates) - 1))%Q
      else None
  | _, _ => None
  end.

(** ** Customer segments: GET /api/customers/segments/:restaurantId
    (server/src/routes/customers.ts) *)

Module Segments.

(** One group of [prisma.customer.groupBy({ by: ['rfmSegment'], ... })]:
    the number of customers of the segment and the aggregates, null
    when every value of the group is null. *)
Record group : Type := {
  rfmSegment : option string;
  g_count : nat;
  sumTotalSpent : option Q;
  sumTotalVisits : option Z;
  avgAvgCheck : option Q;
  avgChurnRisk : option Q
}.

Record info : Type := {
  description : string;
  action : string;
  color : string
}.

(** [segmentInfo[key]] *)
Definition segmentInfo (key : string) : option info :=
  if decide (key = "Champions") then
    Some {| description := "Best customers - recent, frequent, high spenders";
            action := "Reward and retain with VIP treatment";
            color := "#10B981" |}
  else if decide (key = "Loyal") then
    Some {| description := "Regular customers with good spending";
            action := "Upsell premium items, loyalty program";
            color := "#3B82F6" |}
  else if decide (key = "Potential Loyalists") then
    Some {| description := "Recent customers who could become loyal";
            action := "Encourage repeat visits with incentives";
            color := "#8B5CF6" |}
  else if decide (key = "At Risk") then
    Some {| description := "Good customers who haven't visited recently";
            action := "Send win-back offers immediately";
            color := "#F59E0B" |}
  else if decide (key = "Lost") then
    Some {| description := "Former customers who stopped visiting";
            action := "Strong win-back campaign or survey";
            color := "#EF4444" |}
  else None.

(** [s.rfmSegment || d] *)
Definition segmentOr (d : string) (g : group) : string :=
  match rfmSegment g with
  | Some s => if decide (s = EmptyString) then d else s
  | None => d
  end.

(** One element of [enrichedSegments]; [e_info] holds the three fields
    the spread of [segmentInfo[...]] adds, if any. *)
Record enriched : Type := {
  segment : string;
  count : nat;
  totalSpent : Js.num;
  totalVisits : Z;
  avgCheck : Js.num;
  e_avgChurnRisk : Js.num;
  e_info : option info
}.

(** The callback of [segments.map]. *)
Definition enrich (g : group) : enriched :=
  {| segment := segmentOr "Unknown" g;
     count := g_count g;
     totalSpent := Menu.roundTo 100 (Js.Fin (default 0%Q (sumTotalSpent g)));
     totalVisits := default 0%Z (sumTotalVisits g);
     avgCheck := Menu.roundTo 100 (Js.Fin (default 0%Q (avgAvgCheck g)));
     e_avgChurnRisk := Menu.roundTo 100 (Js.Fin (default 0%Q (avgChurnRisk g)));
     e_info := segmentInfo (segmentOr EmptyString g) |}.

Record share : Type := {
  s_segment : string;
  percentage : Js.num
}.

(** The callback of [enrichedSegments.map] that fills [distribution]. *)
Definition shareOf (totalCustomers : nat) (s : enriched) : share :=
  {| s_segment := segment s;
     percentage :=
       if decide (0 < totalCustomers)%nat
       then Js.div
              (Js.round
                 (Js.mul (Js.div (Js.Fin (inject_Z (Z.of_nat (count s))))
                                 (Js.Fin (inject_Z (Z.of_nat totalCustomers))))
                         (Js.Fin 1000)))
              (Js.Fin 10)
       else Js.Fin 0 |}.

Record data : Type := {
  segments : list enriched;
  totalCustomers : nat;
  distribution : list share
}.

(** The handler, from the groups the query returns. *)
Definition get (groups : list group) : data :=
  let enrichedSegments := enrich <$> groups in
  let totalCustomers := foldl (λ s seg, (s + g_count seg)%nat) 0%nat groups in
  {| segments := enrichedSegments;
     totalCustomers := totalCustomers;
     distribution := shareOf totalCustomers <$> enrichedSegments |}.

End Segments.

(** The segments that have a description. *)
Definition describedSegments : list string :=
  ["Champions"; "Loyal"; "Potential Loyalists"; "At Risk"; "Lost"].

(** ** Inventory count: POST /api/inventory/count
    (server/src/routes/inventory.ts)

    The [inventoryItem] table is a map from the id to the row;
    [prisma.inventoryItem.update] fails when no row has the id, and the
    handler then leaves the loop for the error answer. *)

Module InventoryCount.

(** An element of the [items] array of the body. *)
Record counted : Type := {
  c_id : string;
  c_quantity : Q
}.

(** [data: { currentQuantity: item.quantity }] *)
Definition setQuantity (q : Q) (i : Inventory.item) : Inventory.item :=
  {| Inventory.id := Inventory.id i;
     Inventory.name := Inventory.name i;
     Inventory.category := Inventory.category i;
     Inventory.currentQuantity := q;
     Inventory.reorderPoint := Inventory.reorderPoint i;
     Inventory.parLevel := Inventory.parLevel i;
     Inventory.unitCost := Inventory.unitCost i |}.

(** The loop [for (const item of items)], on the table and the
    [updates] array; [None] when an update fails. *)
Fixpoint submit (items : list counted) (db : gmap string Inventory.item)
    (updates : list Inventory.item)
  : option (list Inventory.item) * gmap string Inventory.item :=
  match items with
  | [] => (Some updates, db)
  | item :: rest =>
      match db !! c_id item with
      | None => (None, db)
      | Some row =>
          let updated := setQuantity (c_quantity item) row in
          submit rest (<[ c_id item := updated ]> db) (updates ++ [updated])
      end
  end.

Record data : Type := {
  updated : nat;
  d_items : list Inventory.item
}.

(** The handler: the answer, [None] for the error answer, and the table
    it leaves. *)
Definition count (items : list counted) (db : gmap string Inventory.item)
  : option data * gmap string Inventory.item :=
  let r := submit items db [] in
  ((λ updates, {| updated := length updates; d_items := updates |}) <$> r.1,
   r.2).

End InventoryCount.

(** The counted items up to the first one whose id has no row. *)
Fixpoint knownPrefix (db : gmap string Inventory.item)
    (items : list InventoryCount.counted) : list InventoryCount.counted :=
  match items with
  | [] => []
  | item :: rest =>
      if decide (is_Some (db !! InventoryCount.c_id item))
      then item :: knownPrefix db rest
      else []
  end.

(** The last quantity counted for an id. *)
Definition lastCount (i : string) (items : list InventoryCount.counted)
  : option Q :=
  InventoryCount.c_quantity
    <$> last (filter (λ item, InventoryCount.c_id item = i) items).

(** ** Staff performance: GET /api/staff/:id/performance
    (server/src/routes/staff.ts)

    Times are in milliseconds since the epoch. *)

Module StaffPerformance.

(** A shift of the staff member that was scheduled in the period. *)
Record shift : Type := {
  scheduledStart : Z;
  scheduledEnd : Z;
  actualStart : option Z;
  actualEnd : option Z
}.

(** A closed order the staff member served in the period. *)
Record order : Type := {
  o_total : option Q;
  tip : option Q;
  guests : option Z
}.

(** The hours of one shift: the actual interval when both of its ends
    are recorded, the scheduled one otherwise. *)
Definition hoursOf (s : shift) : Q :=
  match actualEnd s, actualStart s with
  | Some e, Some b => (inject_Z (e - b) / 3600000)%Q
  | _, _ => (inject_Z (scheduledEnd s - scheduledStart s) / 3600000)%Q
  end.

Definition totalHoursOf (shifts : list shift) : Q := Menu.sumOf hoursOf shifts.

(** [o.guests || 0] *)
Definition guestsOr0 (o : order) : Z := default 0%Z (guests o).

Record salesMetrics : Type := {
  totalOrders : nat;
  totalSales : Js.num;
  totalTips : Js.num;
  avgCheck : Js.num;
  avgTipPercent : Js.num;
  salesPerHour : Js.num;
  guestsServed : Z
}.

(** The block [if (staff.role === 'server')]. *)
Definition salesOf (totalHours : Q) (orders : list order) : salesMetrics :=
  let totalSales := Menu.sumOf (λ o, default 0%Q (o_total o)) orders in
  let totalTips := Menu.sumOf (λ o, default 0%Q (tip o)) orders in
  let totalGuests := foldl (λ s o, (s + guestsOr0 o)%Z) 0%Z orders in
  {| totalOrders := length orders;
     totalSales := Menu.roundTo 100 (Js.Fin totalSales);
     totalTips := Menu.roundTo 100 (Js.Fin totalTips);
     avgCheck :=
       if decide (0 < length orders)%nat
       then Menu.roundTo 100
              (Js.div (Js.Fin totalSales) (Js.Fin (Menu.lengthOf orders)))
       else Js.Fin 0;
     avgTipPercent :=
       if Js.Qlt_bool 0 totalSales
       then Js.div
              (Js.round (Js.mul (Js.div (Js.Fin totalTips) (Js.Fin totalSales))
                                (Js.Fin 1000)))
              (Js.Fin 10)
       else Js.Fin 0;
     salesPerHour :=
       if Js.Qlt_bool 0 totalHours
       then Menu.roundTo 100 (Js.div (Js.Fin totalSales) (Js.Fin totalHours))
       else Js.Fin 0;
     guestsServed := totalGuests |}.

Record labor : Type := {
  shiftsWorked : nat;
  totalHours : Js.num;
  avgHoursPerShift : Js.num
}.

Record data : Type := {
  d_staff : Staff.staff;
  d_labor : labor;
  sales : option salesMetrics
}.

(** The handler: [None] is the 404 answer for a staff member that does
    not exist; [orders] are the rows the query for a server returns. *)
Definition get (found : option Staff.staff) (shifts : list shift)
    (orders : list order) : option data :=
  match found with
  | None => None
  | Some staff =>
      let totalHours := totalHoursOf shifts in
      Some {| d_staff := staff;
              d_labor :=
                {| shiftsWorked := length shifts;
                   totalHours := Menu.roundTo 10 (Js.Fin totalHours);
                   avgHoursPerShift :=
                     if decide (0 < length shifts)%nat
                     then Menu.roundTo 10
                            (Js.div (Js.Fin totalHours)
                                    (Js.Fin (Menu.lengthOf shifts)))
                     else Js.Fin 0 |};
              sales :=
                if decide (Staff.role staff = "server")
                then Some (salesOf totalHours orders)
                else None |}
  end.

End StaffPerformance.

(** Every number of the labor and sales metrics is finite. *)
Definition laborFinite (l : StaffPerformance.labor) : Prop :=
  isFin (StaffPerformance.totalHours l) ∧
  isFin (StaffPerformance.avgHoursPerShift l).

Definition salesFinite (m : StaffPerformance.salesMetrics) : Prop :=
  isFin (StaffPerformance.totalSales m) ∧
  isFin (StaffPerformance.totalTips m) ∧
  isFin (StaffPerformance.avgCheck m) ∧
  isFin (StaffPerformance.avgTipPercent m) ∧
  isFin (StaffPerformance.salesPerHour m).

(** * Properties *)

(** ** Facts about the number model *)

Lemma Qlt_bool_iff (a b : Q) : Js.Qlt_bool a b = true ↔ (a < b)%Q.
Proof.
  unfold Js.Qlt_bool. rewrite negb_true_iff.
  split.
  - intros H. apply Qnot_le_lt. intros Hle.
    apply Qle_bool_iff in Hle. congruence.
  - intros H. destruct (Qle_bool b a) eqn:E; [|done].
    apply Qle_bool_iff in E. exfalso. apply (Qlt_not_le _ _ H E).
Qed.

Lemma ge_fin_iff (a b : Q) : Js.ge (Js.Fin a) (Js.Fin b) = true ↔ (b <= a)%Q.
Proof. simpl. apply Qle_bool_iff. Qed.

(** ** Menu engineering *)

Section MenuClassification.
Import Menu.

Lemma classify_label (pop prof : Js.num) : classify pop prof ∈ labels.
Proof.
  unfold classify, labels.
  repeat match goal with |- context [if ?b then _ else _] => destruct b end;
    set_solver.
Qed.

Lemma classify_star (pop prof : Js.num) :
  classify pop prof = "Star" ↔
  Js.ge pop (Js.Fin 1) = true ∧ Js.ge prof (Js.Fin 1) = true.
Proof.
  unfold classify.
  destruct (Js.ge pop (Js.Fin 1)) eqn:Ep, (Js.ge prof (Js.Fin 1)) eqn:Eq;
    simpl; repeat match goal with
           | |- context [if ?b then _ else _] => destruct b
           end; simpl; split; try done; intros []; done.
Qed.

(** Each row falls in exactly one of the four groups of the summary. *)
Lemma countOf_labels (rows : list analysisRow) :
  Forall (λ a, classification a ∈ labels) rows →
  (countOf "Star" rows + countOf "Plowhorse" rows
   + countOf "Puzzle" rows + countOf "Dog" rows = length rows)%nat.
Proof.
  unfold countOf.
  induction 1 as [|a rows Ha _ IH]; [done|].
  rewrite !filter_cons. unfold labels in Ha.
  repeat (apply elem_of_cons in Ha as [Ha|Ha]);
    [| | | |by apply elem_of_nil in Ha];
    rewrite Ha; repeat case_decide; try done; simpl; lia.
Qed.

Lemma analysis_labels (items : list menuItem) (orderItems : list orderItem) :
  Forall (λ a, classification a ∈ labels) (analysis items orderItems).
Proof.
  unfold analysis. apply Forall_fmap, Forall_forall.
  intros item _. apply classify_label.
Qed.

End MenuClassification.

(** C3.  Every analysed item carries one of the four labels Star,
    Plowhorse, Puzzle, Dog (one string, so exactly one of them), there is
    one analysis row per active item, and the four counts of the summary
    add up to the number of items. *)
Theorem classification_counts_total
    (items : list Menu.menuItem) (orderItems : list Menu.orderItem) :
  let rows := Menu.analysis items orderItems in
  let s := Menu.summary rows in
  length rows = length items ∧
  Forall (λ a, Menu.classification a ∈ labels ∧
               length (filter (λ l, Menu.classification a = l) labels) = 1%nat)
         rows ∧
  (Menu.starCount s + Menu.plowhorseCount s + Menu.puzzleCount s
   + Menu.dogCount s = length items)%nat.
Proof.
  intros rows s.
  assert (Hlen : length rows = length items)
    by (unfold rows, Menu.analysis; apply length_fmap).
  pose proof (analysis_labels items orderItems) as Hlab. fold rows in Hlab.
  split_and!; [done| |].
  - eapply Forall_impl; [exact Hlab|].
    intros a Ha. split; [done|]. unfold labels in *.
    repeat (apply elem_of_cons in Ha as [Ha|Ha]);
      [| | | |by apply elem_of_nil in Ha]; rewrite Ha; done.
  - rewrite <- Hlen. unfold s, Menu.summary. simpl.
    by apply countOf_labels.
Qed.

(** C4, as stated, fails: item [a] has popularity and profitability
    249/250 = 0.996; both are reported as 1 after rounding to two
    decimals, and the item is a Dog, because the handler classifies the
    unrounded values. *)
Lemma reported_one_not_star :
  Exists (λ a, reported_one a = true ∧ Menu.classification a = "Dog")
         (Menu.analysis rounding_items rounding_sales).
Proof. apply Exists_cons_hd. split; vm_compute; reflexivity. Qed.

(** C4, amended.  An item whose popularity and profitability, as the
    classifier compares them (before the response rounds them), are
    both at least 1 is a Star; the bound is inclusive. *)
Theorem star_boundary_inclusive
    (orderItems : list Menu.orderItem) (item : Menu.menuItem) (p q : Q) :
  Menu.popularity orderItems item = Js.Fin p →
  Menu.profitability orderItems item = Js.Fin q →
  (1 <= p)%Q → (1 <= q)%Q →
  Menu.classification (Menu.analyse orderItems item) = "Star".
Proof.
  intros Hp Hq Hp1 Hq1. unfold Menu.analyse. simpl.
  apply classify_star. rewrite Hp, Hq.
  split; apply ge_fin_iff; done.
Qed.

(** A single sold item sits exactly on the boundary: both indices are 1. *)
Lemma star_boundary_inclusive_witness :
  Menu.classification
    (Menu.analyse
       [ {| Menu.menuItemId := "a"; Menu.oi_quantity := 5;
            Menu.unitPrice := Some 3%Q; Menu.menuItem_cost := Some 1%Q |} ]
       {| Menu.id := "a"; Menu.name := "Soup"; Menu.category := "starter";
          Menu.price := 3; Menu.item_cost := Some 1%Q |}) = "Star".
Proof.
  eapply star_boundary_inclusive.
  - vm_compute. reflexivity.
  - vm_compute. reflexivity.
  - vm_compute. discriminate.
  - vm_compute. discriminate.
Defined.

(** ** Cover forecast *)

Section Rounding.

Lemma round_fin_mono (a b : Q) : (a <= b)%Q → (Js.round_fin a ≤ Js.round_fin b)%Z.
Proof. intros H. unfold Js.round_fin. apply Qfloor_resp_le. lra. Qed.

Lemma round_fin_Z (z : Z) : Js.round_fin (inject_Z z) = z.
Proof.
  unfold Js.round_fin.
  pose proof (Qfloor_le (inject_Z z + (1 # 2))) as Hlo.
  pose proof (Qlt_floor (inject_Z z + (1 # 2))) as Hhi.
  set (f := Qfloor (inject_Z z + (1 # 2))) in *. clearbody f.
  rewrite inject_Z_plus in Hhi. change (inject_Z 1) with 1%Q in Hhi.
  assert (f < z + 1)%Z.
  { rewrite Zlt_Qlt, inject_Z_plus. change (inject_Z 1) with 1%Q. lra. }
  assert (z < f + 1)%Z.
  { rewrite Zlt_Qlt, inject_Z_plus. change (inject_Z 1) with 1%Q. lra. }
  lia.
Qed.

Lemma round_fin_eq (a : Q) (z : Z) : (a == inject_Z z)%Q → Js.round_fin a = z.
Proof.
  intros H. rewrite <- (round_fin_Z z). unfold Js.round_fin.
  apply Qfloor_comp. lra.
Qed.

Lemma round_fin_nonneg (a : Q) : (- (1 # 2) <= a)%Q → (0 ≤ Js.round_fin a)%Z.
Proof.
  intros H. change 0%Z with (Qfloor 0). unfold Js.round_fin.
  apply Qfloor_resp_le. lra.
Qed.

(** [Math.round(a)] is the integer within one half of [a], ties up. *)
Lemma round_fin_bounds (a : Q) :
  (inject_Z (Js.round_fin a) - (1 # 2) <= a)%Q ∧
  (a < inject_Z (Js.round_fin a) + (1 # 2))%Q.
Proof.
  unfold Js.round_fin.
  pose proof (Qfloor_le (a + (1 # 2))) as Hlo.
  pose proof (Qlt_floor (a + (1 # 2))) as Hhi.
  rewrite inject_Z_plus in Hhi. change (inject_Z 1) with 1%Q in Hhi.
  split; lra.
Qed.

End Rounding.

Section ForecastBand.
Import Forecast.
Context (tz : zone).

(** The jitter stays within a quarter of the standard deviation. *)
Lemma variation_bounds (s : stats) (r : Q) :
  (0 <= std s)%Q → (0 <= r)%Q → (r < 1)%Q →
  (- ((1 # 4) * std s) <= variation s r)%Q ∧
  (variation s r <= (1 # 4) * std s)%Q.
Proof.
  intros Hs Hr0 Hr1. unfold variation.
  assert (0 <= r * std s)%Q by (apply Qmult_le_0_compat; done).
  assert (0 <= (1 - r) * std s)%Q by (apply Qmult_le_0_compat; lra).
  split; lra.
Qed.

Lemma band_day (s : stats) (r : Q) :
  (0 <= mean s)%Q → (0 <= std s)%Q → (0 <= r)%Q → (r < 1)%Q →
  let p := predicted s r in
  (lowOf s p ≤ Z.max 0 p)%Z ∧ (Z.max 0 p ≤ highOf s p)%Z ∧ (0 ≤ lowOf s p)%Z.
Proof.
  intros Hm Hs Hr0 Hr1 p.
  destruct (variation_bounds s r Hs Hr0 Hr1) as [Hv _].
  destruct (round_fin_bounds (mean s + variation s r)) as [_ Hp].
  fold (predicted s r) in Hp. fold p in Hp.
  assert (Hlo : (Js.round_fin (inject_Z p - std s * (3 # 2)) ≤ p)%Z).
  { rewrite <- (round_fin_Z p) at 2. apply round_fin_mono. lra. }
  assert (Hhi : (p ≤ Js.round_fin (inject_Z p + std s * (3 # 2)))%Z).
  { rewrite <- (round_fin_Z p) at 1. apply round_fin_mono. lra. }
  assert (Hhi0 : (0 ≤ Js.round_fin (inject_Z p + std s * (3 # 2)))%Z).
  { apply round_fin_nonneg. lra. }
  unfold lowOf, highOf. lia.
Qed.

(** The response array lists the days [today + 1 .. today + days] in
    order, each computed from its own draw. *)
Lemma step_predictions rid means today rand (l : list nat) (st : state) :
  predictions (foldl (step tz rid means today rand) st l) =
  predictions st
    ++ ((λ i, predictionOf tz means (today + Z.of_nat i) (rand i)) <$> l).
Proof.
  revert st. induction l as [|i l IH]; intros st; simpl.
  - by rewrite app_nil_r.
  - rewrite IH. simpl. by rewrite <- app_assoc.
Qed.

Lemma generate_predictions rid means today days rand db :
  predictions (generate tz rid means today days rand db) =
  (λ i, predictionOf tz means (today + Z.of_nat i) (rand i)) <$> seq 1 days.
Proof. unfold generate. by rewrite step_predictions. Qed.

(** After the loop the table holds, for every generated date, the row
    the upsert wrote for it. *)
Lemma step_table rid means today rand (l : list nat) (st : state) (i : nat) :
  i ∈ l →
  table (foldl (step tz rid means today rand) st l) !! (rid, (today + Z.of_nat i)%Z)
  = Some (rowOf tz means (today + Z.of_nat i) (rand i)).
Proof.
  revert st. induction l as [|j l IH] using rev_ind; intros st Hi.
  - by apply elem_of_nil in Hi.
  - rewrite foldl_app. simpl.
    destruct (decide (i = j)) as [->|Hne].
    + apply lookup_insert_eq.
    + rewrite lookup_insert_ne.
      * apply IH. apply elem_of_app in Hi as [Hi|Hi]; [done|].
        apply list_elem_of_singleton in Hi. done.
      * intros [=]. lia.
Qed.

Lemma statsFor_nonneg (means : gmap Z stats) (d : Z) :
  nonnegStats means →
  (0 <= mean (statsFor tz means d))%Q ∧ (0 <= std (statsFor tz means d))%Q.
Proof.
  intros H. unfold statsFor.
  destruct (means !! getDay tz d) as [s|] eqn:E; simpl.
  - exact (H _ _ E).
  - split; discriminate.
Qed.

Lemma band_generate rid (means : gmap Z stats) today days rand db :
  nonnegStats means →
  (∀ i, (0 <= rand i)%Q ∧ (rand i < 1)%Q) →
  Forall bandOrdered (predictions (generate tz rid means today days rand db)).
Proof.
  intros Hmeans Hrand. rewrite generate_predictions.
  apply Forall_fmap, Forall_forall. intros i _.
  destruct (statsFor_nonneg means (today + Z.of_nat i) Hmeans) as [Hm Hs].
  destruct (Hrand i) as [Hr0 Hr1].
  exact (band_day _ _ Hm Hs Hr0 Hr1).
Qed.

(** Histories with non-negative guest counts have non-negative
    statistics, whatever non-negative value [Math.sqrt] returns. *)
Lemma dailyCovers_nonneg (orders : list order) :
  Forall (λ o, (0 ≤ guestsOr1 o)%Z) orders →
  map_Forall (λ _ v, (0 ≤ v)%Z) (dailyCovers orders).
Proof.
  unfold dailyCovers.
  assert (H : ∀ m, map_Forall (λ _ v, (0 ≤ v)%Z) m →
                   Forall (λ o, (0 ≤ guestsOr1 o)%Z) orders →
                   map_Forall (λ _ v : Z, (0 ≤ v)%Z) (foldl addOrder m orders)).
  { induction orders as [|o orders IH]; intros m Hm Ho; simpl; [done|].
    apply Forall_cons in Ho as [Ho Hos].
    apply IH; [|done]. unfold addOrder.
    apply map_Forall_insert_2; [|done].
    destruct (m !! closedAt o) as [v|] eqn:E; simpl; [|lia].
    specialize (Hm _ _ E). simpl in Hm. lia. }
  apply H. apply map_Forall_empty.
Qed.

Lemma dowAverages_nonneg (orders : list order) :
  Forall (λ o, (0 ≤ guestsOr1 o)%Z) orders →
  map_Forall (λ _ vs, Forall (λ v, (0 ≤ v)%Z) vs) (dowAverages tz orders).
Proof.
  intros Ho. apply dailyCovers_nonneg in Ho.
  unfold dowAverages.
  assert (Hl : Forall (λ e : Z * Z, (0 ≤ e.2)%Z)
                 (map_to_list (dailyCovers orders))).
  { apply Forall_forall. intros [d v] Hdv.
    apply elem_of_map_to_list in Hdv. exact (Ho _ _ Hdv). }
  revert Hl. generalize (map_to_list (dailyCovers orders)). intros l.
  assert (H : ∀ m, map_Forall (λ _ vs, Forall (λ v, (0 ≤ v)%Z) vs) m →
                   Forall (λ e : Z * Z, (0 ≤ e.2)%Z) l →
                   map_Forall (λ (_ : Z) vs, Forall (λ v, (0 ≤ v)%Z) vs)
                     (foldl (pushCovers tz) m l)).
  { induction l as [|e l IH]; intros m Hm Hl; simpl; [done|].
    apply Forall_cons in Hl as [He Hl].
    apply IH; [|done]. unfold pushCovers.
    apply map_Forall_insert_2; [|done].
    apply Forall_app. split; [|by repeat constructor].
    destruct (m !! getDayOfDate tz e.1) as [vs|] eqn:E; simpl; [|constructor].
    exact (Hm _ _ E). }
  apply H. apply map_Forall_empty.
Qed.

Lemma sumZ_nonneg (values : list Z) :
  Forall (λ v, (0 ≤ v)%Z) values → (0 <= sumZ values)%Q.
Proof.
  unfold sumZ.
  assert (H : ∀ a, (0 <= a)%Q → Forall (λ v, (0 ≤ v)%Z) values →
                   (0 <= foldl (λ a b, a + inject_Z b) a values)%Q).
  { induction values as [|v values IH]; intros a Ha Hv; simpl; [done|].
    apply Forall_cons in Hv as [Hv Hvs]. apply IH; [|done].
    assert (0 <= inject_Z v)%Q by (change 0%Q with (inject_Z 0); by rewrite <- Zle_Qle).
    lra. }
  apply H. discriminate.
Qed.

Lemma history_stats_nonneg (msqrt : Q → Q) (orders : list order) :
  (∀ x, (0 <= msqrt x)%Q) →
  Forall (λ o, (0 ≤ guestsOr1 o)%Z) orders →
  nonnegStats (dowMeans tz msqrt orders).
Proof.
  intros Hsqrt Ho. unfold nonnegStats, dowMeans.
  apply map_Forall_fmap.
  eapply map_Forall_impl; [apply dowAverages_nonneg, Ho|].
  intros dow vs Hvs. simpl. split; [|apply Hsqrt].
  apply Qmult_le_0_compat; [by apply sumZ_nonneg|].
  apply Qinv_le_0_compat.
  change 0%Q with (inject_Z 0). rewrite <- Zle_Qle. lia.
Qed.

End ForecastBand.

(** C2.  For every history whose day-of-week statistics have
    non-negative means and non-negative standard deviations, and whatever
    [Math.random] returns in [[0, 1)], every day of the forecast response
    has [confidenceLow <= predictedCovers <= confidenceHigh] and
    [confidenceLow >= 0]. *)
Theorem forecast_band_ordered
    (tz : Forecast.zone) (msqrt : Q → Q) (restaurantId : string)
    (historicalOrders : list Forecast.order) (today : Z)
    (days : nat) (rand : nat → Q)
    (db : gmap (string * Z) Forecast.forecastRow) :
  nonnegStats (Forecast.dowMeans tz msqrt historicalOrders) →
  (∀ i, (0 <= rand i)%Q ∧ (rand i < 1)%Q) →
  Forall bandOrdered
         (Forecast.predictions
            (Forecast.covers tz msqrt restaurantId historicalOrders
               today days rand db)).
Proof. intros Hmeans Hrand. by apply band_generate. Qed.

(** Two Fridays with 4 and 2 guests, a week of forecasts, every draw
    equal to 0. *)
Lemma forecast_band_ordered_witness :
  Forall bandOrdered
         (Forecast.predictions
            (Forecast.covers Forecast.utc floorSqrt "r1" friday_history 0 7
               (λ _, 0%Q) ∅)).
Proof.
  apply forecast_band_ordered.
  - apply history_stats_nonneg.
    + intros x. unfold floorSqrt. change 0%Q with (inject_Z 0).
      rewrite <- Zle_Qle. apply Z.sqrt_nonneg.
    + repeat constructor; vm_compute; discriminate.
  - intros i. split; [discriminate|reflexivity].
Defined.

Section ForecastDefaults.
Import Forecast.
Context (tz : zone).

Lemma dowMeans_no_orders (msqrt : Q → Q) : dowMeans tz msqrt [] = ∅.
Proof.
  unfold dowMeans, dowAverages, dailyCovers. simpl.
  rewrite map_to_list_empty. simpl. apply fmap_empty.
Qed.

Lemma default_day (means : gmap Z stats) (d : Z) (r : Q) :
  means !! getDay tz d = None → (0 <= r)%Q → (r < 1)%Q →
  from_defaults (predictionOf tz means d r).
Proof.
  intros Hnone Hr0 Hr1.
  unfold predictionOf, statsFor. rewrite Hnone. simpl.
  exists (variation defaultStats r).
  destruct (variation_bounds defaultStats r) as [Hv0 Hv1]; [done..|].
  simpl in Hv0, Hv1.
  unfold predicted. simpl (mean defaultStats).
  set (pr := Js.round_fin (50 + variation defaultStats r)).
  destruct (round_fin_bounds (50 + variation defaultStats r)) as [Hlo Hhi].
  fold pr in Hlo, Hhi.
  assert (Hr1' : (variation defaultStats r < 5 # 2)%Q).
  { unfold variation. simpl. lra. }
  assert (H48 : (48 ≤ pr)%Z).
  { assert (47 < pr)%Z; [|lia]. rewrite Zlt_Qlt. push_inject. lra. }
  assert (H52 : (pr ≤ 52)%Z).
  { assert (pr < 53)%Z; [|lia]. rewrite Zlt_Qlt. push_inject. lra. }
  assert (Hl : Js.round_fin (inject_Z pr - 10 * (3 # 2)) = (pr - 15)%Z).
  { apply round_fin_eq. push_inject. lra. }
  assert (Hl' : Js.round_fin (inject_Z pr - 15) = (pr - 15)%Z).
  { apply round_fin_eq. push_inject. lra. }
  assert (Hh : Js.round_fin (inject_Z pr + 10 * (3 # 2)) = (pr + 15)%Z).
  { apply round_fin_eq. push_inject. lra. }
  assert (Hh' : Js.round_fin (inject_Z pr + 15) = (pr + 15)%Z).
  { apply round_fin_eq. push_inject. lra. }
  unfold lowOf, highOf. simpl (std defaultStats).
  rewrite Hl, Hl', Hh, Hh'.
  split_and!; simpl; try lia; try lra; done.
Qed.

End ForecastDefaults.

(** C9.  With no closed order in the history every generated day is
    derived from the default statistics mean 50 and deviation 10; more
    generally so is every generated day whose weekday, as the handler
    takes it in the time zone of the server, has no history. *)
Theorem forecast_defaults_without_history
    (tz : Forecast.zone) (msqrt : Q → Q) (restaurantId : string) (today : Z)
    (days : nat)
    (rand : nat → Q) (db : gmap (string * Z) Forecast.forecastRow) :
  (∀ i, (0 <= rand i)%Q ∧ (rand i < 1)%Q) →
  Forall from_defaults
    (Forecast.predictions
       (Forecast.covers tz msqrt restaurantId [] today days rand db)) ∧
  ∀ orders : list Forecast.order,
    Forall (λ p, Forecast.dowMeans tz msqrt orders
                   !! Forecast.getDay tz (Forecast.date p) = None →
                 from_defaults p)
      (Forecast.predictions
         (Forecast.covers tz msqrt restaurantId orders today days rand db)).
Proof.
  intros Hrand. split.
  - unfold Forecast.covers. rewrite dowMeans_no_orders, generate_predictions.
    apply Forall_fmap, Forall_forall. intros i _. simpl.
    destruct (Hrand i). by apply default_day.
  - intros orders. unfold Forecast.covers. rewrite generate_predictions.
    apply Forall_fmap, Forall_forall. intros i _. simpl. intros Hnone.
    destruct (Hrand i). by apply default_day.
Qed.

(** Fourteen days for a restaurant without orders, every draw 0. *)
Lemma forecast_defaults_without_history_witness :
  Forall from_defaults
    (Forecast.predictions
       (Forecast.covers Forecast.utc (λ x, x) "r1" [] 0 14 (λ _, 0%Q) ∅)).
Proof.
  apply (forecast_defaults_without_history Forecast.utc (λ x, x) "r1" 0 14
           (λ _, 0%Q) ∅).
  intros i. split; [discriminate|reflexivity].
Defined.

Section ForecastStored.
Import Forecast.
Context (tz : zone).

Lemma negative_history_stats (msqrt : Q → Q) :
  ∃ s, dowMeans utc msqrt negative_history !! getDay utc 1 = Some s ∧
       (mean s == - 3)%Q.
Proof.
  unfold dowMeans, dowAverages, dailyCovers, negative_history. simpl.
  unfold addOrder at 1. simpl. rewrite lookup_empty. simpl.
  rewrite insert_empty, map_to_list_singleton. simpl.
  unfold pushCovers. simpl. rewrite lookup_empty. simpl.
  rewrite fmap_insert, fmap_empty.
  eexists. split; [apply lookup_insert_eq|]. reflexivity.
Qed.

Lemma predicted_half (s : stats) (z : Z) :
  (mean s == inject_Z z)%Q → predicted s (1 # 2) = z.
Proof.
  intros H. unfold predicted. apply round_fin_eq.
  unfold variation. lra.
Qed.

End ForecastStored.

(** C10.  The response reports [max 0] of the prediction and the upsert
    stores the prediction itself, so the two agree exactly when the
    prediction is not negative.  They can disagree: for a history of one
    order with a negative guest count the stored value is -3 and the
    response says 0 for the same date; and for statistics with a
    non-negative mean and deviation (mean 1, deviation 12) and the draw 0
    the stored value is -2 and the response says 0. *)
Theorem stored_prediction_unfloored :
  (∀ (tz : Forecast.zone) (means : gmap Z Forecast.stats) (d : Z) (r : Q),
     Forecast.predictedCovers (Forecast.predictionOf tz means d r) =
     Z.max 0 (Forecast.row_predictedCovers (Forecast.rowOf tz means d r))) ∧
  (∀ msqrt : Q → Q,
     ∃ (orders : list Forecast.order) (r : Q) (p : Forecast.prediction)
       (row : Forecast.forecastRow),
       (0 <= r)%Q ∧ (r < 1)%Q ∧
       let st := Forecast.covers Forecast.utc msqrt "r1" orders 0 1 (λ _, r) ∅ in
       Forecast.predictions st = [p] ∧
       Forecast.table st !! ("r1", Forecast.date p) = Some row ∧
       Forecast.predictedCovers p = 0%Z ∧
       (Forecast.row_predictedCovers row < 0)%Z) ∧
  (∃ (p : Forecast.prediction) (row : Forecast.forecastRow),
     nonnegStats wide_stats ∧
     let st := Forecast.generate Forecast.utc "r1" wide_stats 0 1 (λ _, 0%Q) ∅ in
     Forecast.predictions st = [p] ∧
     Forecast.table st !! ("r1", Forecast.date p) = Some row ∧
     Forecast.predictedCovers p = 0%Z ∧
     Forecast.row_predictedCovers row = (-2)%Z).
Proof.
  split; [done|]. split.
  - intros msqrt.
    destruct (negative_history_stats msqrt) as (s & Hs & Hmean).
    set (means := Forecast.dowMeans Forecast.utc msqrt negative_history) in *.
    exists negative_history, (1 # 2)%Q,
      (Forecast.predictionOf Forecast.utc means 1 (1 # 2)),
      (Forecast.rowOf Forecast.utc means 1 (1 # 2)).
    split; [discriminate|]. split; [reflexivity|].
    cbv zeta. unfold Forecast.covers. fold means.
    assert (Hp : Forecast.predicted (Forecast.statsFor Forecast.utc means 1)
                   (1 # 2) = (-3)%Z).
    { unfold Forecast.statsFor. rewrite Hs. simpl.
      apply predicted_half. rewrite Hmean. reflexivity. }
    split_and!.
    + rewrite generate_predictions. reflexivity.
    + unfold Forecast.generate.
      apply (step_table Forecast.utc "r1" means 0 (λ _, (1 # 2)%Q) [1%nat] _ 1%nat).
      apply list_elem_of_singleton. reflexivity.
    + unfold Forecast.predictionOf. cbn [Forecast.predictedCovers].
      rewrite Hp. reflexivity.
    + unfold Forecast.rowOf. cbn [Forecast.row_predictedCovers].
      rewrite Hp. reflexivity.
  - exists (Forecast.predictionOf Forecast.utc wide_stats 1 0),
      (Forecast.rowOf Forecast.utc wide_stats 1 0).
    split.
    { apply map_Forall_singleton. split; discriminate. }
    cbv zeta. split_and!.
    + rewrite generate_predictions. reflexivity.
    + unfold Forecast.generate.
      apply (step_table Forecast.utc "r1" wide_stats 0 (λ _, 0%Q) [1%nat] _ 1%nat).
      apply list_elem_of_singleton. reflexivity.
    + vm_compute. reflexivity.
    + vm_compute. reflexivity.
Qed.

(** ** At-risk customers *)

Section AtRiskOrder.
Import Customers.

Lemma insertDesc_perm (c : customer) (l : list customer) :
  insertDesc c l ≡ₚ c :: l.
Proof.
  induction l as [|d l IH]; simpl; [done|].
  destruct (Qle_bool (riskOf d) (riskOf c)); [done|].
  rewrite IH. apply Permutation_swap.
Qed.

Lemma orderByRiskDesc_perm (l : list customer) : orderByRiskDesc l ≡ₚ l.
Proof.
  induction l as [|c l IH]; simpl; [done|].
  by rewrite insertDesc_perm, IH.
Qed.

Lemma insertDesc_elem_of (c x : customer) (l : list customer) :
  x ∈ insertDesc c l ↔ x = c ∨ x ∈ l.
Proof.
  induction l as [|d l IH]; simpl.
  - rewrite list_elem_of_singleton, elem_of_nil. tauto.
  - destruct (Qle_bool (riskOf d) (riskOf c)).
    + by rewrite elem_of_cons.
    + rewrite !elem_of_cons, IH. tauto.
Qed.

Lemma insertDesc_sorted (c : customer) (l : list customer) :
  StronglySorted riskDesc l → StronglySorted riskDesc (insertDesc c l).
Proof.
  induction 1 as [|d l Hl IH Hd]; simpl.
  - repeat constructor.
  - destruct (Qle_bool (riskOf d) (riskOf c)) eqn:E.
    + apply Qle_bool_iff in E.
      constructor; [by constructor|].
      constructor; [done|].
      eapply Forall_impl; [exact Hd|].
      unfold riskDesc. intros x Hx. lra.
    + assert (riskOf c < riskOf d)%Q.
      { apply Qlt_bool_iff. unfold Js.Qlt_bool. by rewrite E. }
      constructor; [done|].
      apply Forall_forall. intros x Hx.
      apply insertDesc_elem_of in Hx as [->|Hx].
      * unfold riskDesc. lra.
      * by eapply Forall_forall in Hd.
Qed.

Lemma orderByRiskDesc_sorted (l : list customer) :
  StronglySorted riskDesc (orderByRiskDesc l).
Proof.
  induction l as [|c l IH]; simpl; [constructor|].
  by apply insertDesc_sorted.
Qed.

(** A row at least as risky as every row of the list goes in front. *)
Lemma insertDesc_front (c : customer) (l : list customer) :
  Forall (riskDesc c) l → insertDesc c l = c :: l.
Proof.
  destruct 1 as [|d l Hd _]; simpl; [done|].
  unfold riskDesc in Hd. apply Qle_bool_iff in Hd. by rewrite Hd.
Qed.

(** The sort is stable, so it commutes with any filter. *)
Lemma filter_insertDesc (P : customer → Prop) `{!∀ c, Decision (P c)}
    (c : customer) (l : list customer) :
  StronglySorted riskDesc l →
  filter P (insertDesc c l) =
  if decide (P c) then insertDesc c (filter P l) else filter P l.
Proof.
  induction 1 as [|d l Hl IH Hd]; simpl.
  - rewrite filter_cons. by case_decide.
  - destruct (Qle_bool (riskOf d) (riskOf c)) eqn:E.
    + rewrite filter_cons. case_decide; [|done].
      symmetry. apply insertDesc_front.
      apply Qle_bool_iff in E.
      apply Forall_forall. intros x Hx.
      apply list_elem_of_filter in Hx as [_ Hx].
      apply elem_of_cons in Hx as [->|Hx]; [done|].
      eapply Forall_forall in Hd; [|done].
      unfold riskDesc in *. lra.
    + rewrite !(filter_cons _ d), IH.
      destruct (decide (P d)), (decide (P c)); simpl; rewrite ?E; done.
Qed.

Lemma filter_orderByRiskDesc (P : customer → Prop) `{!∀ c, Decision (P c)}
    (l : list customer) :
  orderByRiskDesc (filter P l) = filter P (orderByRiskDesc l).
Proof.
  induction l as [|c l IH]; [done|].
  simpl. rewrite filter_insertDesc by apply orderByRiskDesc_sorted.
  rewrite filter_cons. case_decide; simpl; by rewrite IH.
Qed.

(** In a descending list, the rows above a threshold come first. *)
Lemma filter_prefix_sorted (P : customer → Prop) `{!∀ c, Decision (P c)}
    (l : list customer) :
  StronglySorted riskDesc l →
  (∀ a b, a ∈ l → b ∈ l → riskDesc a b → P b → P a) →
  filter P l `prefix_of` l.
Proof.
  induction 1 as [|a l Hl IH Ha]; intros Hup; [done|].
  rewrite filter_cons. case_decide as HPa.
  - apply prefix_cons, IH. intros x y Hx Hy. apply Hup; by right.
  - destruct (filter P l) as [|b k] eqn:E; [apply prefix_nil|].
    assert (Hb : b ∈ filter P l) by (rewrite E; by left).
    apply list_elem_of_filter in Hb as [HPb Hb].
    destruct HPa. apply (Hup a b); [by left|by right| |done].
    by eapply Forall_forall in Ha.
Qed.

Lemma matches_weaken (rid : string) (t1 t2 : Q) (c : customer) :
  (t1 <= t2)%Q → matches rid t2 c = true → matches rid t1 c = true.
Proof.
  unfold matches. intros Ht.
  rewrite !andb_true_iff. intros [Hr Hc]. split; [done|].
  destruct (churnRisk c) as [r|]; [|done].
  apply Qle_bool_iff. apply Qle_bool_iff in Hc. lra.
Qed.

Lemma matches_upward (rid : string) (t1 t2 : Q) (a b : customer) :
  matches rid t1 a = true → riskDesc a b →
  matches rid t2 b = true → matches rid t2 a = true.
Proof.
  unfold matches, riskDesc, riskOf.
  rewrite !andb_true_iff. intros [Hr Ha] Hab [_ Hb]. split; [done|].
  destruct (churnRisk a) as [ra|], (churnRisk b) as [rb|]; try done.
  simpl in Hab. apply Qle_bool_iff. apply Qle_bool_iff in Hb. lra.
Qed.

(** Raising the threshold keeps a prefix of the query result. *)
Lemma findMany_threshold (table : list customer) (rid : string)
    (t1 t2 : Q) (limit : nat) :
  (t1 <= t2)%Q →
  findMany table rid t2 limit `prefix_of` findMany table rid t1 limit.
Proof.
  intros Ht. unfold findMany.
  set (A := orderByRiskDesc (filter (λ c, matches rid t1 c = true) table)).
  assert (HA : orderByRiskDesc (filter (λ c, matches rid t2 c = true) table)
               = filter (λ c, matches rid t2 c = true) A).
  { unfold A. rewrite <- filter_orderByRiskDesc. f_equal.
    symmetry. apply list_filter_filter_l.
    intros c. by apply matches_weaken. }
  rewrite HA.
  assert (Hpre : filter (λ c, matches rid t2 c = true) A `prefix_of` A).
  { apply filter_prefix_sorted; [apply orderByRiskDesc_sorted|].
    intros a b Ha _ Hab Hb.
    assert (matches rid t1 a = true).
    { unfold A in Ha. rewrite filter_orderByRiskDesc in Ha.
      by apply list_elem_of_filter in Ha as [Ha _]. }
    by eapply matches_upward. }
  destruct Hpre as [k Hk]. rewrite Hk at 2. rewrite take_app.
  by eexists.
Qed.

Lemma findMany_sorted (table : list customer) (rid : string)
    (minRisk : Q) (limit : nat) :
  StronglySorted riskDesc (findMany table rid minRisk limit).
Proof.
  unfold findMany.
  set (A := orderByRiskDesc _).
  assert (HA : StronglySorted riskDesc A) by apply orderByRiskDesc_sorted.
  rewrite <- (take_drop limit A) in HA.
  by apply StronglySorted_app_1_l in HA.
Qed.

(** The stable sort of the model is one of the arrangements the
    database may choose. *)
Lemma findMany_mayReturn (table : list customer) (rid : string)
    (minRisk : Q) (limit : nat) :
  mayReturn table rid minRisk limit (findMany table rid minRisk limit).
Proof.
  exists (orderByRiskDesc (matching table rid minRisk)). split_and!.
  - apply orderByRiskDesc_perm.
  - apply orderByRiskDesc_sorted.
  - reflexivity.
Qed.

Lemma mayReturn_sorted (table : list customer) (rid : string)
    (minRisk : Q) (limit : nat) (rows : list customer) :
  mayReturn table rid minRisk limit rows → StronglySorted riskDesc rows.
Proof.
  intros (ordered & _ & Hs & ->).
  rewrite <- (take_drop limit ordered) in Hs.
  by apply StronglySorted_app_1_l in Hs.
Qed.

(** In an arrangement of the rows above the lower threshold, the rows
    above the higher one come first. *)
Lemma matching_prefix (table : list customer) (rid : string)
    (t1 t2 : Q) (ordered : list customer) :
  (t1 <= t2)%Q →
  ordered ≡ₚ matching table rid t1 →
  StronglySorted riskDesc ordered →
  ∃ pre rest, ordered = pre ++ rest ∧ pre ≡ₚ matching table rid t2 ∧
              StronglySorted riskDesc pre.
Proof.
  intros Ht Hperm Hs.
  set (P := λ c, matches rid t2 c = true).
  assert (Hpre : filter P ordered `prefix_of` ordered).
  { apply filter_prefix_sorted; [done|].
    intros a b Ha _ Hab Hb.
    rewrite Hperm in Ha. apply list_elem_of_filter in Ha as [Ha _].
    by eapply matches_upward. }
  destruct Hpre as [rest Hrest].
  exists (filter P ordered), rest. split_and!; [done| |].
  - rewrite Hperm. unfold matching. rewrite list_filter_filter_l; [done|].
    intros c. by apply matches_weaken.
  - rewrite Hrest in Hs. by apply StronglySorted_app_1_l in Hs.
Qed.

(** Raising the threshold keeps a subset of the rows, unless rows of
    equal risk compete for the last places. *)
Lemma mayReturn_threshold (table : list customer) (rid : string)
    (t1 t2 : Q) (limit : nat) (rows1 rows2 : list customer) :
  (t1 <= t2)%Q →
  mayReturn table rid t1 limit rows1 →
  mayReturn table rid t2 limit rows2 →
  (length (matching table rid t2) ≤ limit)%nat
  ∨ distinctRisks (matching table rid t2) →
  rows2 ⊆ rows1.
Proof.
  intros Ht (o1 & Hp1 & Hs1 & ->) (o2 & Hp2 & Hs2 & ->) Hcut.
  destruct (matching_prefix table rid t1 t2 o1 Ht Hp1 Hs1)
    as (pre & rest & -> & Hpre & Hspre).
  rewrite take_app. intros x Hx. apply elem_of_app. left.
  destruct Hcut as [Hlen|Hdist].
  - rewrite take_ge by (by rewrite Hpre).
    rewrite Hpre, <- Hp2. by eapply subseteq_take.
  - assert (Heq : o2 = pre); [|by rewrite <- Heq].
    apply (StronglySorted_unique_strong riskDesc); [|done|done|].
    + intros a b Ha Hb Hab Hba. apply Hdist.
      * by rewrite <- Hp2.
      * by rewrite <- Hpre.
      * unfold riskDesc in *. lra.
    + by rewrite Hp2, Hpre.
Qed.

End AtRiskOrder.

(** C8, as stated, fails where two customers share a churn risk and the
    limit cuts between them: with limit 1 the database may return either
    of them, and the two queries need not make the same choice. *)
Lemma tied_risks_not_nested :
  mayAnswer tie_table "r1" (9 # 10) 1 0 (answerOf 0 [tie_a]) ∧
  mayAnswer tie_table "r1" (5 # 10) 1 0 (answerOf 0 [tie_b]) ∧
  ¬ Customers.customers (answerOf 0 [tie_a])
      ⊆ Customers.customers (answerOf 0 [tie_b]).
Proof.
  split_and!.
  - exists [tie_a]. split; [|done].
    exists [tie_a; tie_b]. split_and!; [done| |done].
    repeat constructor. by vm_compute.
  - exists [tie_b]. split; [|done].
    exists [tie_b; tie_a]. split_and!; [apply Permutation_swap| |done].
    repeat constructor. by vm_compute.
  - intros H. specialize (H (Customers.enrich 0 tie_a)).
    simpl in H. rewrite !list_elem_of_singleton in H.
    by specialize (H eq_refl).
Qed.

(** C8, amended.  Whatever order the database gives to rows of equal
    risk, the customers of the response are in descending order of churn
    risk; the response computed with the stable sort is one of the
    possible ones.  For the same table, restaurant and limit, every
    customer returned for minRisk = 0.9 is returned for minRisk = 0.5
    when the limit does not cut the rows of risk 0.9 and more, or when no
    two of those rows have the same risk. *)
Theorem at_risk_sorted_and_nested
    (table : list Customers.customer) (rid : string) (limit : nat) (now : Z) :
  (∀ minRisk,
     mayAnswer table rid minRisk limit now
       (Customers.atRisk table rid minRisk limit now)) ∧
  (∀ minRisk data,
     mayAnswer table rid minRisk limit now data →
     StronglySorted (λ a b, riskDesc (Customers.base a) (Customers.base b))
       (Customers.customers data)) ∧
  (∀ d9 d5,
     mayAnswer table rid (9 # 10) limit now d9 →
     mayAnswer table rid (5 # 10) limit now d5 →
     (length (matching table rid (9 # 10)) ≤ limit)%nat
     ∨ distinctRisks (matching table rid (9 # 10)) →
     Customers.customers d9 ⊆ Customers.customers d5).
Proof.
  split_and!.
  - intros minRisk. exists (Customers.findMany table rid minRisk limit).
    split; [apply findMany_mayReturn|done].
  - intros minRisk data (rows & Hrows & ->). simpl.
    eapply StronglySorted_fmap; [|by eapply mayReturn_sorted]. done.
  - intros d9 d5 (r9 & Hr9 & ->) (r5 & Hr5 & ->) Hcut. simpl.
    assert (Hsub : r9 ⊆ r5).
    { eapply (mayReturn_threshold table rid (5 # 10) (9 # 10)); try done. }
    intros x (y & -> & Hy)%list_elem_of_fmap.
    apply list_elem_of_fmap. exists y. split; [done|]. by apply Hsub.
Qed.

(** Risks 0.65, 0.30 and 0.90 in one restaurant and a limit of 1: the
    customer returned for 0.9 is the one returned for 0.5. *)
Lemma at_risk_sorted_and_nested_witness :
  Customers.customers (Customers.atRisk mixed_table "r1" (9 # 10) 1 0)
    ⊆ Customers.customers (Customers.atRisk mixed_table "r1" (5 # 10) 1 0).
Proof.
  destruct (at_risk_sorted_and_nested mixed_table "r1" 1 0) as (Hmay & _ & H).
  apply H; [apply Hmay|apply Hmay|].
  left. vm_compute. lia.
Defined.

(** No row matches: the average is [0 / 0]. *)
Lemma avgChurnRisk_no_match
    (table : list Customers.customer) (rid : string) (minRisk : Q)
    (limit : nat) (now : Z) :
  Customers.findMany table rid minRisk limit = [] →
  Customers.avgChurnRisk
    (Customers.summary (Customers.atRisk table rid minRisk limit now)) = Js.NaN.
Proof. unfold Customers.atRisk. intros ->. reflexivity. Qed.

(** C5 fails on the code: with the default minRisk = 0.5 and limit = 50 no
    customer of [loyal_table] matches, the summary divides 0 by the length
    0, and [avgChurnRisk] is NaN, which is not the number 0. *)
Theorem at_risk_empty_average_is_nan :
  let data := Customers.atRisk loyal_table "r1" (5 # 10) 50 0 in
  Customers.customers data = [] ∧
  Customers.total (Customers.summary data) = 0%nat ∧
  Customers.avgChurnRisk (Customers.summary data) = Js.NaN ∧
  ¬ Js.eq (Customers.avgChurnRisk (Customers.summary data)) (Js.Fin 0).
Proof. vm_compute. split_and!; try reflexivity. intros []. Qed.

(** ** Schedule optimiser *)

Section Optimiser.
Import Staff.

Lemma hoursOf_insert_ne (st : gmap string Z) (i j : string) (h : Z) :
  i ≠ j → hoursOf (<[ i := h ]> st) j = hoursOf st j.
Proof. intros Hne. unfold hoursOf. by rewrite lookup_insert_ne. Qed.

Lemma hoursOf_insert_eq (st : gmap string Z) (i : string) (h : Z) :
  hoursOf (<[ i := h ]> st) i = h.
Proof. unfold hoursOf. by rewrite lookup_insert_eq. Qed.

(** The inner loop over servers with distinct ids tests every server
    against the hours of the start of the day. *)
Lemma assign_foldl (cap : Q) (day : Z) (l : list staff)
    (shifts : list shift) (st st0 : gmap string Z) :
  NoDup (id <$> l) →
  Forall (λ y, hoursOf st (id y) = hoursOf st0 (id y)) l →
  (foldl (assign cap day) (shifts, st) l).1 =
  shifts ++ (shiftFor day <$> filter (underCap cap st0) l).
Proof.
  revert shifts st.
  induction l as [|x l IH]; intros shifts st Hnd Hst; simpl.
  - by rewrite app_nil_r.
  - rewrite fmap_cons in Hnd. apply NoDup_cons in Hnd as [Hx Hnd].
    apply Forall_cons in Hst as [Hx0 Hst].
    unfold assign at 2. simpl. rewrite filter_cons.
    destruct (decide (underCap cap st0 x)) as [Hu|Hu];
      unfold underCap in Hu; rewrite <- Hx0 in Hu.
    + rewrite Hu. rewrite IH; [|done|].
      * rewrite fmap_cons, <- app_assoc. done.
      * apply Forall_forall. intros y Hy.
        rewrite hoursOf_insert_ne.
        -- by eapply Forall_forall in Hst.
        -- intros Heq. apply Hx. rewrite Heq.
           apply list_elem_of_fmap. by exists y.
    + apply not_true_is_false in Hu. rewrite Hu. by apply IH.
Qed.

Lemma assignServers_shifts (cap : Q) (day : Z) (roster : list staff)
    (n : Z) (st : gmap string Z) :
  NoDup (id <$> serversOf roster) →
  (assignServers cap day roster n st).1 =
  shiftFor day <$> filter (underCap cap st)
                     (take (Z.to_nat n) (serversOf roster)).
Proof.
  intros Hnd. unfold assignServers.
  rewrite (assign_foldl cap day _ [] st st); [done| |].
  - rewrite fmap_take. rewrite <- (take_drop (Z.to_nat n)) in Hnd.
    by apply NoDup_app in Hnd as [Hnd _].
  - by apply Forall_forall.
Qed.

Lemma scheduleDay_length c roster fs acc :
  length (foldl (scheduleDay c roster) acc fs).1 =
  (length acc.1 + length fs)%nat.
Proof.
  revert acc. induction fs as [|f fs IH]; intros acc; simpl; [lia|].
  rewrite IH. simpl. rewrite length_app. simpl. lia.
Qed.

Lemma scheduleDay_prefix c roster fs acc :
  acc.1 `prefix_of` (foldl (scheduleDay c roster) acc fs).1.
Proof.
  revert acc. induction fs as [|f fs IH]; intros acc; simpl; [done|].
  etrans; [|apply IH]. simpl. by apply prefix_app_r.
Qed.

(** Day [k] of the response is what one iteration computes from the
    state left by the first [k] forecasts. *)
Lemma recommendations_lookup c fs roster k f :
  fs !! k = Some f →
  (foldl (scheduleDay c roster) ([], ∅) fs).1 !! k =
  last (scheduleDay c roster
          (foldl (scheduleDay c roster) ([], ∅) (take k fs)) f).1.
Proof.
  intros Hk.
  rewrite <- (take_drop_middle fs k f Hk) at 1.
  rewrite foldl_app. simpl.
  set (acc := foldl (scheduleDay c roster) ([], ∅) (take k fs)).
  assert (Hlen : length acc.1 = k).
  { unfold acc. rewrite scheduleDay_length. simpl.
    rewrite length_take. apply lookup_lt_Some in Hk. lia. }
  destruct (scheduleDay_prefix c roster (drop (S k) fs)
              (scheduleDay c roster acc f)) as [rest Hrest].
  rewrite Hrest. simpl. rewrite last_snoc.
  rewrite <- app_assoc. rewrite lookup_app_r by lia.
  rewrite Hlen, Nat.sub_diag. done.
Qed.

Lemma assign_nearCap cap day acc server :
  nearCap cap acc.2 → nearCap cap (assign cap day acc server).2.
Proof.
  intros Hacc. unfold assign.
  destruct (Js.Qlt_bool _ cap) eqn:E; [|done].
  apply Qlt_bool_iff in E. simpl. intros sid.
  destruct (decide (id server = sid)) as [<-|Hne].
  - right. rewrite hoursOf_insert_eq. push_inject. lra.
  - rewrite hoursOf_insert_ne by done. apply Hacc.
Qed.

Lemma scheduleDay_nearCap c roster acc f :
  nearCap (capOf c) acc.2 →
  nearCap (capOf c) (scheduleDay c roster acc f).2.
Proof.
  intros Hacc. unfold scheduleDay, assignServers. simpl.
  generalize (take (Z.to_nat (serversNeeded (coversOf f))) (serversOf roster)).
  intros l.
  assert (H : ∀ a, nearCap (capOf c) a.2 →
                   nearCap (capOf c)
                     (foldl (assign (capOf c) (forecastDate f)) a l).2).
  { induction l as [|x l IH]; intros a Ha; simpl; [done|].
    apply IH. by apply assign_nearCap. }
  by apply H.
Qed.

End Optimiser.

(** What the guard [currentHours < cap] does guarantee: a staff member's
    hours stay below the cap plus one 9-hour shift. *)
Lemma hours_below_cap_plus_shift
    (c : option Staff.constraints) (forecasts : list Staff.demandForecast)
    (roster : list Staff.staff) (sid : string) :
  Staff.hoursOf (Staff.staffUtilization (Staff.optimize c forecasts roster)) sid
    = 0%Z ∨
  (inject_Z (Staff.hoursOf
               (Staff.staffUtilization (Staff.optimize c forecasts roster)) sid)
   < Staff.capOf c + 9)%Q.
Proof.
  unfold Staff.optimize. simpl.
  assert (H : ∀ acc, nearCap (Staff.capOf c) acc.2 →
                     nearCap (Staff.capOf c)
                       (foldl (Staff.scheduleDay c roster) acc forecasts).2).
  { induction forecasts as [|f fs IH]; intros acc Hacc; simpl; [done|].
    apply IH. by apply scheduleDay_nearCap. }
  apply H. intros i. left. done.
Qed.

(** C1 fails on the code: the guard compares the hours before the shift
    is added, so with the default cap of 40 the only server of the roster
    is given a fifth shift at 36 hours and ends the week at 45. *)
Theorem optimizer_exceeds_cap :
  let out := Staff.optimize None five_days one_server in
  Staff.staffUtilization out !! "s1" = Some 45%Z ∧
  Staff.totalShiftsRecommended out = 5%nat ∧
  (Staff.capOf None == 40)%Q ∧
  (Staff.capOf None < inject_Z 45)%Q.
Proof. vm_compute. split_and!; reflexivity. Qed.

(** C6, as stated, fails for cooks: for 40 covers one cook is needed and
    the roster has a cook with no hours yet, but the day gets no shift at
    all; the handler has a loop for servers only. *)
Lemma cooks_never_assigned :
  ∃ d, Staff.recommendations (Staff.optimize None forty_covers one_cook) = [d] ∧
       Staff.cooks (Staff.needed d) = 1%Z ∧
       staffOfRole "cook" one_cook = 1%nat ∧
       Staff.suggestedShifts d = [] ∧
       ¬ roleStaffed "cook" (Staff.cooks (Staff.needed d)) one_cook d.
Proof.
  eexists. split; [vm_compute; reflexivity|].
  split_and!; try (vm_compute; reflexivity).
  vm_compute. discriminate.
Qed.

(** Day [k] of the response, exactly as the loop computes it. *)
Lemma day_shifts_exact
    (c : option Staff.constraints) (forecasts : list Staff.demandForecast)
    (roster : list Staff.staff) (k : nat) (f : Staff.demandForecast) :
  NoDup (Staff.id <$> Staff.serversOf roster) →
  forecasts !! k = Some f →
  ∃ d,
    Staff.recommendations (Staff.optimize c forecasts roster) !! k = Some d ∧
    Staff.date d = Staff.forecastDate f ∧
    Staff.servers (Staff.needed d) = Staff.serversNeeded (Staff.coversOf f) ∧
    Staff.cooks (Staff.needed d) = Staff.cooksNeeded (Staff.coversOf f) ∧
    Staff.suggestedShifts d =
      (Staff.shiftFor (Staff.forecastDate f)
         <$> filter (underCap (Staff.capOf c) (hoursBefore c forecasts roster k))
               (considered roster d)).
Proof.
  intros Hnd Hk.
  unfold Staff.optimize at 1. cbn [Staff.recommendations].
  rewrite (recommendations_lookup c forecasts roster k f Hk).
  unfold hoursBefore, Staff.optimize. cbn [Staff.staffUtilization].
  set (acc := foldl (Staff.scheduleDay c roster) ([], ∅) (take k forecasts)).
  unfold Staff.scheduleDay at 1. cbn [fst]. rewrite last_snoc.
  eexists. split; [reflexivity|]. unfold considered. cbn.
  rewrite assignServers_shifts by done.
  split_and!; reflexivity.
Qed.

(** What the statement below leaves open: a server among the first
    [serversNeeded] whose hours have reached the cap is passed over and
    nobody takes the place.  Six days of 20 covers need one server each;
    the first server of the roster works five of them, and the sixth day
    has no shift while the second server has no hours at all. *)
Lemma capped_server_not_replaced :
  ∃ d,
    Staff.recommendations (Staff.optimize None six_days two_servers) !! 5%nat
      = Some d ∧
    Staff.servers (Staff.needed d) = 1%Z ∧
    Staff.suggestedShifts d = [] ∧
    Staff.hoursOf (hoursBefore None six_days two_servers 5) "s1" = 45%Z ∧
    Staff.hoursOf (hoursBefore None six_days two_servers 5) "s2" = 0%Z ∧
    Staff.hoursOf
      (Staff.staffUtilization (Staff.optimize None six_days two_servers)) "s2"
      = 0%Z.
Proof. eexists. vm_compute. split_and!; reflexivity. Qed.

(** C6, amended.  The roster's servers have distinct ids.  On day [k]
    only servers are assigned: the suggested shifts are 11:00-20:00
    shifts of 9 hours for servers of the roster, in roster order, and
    there are at most [serversNeeded = ceil (covers / 20)] of them; no
    server whose hours have reached the cap gets one; each of the first
    [serversNeeded] servers whose hours leave room for the shift under
    the cap gets one; so, when the roster has no more servers than
    needed, every server with room is assigned and nothing else is done
    about the shortfall.  The cook headcount [ceil (covers / 40)] is only
    reported. *)
Theorem servers_assigned_in_roster_order
    (c : option Staff.constraints) (forecasts : list Staff.demandForecast)
    (roster : list Staff.staff) (k : nat) (f : Staff.demandForecast) :
  NoDup (Staff.id <$> Staff.serversOf roster) →
  forecasts !! k = Some f →
  ∃ d,
    Staff.recommendations (Staff.optimize c forecasts roster) !! k = Some d ∧
    Staff.date d = Staff.forecastDate f ∧
    Staff.servers (Staff.needed d) = Staff.serversNeeded (Staff.coversOf f) ∧
    Staff.cooks (Staff.needed d) = Staff.cooksNeeded (Staff.coversOf f) ∧
    Forall (λ sh, Staff.shift_role sh = "server" ∧ Staff.hours sh = 9%Z ∧
                  Staff.start sh = "T11:00:00" ∧ Staff.end_ sh = "T20:00:00")
           (Staff.suggestedShifts d) ∧
    Staff.suggestedShifts d
      `sublist_of` (Staff.shiftFor (Staff.forecastDate f)
                      <$> Staff.serversOf roster) ∧
    (length (Staff.suggestedShifts d)
     ≤ Z.to_nat (Staff.serversNeeded (Staff.coversOf f)))%nat ∧
    Forall (λ s, atCap (Staff.capOf c) (hoursBefore c forecasts roster k) s →
                 Staff.shiftFor (Staff.forecastDate f) s ∉ Staff.suggestedShifts d)
           (Staff.serversOf roster) ∧
    Forall (λ s, roomForShift (Staff.capOf c) (hoursBefore c forecasts roster k) s →
                 Staff.shiftFor (Staff.forecastDate f) s ∈ Staff.suggestedShifts d)
           (take (Z.to_nat (Staff.serversNeeded (Staff.coversOf f)))
                 (Staff.serversOf roster)) ∧
    ((length (Staff.serversOf roster)
      ≤ Z.to_nat (Staff.serversNeeded (Staff.coversOf f)))%nat →
     Forall (λ s, roomForShift (Staff.capOf c) (hoursBefore c forecasts roster k) s →
                  Staff.shiftFor (Staff.forecastDate f) s ∈ Staff.suggestedShifts d)
            (Staff.serversOf roster)).
Proof.
  intros Hnd Hk.
  destruct (day_shifts_exact c forecasts roster k f Hnd Hk)
    as (d & Hd & Hdate & Hsn & Hcn & Hshifts).
  unfold considered in Hshifts. rewrite Hsn in Hshifts.
  assert (Hroom : Forall
            (λ s, roomForShift (Staff.capOf c) (hoursBefore c forecasts roster k) s →
                  Staff.shiftFor (Staff.forecastDate f) s ∈ Staff.suggestedShifts d)
            (take (Z.to_nat (Staff.serversNeeded (Staff.coversOf f)))
                  (Staff.serversOf roster))).
  { rewrite Hshifts. apply Forall_forall. intros s Hs Hroom.
    apply list_elem_of_fmap. exists s. split; [done|].
    apply list_elem_of_filter. split; [|done].
    unfold underCap, roomForShift in *. apply Qlt_bool_iff. lra. }
  exists d. split_and!; try done.
  - rewrite Hshifts. apply Forall_fmap, Forall_forall. intros s _. done.
  - rewrite Hshifts. apply fmap_sublist.
    etrans; [apply sublist_filter|apply sublist_take].
  - rewrite Hshifts, length_fmap.
    etrans; [apply length_filter|]. rewrite length_take. lia.
  - rewrite Hshifts. apply Forall_forall. intros s _ Hcap Hin.
    apply list_elem_of_fmap in Hin as (s' & Heq & Hs').
    apply list_elem_of_filter in Hs' as [Hunder _].
    assert (Hid : Staff.id s = Staff.id s') by (by injection Heq).
    unfold underCap, atCap in *. apply Qlt_bool_iff in Hunder.
    rewrite Hid in Hcap. lra.
  - intros Hle. by rewrite take_ge in Hroom.
Qed.

(** Two servers and a cook, two days of 50 covers: on the second day
    three servers are needed, the roster has two, at 9 hours each, and
    both get the shift. *)
Lemma servers_assigned_in_roster_order_witness :
  ∃ d,
    Staff.recommendations (Staff.optimize None two_days small_roster) !! 1%nat
      = Some d ∧
    Forall (λ s, Staff.shiftFor 1 s ∈ Staff.suggestedShifts d)
           (Staff.serversOf small_roster).
Proof.
  destruct (servers_assigned_in_roster_order None two_days small_roster 1
              {| Staff.forecastDate := 1; Staff.predictedCovers := None |})
    as (d & Hd & _ & _ & _ & _ & _ & _ & _ & _ & Hall).
  - apply (bool_decide_unpack _). vm_compute. exact I.
  - reflexivity.
  - exists d. split; [exact Hd|].
    specialize (Hall ltac:(vm_compute; lia)).
    apply Forall_forall. intros s Hs.
    eapply Forall_forall in Hall; [|exact Hs]. apply Hall.
    change (Staff.serversOf small_roster) with [ann; cy] in Hs.
    apply elem_of_cons in Hs as [->|Hs]; [vm_compute; discriminate|].
    apply list_elem_of_singleton in Hs as ->. vm_compute. discriminate.
Defined.

(** ** The averages of the menu classifier *)

Section MenuAverages.
Import Menu.

Lemma total_perm {A} (f : A → Q) (l k : list A) :
  l ≡ₚ k → (total f l == total f k)%Q.
Proof.
  induction 1 as [|x l k _ IH|x y l|l k m _ IH1 _ IH2]; simpl.
  - reflexivity.
  - rewrite IH. reflexivity.
  - ring.
  - by rewrite IH1.
Qed.

Lemma total_ext {A} (f g : A → Q) (l : list A) :
  Forall (λ x, f x == g x)%Q l → (total f l == total g l)%Q.
Proof.
  induction 1 as [|x l Hx _ IH]; simpl; [reflexivity|].
  rewrite Hx, IH. reflexivity.
Qed.

Lemma total_fmap {A B} (g : A → B) (f : B → Q) (l : list A) :
  total f (g <$> l) = total (f ∘ g) l.
Proof.
  unfold total. induction l as [|x l IH]; [done|].
  rewrite fmap_cons. cbn [foldr]. by rewrite IH.
Qed.

Lemma sumOf_total {A} (f : A → Q) (l : list A) :
  (sumOf f l == total f l)%Q.
Proof.
  unfold sumOf.
  assert (H : ∀ a, (foldl (λ s m, s + f m) a l == a + total f l)%Q).
  { induction l as [|x l IH]; intros a; simpl; [ring|].
    rewrite IH. ring. }
  rewrite H. ring.
Qed.

Lemma salesOf_none (i : string) (ois : list orderItem) :
  i ∉ menuItemId <$> ois → salesOf i ois = [].
Proof.
  intros Hi. unfold salesOf.
  destruct (filter _ ois) as [|oi k] eqn:E; [done|].
  assert (Hoi : oi ∈ filter (λ oi, menuItemId oi = i) ois)
    by (rewrite E; by left).
  apply list_elem_of_filter in Hoi as [<- Hoi].
  destruct Hi. apply list_elem_of_fmap. by exists oi.
Qed.

Lemma itemMetrics_lookup_from (m : gmap string metrics)
    (ois : list orderItem) (i : string) :
  foldl addOrderItem m ois !! i =
  if decide (i ∈ menuItemId <$> ois)
  then Some (entryOf i (default noMetrics (m !! i)) ois)
  else m !! i.
Proof.
  revert m. induction ois as [|oi ois IH]; intros m.
  - rewrite fmap_nil, decide_False by apply not_elem_of_nil. done.
  - simpl foldl. rewrite IH. unfold entryOf, salesOf.
    rewrite fmap_cons, filter_cons. unfold addOrderItem at 1 2.
    destruct (decide (menuItemId oi = i)) as [Heq|Hne].
    + subst i. rewrite lookup_insert_eq. simpl.
      rewrite (decide_True (P := _ ∈ _ :: _)) by left.
      case_decide as Hin; [done|].
      fold (salesOf (menuItemId oi) ois). by rewrite salesOf_none.
    + rewrite lookup_insert_ne by done.
      destruct (decide (i ∈ menuItemId <$> ois)) as [Hin|Hnin].
      * by rewrite decide_True by (by right).
      * rewrite decide_False; [done|].
        intros [?|?]%elem_of_cons; congruence.
Qed.

Lemma itemMetrics_lookup (ois : list orderItem) (i : string) :
  itemMetrics ois !! i =
  if decide (i ∈ soldIds ois) then Some (entryOf i noMetrics ois) else None.
Proof.
  unfold itemMetrics. rewrite itemMetrics_lookup_from, lookup_empty. simpl.
  unfold soldIds. apply decide_ext. by rewrite elem_of_remove_dups.
Qed.

Lemma entry_quantity (l : list orderItem) (m0 : metrics) :
  (inject_Z (quantity (foldl addTo m0 l))
   == inject_Z (quantity m0) + total (λ oi, inject_Z (oi_quantity oi)) l)%Q.
Proof.
  revert m0. induction l as [|oi l IH]; intros m0; simpl; [ring|].
  rewrite IH. simpl. rewrite inject_Z_plus. ring.
Qed.

Lemma entry_profit (l : list orderItem) (m0 : metrics) :
  (profit (foldl addTo m0 l)
   == profit m0 + total (λ oi, oi_revenue oi - oi_cost oi) l)%Q.
Proof.
  revert m0. induction l as [|oi l IH]; intros m0; simpl; [ring|].
  rewrite IH. simpl. ring.
Qed.








End MenuAverages.




(** * Further properties *)

(** ** At-risk customers: what the query returns *)

Section AtRiskContents.
Import Customers.

Lemma matches_spec (rid : string) (minRisk : Q) (c : customer) :
  matches rid minRisk c = true ↔
  restaurantId c = rid ∧ ∃ r, churnRisk c = Some r ∧ (minRisk <= r)%Q.
Proof.
  unfold matches. rewrite andb_true_iff, bool_decide_eq_true.
  destruct (churnRisk c) as [r|].
  - rewrite Qle_bool_iff. split.
    + intros [? ?]. eauto.
    + intros [? (r' & [= <-] & ?)]. done.
  - split; [intros [_ [=]]|intros [_ (r & [=] & _)]].
Qed.

Lemma findMany_elem_of table rid minRisk limit (c : customer) :
  c ∈ findMany table rid minRisk limit → c ∈ matching table rid minRisk.
Proof.
  unfold findMany. intros Hc. apply subseteq_take in Hc.
  by rewrite orderByRiskDesc_perm in Hc.
Qed.

Lemma base_enrich (now : Z) (l : list customer) :
  base <$> (enrich now <$> l) = l.
Proof. induction l as [|c l IH]; [done|]. rewrite !fmap_cons, IH. done. Qed.

End AtRiskContents.

(** X1.  The at-risk response holds only customers of the requested
    restaurant whose churn risk is known and at least [minRisk], all taken
    from the table; their number is the smaller of [limit] and the number
    of matching customers, and [summary.total] is that number. *)
Theorem at_risk_only_matching
    (table : list Customers.customer) (rid : string) (minRisk : Q)
    (limit : nat) (now : Z) :
  let data := Customers.atRisk table rid minRisk limit now in
  Customers.total (Customers.summary data) = length (Customers.customers data) ∧
  length (Customers.customers data)
    = Nat.min limit (length (matching table rid minRisk)) ∧
  Forall (λ e, Customers.base e ∈ table ∧
               Customers.restaurantId (Customers.base e) = rid ∧
               ∃ r, Customers.churnRisk (Customers.base e) = Some r ∧
                    (minRisk <= r)%Q)
         (Customers.customers data).
Proof.
  unfold Customers.atRisk. cbn. split_and!; [done| |].
  - rewrite length_fmap. unfold Customers.findMany.
    rewrite length_take, (Permutation_length (orderByRiskDesc_perm _)). done.
  - apply Forall_fmap, Forall_forall. intros c Hc. cbn.
    apply findMany_elem_of, list_elem_of_filter in Hc as [Hm Hc].
    apply matches_spec in Hm as [Hr Hrisk]. done.
Qed.

(** X2.  When no more customers match than the limit allows, the response
    holds every matching customer exactly once. *)
Theorem at_risk_complete
    (table : list Customers.customer) (rid : string) (minRisk : Q)
    (limit : nat) (now : Z) :
  (length (matching table rid minRisk) ≤ limit)%nat →
  Customers.base <$> Customers.customers
                       (Customers.atRisk table rid minRisk limit now)
    ≡ₚ matching table rid minRisk.
Proof.
  intros Hle. unfold Customers.atRisk. cbn.
  rewrite base_enrich.
  unfold Customers.findMany. rewrite take_ge.
  - apply orderByRiskDesc_perm.
  - rewrite (Permutation_length (orderByRiskDesc_perm _)). exact Hle.
Qed.

Lemma at_risk_complete_witness :
  Customers.base <$> Customers.customers
                       (Customers.atRisk mixed_table "r1" (5 # 10) 50 0)
    ≡ₚ matching mixed_table "r1" (5 # 10).
Proof. apply at_risk_complete. vm_compute. lia. Defined.

(** X3.  With [minRisk] at 0.6 or above every customer of the response is
    given an outreach action, whatever the date of the last visit: the
    urgent win-back offer when the risk is at least 0.8 and the
    re-engagement email otherwise. *)
Theorem at_risk_actions_from_threshold
    (table : list Customers.customer) (rid : string) (minRisk : Q)
    (limit : nat) (now : Z) :
  (6 # 10 <= minRisk)%Q →
  Forall (λ e, (Customers.recommendedAction e = urgentAction ∧
                (8 # 10 <= Customers.riskOf (Customers.base e))%Q) ∨
               (Customers.recommendedAction e = reengageAction ∧
                (Customers.riskOf (Customers.base e) < 8 # 10)%Q))
         (Customers.customers (Customers.atRisk table rid minRisk limit now)).
Proof.
  intros Hmin. unfold Customers.atRisk. cbn.
  apply Forall_fmap, Forall_forall. intros c Hc. cbn.
  apply findMany_elem_of, list_elem_of_filter in Hc as [Hm Hc].
  apply matches_spec in Hm as [_ (r & Hr & Hrisk)].
  unfold Customers.riskOf, Customers.getChurnAction. rewrite Hr. simpl.
  destruct (Qle_bool (8 # 10) r) eqn:E8.
  - left. apply Qle_bool_iff in E8. done.
  - right. assert (H8 : (r < 8 # 10)%Q).
    { apply Qlt_bool_iff. unfold Js.Qlt_bool. by rewrite E8. }
    assert (E6 : Qle_bool (6 # 10) r = true) by (apply Qle_bool_iff; lra).
    rewrite E6. done.
Qed.

Lemma at_risk_actions_from_threshold_witness :
  Forall (λ e, (Customers.recommendedAction e = urgentAction ∧
                (8 # 10 <= Customers.riskOf (Customers.base e))%Q) ∨
               (Customers.recommendedAction e = reengageAction ∧
                (Customers.riskOf (Customers.base e) < 8 # 10)%Q))
         (Customers.customers (Customers.atRisk mixed_table "r1" (6 # 10) 50 0)).
Proof. apply at_risk_actions_from_threshold. discriminate. Defined.

(** ** Cover forecast: the response and the table *)

Section ForecastTable.
Import Forecast.
Context (tz : zone).

Lemma generate_table_lookup rid means today days rand db (k : string * Z) :
  table (generate tz rid means today days rand db) !! k =
  if decide (generatedKey rid today days k)
  then Some (rowOf tz means k.2 (rand (Z.to_nat (k.2 - today))))
  else db !! k.
Proof.
  unfold generate. induction days as [|n IH].
  - simpl. rewrite decide_False; [done|]. unfold generatedKey.
    intros (_ & ? & ?). lia.
  - rewrite seq_S, foldl_app. simpl.
    destruct (decide (k = (rid, (today + Z.of_nat (S n))%Z))) as [->|Hne].
    + rewrite lookup_insert_eq, decide_True.
      * cbn [snd].
        replace (Z.to_nat (today + Z.of_nat (S n) - today)) with (S n) by lia.
        done.
      * unfold generatedKey. cbn [fst snd]. split_and!; [done|lia..].
    + rewrite lookup_insert_ne by done. rewrite IH.
      apply decide_ext. unfold generatedKey. destruct k as [r d]. simpl in *.
      split; [intros (-> & ? & ?); split_and!; [done|lia..]|].
      intros (-> & ? & ?). split_and!; [done|lia|].
      destruct (decide (d = (today + Z.of_nat (S n))%Z)) as [->|]; [done|lia].
Qed.

Lemma dayName_defined (d : Z) :
  weekdays (getDay tz) →
  dayNames !! Z.to_nat (getDay tz d)
  = Some (default "" (dayNames !! Z.to_nat (getDay tz d))).
Proof.
  intros Hday.
  destruct (dayNames !! Z.to_nat (getDay tz d)) as [n|] eqn:E; [done|].
  apply lookup_ge_None in E. simpl in E. specialize (Hday d). lia.
Qed.

Lemma utc_weekdays : weekdays (getDay utc) ∧ weekdays (getDayOfDate utc).
Proof. split; intros d; apply Z.mod_pos_bound; lia. Qed.

End ForecastTable.

(** X4.  The forecast response has one element per requested day, for
    the dates [today + 1] to [today + days] in this order, and each
    element carries the name of the weekday [getDay] returns for it in
    the time zone of the server, whichever that is: the number [getDay]
    returns always has a name. *)
Theorem forecast_days_in_order
    (tz : Forecast.zone) (msqrt : Q → Q) (rid : string)
    (orders : list Forecast.order) (today : Z) (days : nat) (rand : nat → Q)
    (db : gmap (string * Z) Forecast.forecastRow) :
  Forecast.weekdays (Forecast.getDay tz) →
  let preds :=
    Forecast.predictions
      (Forecast.covers tz msqrt rid orders today days rand db) in
  length preds = days ∧
  Forecast.date <$> preds = (λ i, (today + Z.of_nat i)%Z) <$> seq 1 days ∧
  Forall (λ p, Forecast.dayNames
                 !! Z.to_nat (Forecast.getDay tz (Forecast.date p))
               = Some (Forecast.dayOfWeek p)) preds.
Proof.
  intros Hday. unfold Forecast.covers. cbv zeta. rewrite generate_predictions.
  split_and!.
  - by rewrite length_fmap, length_seq.
  - rewrite <- list_fmap_compose. done.
  - apply Forall_fmap, Forall_forall. intros i _. cbn.
    by apply dayName_defined.
Qed.

(** Three days from 1970-01-01 on a server on UTC. *)
Lemma forecast_days_in_order_witness :
  Forecast.dayOfWeek
    <$> Forecast.predictions
          (Forecast.covers Forecast.utc floorSqrt "r1" friday_history 0 3
             (λ _, 0%Q) ∅)
  = ["Fri"; "Sat"; "Sun"].
Proof.
  destruct (forecast_days_in_order Forecast.utc floorSqrt "r1" friday_history
              0 3 (λ _, 0%Q) ∅) as (_ & _ & Hnames).
  - apply utc_weekdays.
  - cbv zeta in Hnames. vm_compute in Hnames.
    apply Forall_cons in Hnames as [H1 Hnames].
    apply Forall_cons in Hnames as [H2 Hnames].
    apply Forall_cons in Hnames as [H3 _].
    vm_compute. congruence.
Defined.

(** X5.  After the handler has run, the table holds for every day of the
    response a row with the same confidence band and the model version
    dow_average_v1, whose prediction floored at 0 is the reported one;
    rows of other restaurants and of other dates are as they were. *)
Theorem forecast_rows_stored
    (tz : Forecast.zone) (msqrt : Q → Q) (rid : string)
    (orders : list Forecast.order) (today : Z)
    (days : nat) (rand : nat → Q) (db : gmap (string * Z) Forecast.forecastRow) :
  let st := Forecast.covers tz msqrt rid orders today days rand db in
  Forall (storedFor st rid) (Forecast.predictions st) ∧
  ∀ k, ¬ generatedKey rid today days k → Forecast.table st !! k = db !! k.
Proof.
  unfold Forecast.covers. cbv zeta. split.
  - rewrite generate_predictions.
    apply Forall_fmap, Forall_forall. intros i Hi. cbn.
    apply elem_of_seq in Hi.
    eexists. split.
    + rewrite generate_table_lookup, decide_True.
      * cbn. replace (Z.to_nat (today + Z.of_nat i - today)) with i by lia. done.
      * unfold generatedKey. cbn. split_and!; [done|lia..].
    + done.
  - intros k Hk. by rewrite generate_table_lookup, decide_False.
Qed.

(** X6.  Generating again for the same restaurant and day overwrites:
    after a second run that covers at least as many days, the table is
    what the second run alone would have produced. *)
Theorem regenerate_overwrites
    (tz1 tz2 : Forecast.zone) (rid : string)
    (means1 means2 : gmap Z Forecast.stats) (today : Z)
    (days1 days2 : nat) (rand1 rand2 : nat → Q)
    (db : gmap (string * Z) Forecast.forecastRow) :
  (days1 ≤ days2)%nat →
  Forecast.table
    (Forecast.generate tz2 rid means2 today days2 rand2
       (Forecast.table (Forecast.generate tz1 rid means1 today days1 rand1 db)))
  = Forecast.table (Forecast.generate tz2 rid means2 today days2 rand2 db).
Proof.
  intros Hle. apply map_eq. intros k.
  rewrite !generate_table_lookup.
  destruct (decide (generatedKey rid today days2 k)) as [|Hk2]; [done|].
  rewrite decide_False; [done|].
  unfold generatedKey in *. intros (? & ? & ?). apply Hk2. split_and!; [done|lia..].
Qed.

Lemma regenerate_overwrites_witness :
  Forecast.table
    (Forecast.generate Forecast.utc "r1" wide_stats 0 7 (λ _, 0%Q)
       (Forecast.table (Forecast.generate Forecast.utc "r1" ∅ 0 3
                          (λ _, (1 # 2)%Q) ∅)))
  = Forecast.table (Forecast.generate Forecast.utc "r1" wide_stats 0 7
                      (λ _, 0%Q) ∅).
Proof. apply regenerate_overwrites. lia. Defined.

(** ** Schedule optimiser: accounting of shifts and hours *)

Section OptimiserAccounting.
Import Staff.

Lemma scheduleDay_unfold c roster (acc : list dayRecommendation * gmap string Z) f :
  scheduleDay c roster acc f =
  (acc.1 ++ [dayFor c roster acc.2 f],
   (assignServers (capOf c) (forecastDate f) roster
      (serversNeeded (coversOf f)) acc.2).2).
Proof. done. Qed.

(** The response lists, in order, the day of each forecast row, computed
    from some hours map. *)
Lemma recommendations_days (P : dayRecommendation → Prop) c roster fs acc :
  Forall P acc.1 →
  (∀ st f, f ∈ fs → P (dayFor c roster st f)) →
  Forall P (foldl (scheduleDay c roster) acc fs).1.
Proof.
  revert acc. induction fs as [|f fs IH]; intros acc Hacc HP; [done|].
  simpl foldl. apply IH.
  - rewrite scheduleDay_unfold. cbn [fst]. apply Forall_app. split; [done|].
    repeat constructor. apply HP. by left.
  - intros st g Hg. apply HP. by right.
Qed.

(** Hours minus 9 per shift: what one pass of the inner loop keeps. *)
Lemma assign_balance cap day (l : list staff) (acc : list shift * gmap string Z)
    (sid : string) :
  (hoursOf (foldl (assign cap day) acc l).2 sid
   - 9 * Z.of_nat (shiftCount sid (foldl (assign cap day) acc l).1)
   = hoursOf acc.2 sid - 9 * Z.of_nat (shiftCount sid acc.1))%Z.
Proof.
  revert acc. induction l as [|s l IH]; intros acc; [done|].
  simpl foldl. rewrite IH. unfold assign.
  destruct (Js.Qlt_bool _ cap); [|done]. cbn [fst snd].
  unfold shiftCount. rewrite filter_app, length_app, filter_cons, filter_nil.
  cbn [staffId shiftFor].
  destruct (decide (id s = sid)) as [<-|Hne].
  - rewrite hoursOf_insert_eq. simpl. lia.
  - rewrite hoursOf_insert_ne by done. simpl. lia.
Qed.

Lemma assign_sublist cap day (l : list staff) (acc : list shift * gmap string Z) :
  ∃ k, (foldl (assign cap day) acc l).1 = acc.1 ++ k ∧
       k `sublist_of` (shiftFor day <$> l).
Proof.
  revert acc. induction l as [|s l IH]; intros acc.
  - exists []. by rewrite app_nil_r.
  - simpl foldl. destruct (IH (assign cap day acc s)) as (k & -> & Hk).
    unfold assign. destruct (Js.Qlt_bool _ cap); cbn [fst].
    + exists (shiftFor day s :: k). rewrite <- app_assoc. split; [done|].
      rewrite fmap_cons. by apply sublist_skip.
    + exists k. split; [done|]. rewrite fmap_cons. by apply sublist_cons.
Qed.

Lemma dayFor_shifts c roster st f :
  suggestedShifts (dayFor c roster st f)
    `sublist_of` (shiftFor (forecastDate f)
                    <$> take (Z.to_nat (serversNeeded (coversOf f))) (serversOf roster)).
Proof.
  unfold dayFor. cbn. unfold assignServers.
  destruct (assign_sublist (capOf c) (forecastDate f)
              (take (Z.to_nat (serversNeeded (coversOf f))) (serversOf roster))
              ([], st)) as (k & -> & Hk).
  done.
Qed.

Lemma week_balance c roster fs (acc : list dayRecommendation * gmap string Z)
    (sid : string) :
  (hoursOf (foldl (scheduleDay c roster) acc fs).2 sid
   - 9 * Z.of_nat (shiftCount sid
                     ((foldl (scheduleDay c roster) acc fs).1 ≫= suggestedShifts))
   = hoursOf acc.2 sid
     - 9 * Z.of_nat (shiftCount sid (acc.1 ≫= suggestedShifts)))%Z.
Proof.
  revert acc. induction fs as [|f fs IH]; intros acc; [done|].
  simpl foldl. rewrite IH. unfold scheduleDay. cbn [fst snd].
  rewrite bind_app. cbn [mbind list_bind]. rewrite app_nil_r. cbn [suggestedShifts].
  unfold shiftCount at 1. rewrite filter_app, length_app.
  fold (shiftCount sid (acc.1 ≫= suggestedShifts)).
  unfold assignServers.
  pose proof (assign_balance (capOf c) (forecastDate f)
                (take (Z.to_nat (serversNeeded (coversOf f))) (serversOf roster))
                ([], acc.2) sid) as Hb.
  cbn [fst snd] in Hb. unfold shiftCount in Hb at 2. simpl in Hb.
  unfold shiftCount in Hb. lia.
Qed.

Lemma utilisation_balance c fs roster (sid : string) :
  hoursOf (foldl (scheduleDay c roster) ([], ∅) fs).2 sid
  = (9 * Z.of_nat (shiftCount sid
                     ((foldl (scheduleDay c roster) ([], ∅) fs).1
                        ≫= suggestedShifts)))%Z.
Proof.
  pose proof (week_balance c roster fs ([], ∅) sid) as H.
  cbn in H. unfold hoursOf at 2 in H. rewrite lookup_empty in H.
  unfold shiftCount in *. simpl in H. lia.
Qed.

Lemma shiftCount_NoDup (sid : string) (l : list shift) :
  NoDup (staffId <$> l) → (shiftCount sid l ≤ 1)%nat.
Proof.
  unfold shiftCount. induction l as [|sh l IHl]; intros Hd; [simpl; lia|].
  rewrite fmap_cons in Hd. apply NoDup_cons in Hd as [Hsh Hl].
  rewrite filter_cons. case_decide as Heq; [|by apply IHl].
  cbn [length].
  assert (filter (λ sh, staffId sh = sid) l = []) as ->; [|simpl; lia].
  destruct (filter _ l) as [|sh' k] eqn:E; [done|].
  assert (Hsh' : sh' ∈ filter (λ sh, staffId sh = sid) l)
    by (rewrite E; by left).
  apply list_elem_of_filter in Hsh' as [Hid Hin].
  destruct Hsh. rewrite Heq, <- Hid. apply list_elem_of_fmap. by exists sh'.
Qed.

Lemma shiftCount_le_days (sid : string) (recs : list dayRecommendation) :
  Forall (λ d, NoDup (staffId <$> suggestedShifts d)) recs →
  (shiftCount sid (recs ≫= suggestedShifts) ≤ length recs)%nat.
Proof.
  induction 1 as [|d recs Hd _ IH]; [done|].
  rewrite bind_cons. unfold shiftCount in *.
  rewrite filter_app, length_app. cbn [length].
  pose proof (shiftCount_NoDup sid _ Hd) as H1. unfold shiftCount in H1. lia.
Qed.

Lemma totalShifts_length (recs : list dayRecommendation) (n : nat) :
  foldl (λ s d, s + length (suggestedShifts d))%nat n recs
  = (n + length (recs ≫= suggestedShifts))%nat.
Proof.
  revert n. induction recs as [|d recs IH]; intros n; [simpl; lia|].
  cbn [foldl]. rewrite IH, bind_cons, length_app. lia.
Qed.

Lemma ceil_spec (a b : Z) :
  (0 < b)%Z →
  (b * (Js.ceil_fin (inject_Z a / inject_Z b) - 1) < a)%Z ∧
  (a ≤ b * Js.ceil_fin (inject_Z a / inject_Z b))%Z.
Proof.
  intros Hb. unfold Js.ceil_fin.
  pose proof (Qle_ceiling (inject_Z a / inject_Z b)) as Hle.
  pose proof (Qceiling_lt (inject_Z a / inject_Z b)) as Hlt.
  set (n := Qceiling (inject_Z a / inject_Z b)) in *. clearbody n.
  assert (Hb' : (0 < inject_Z b)%Q).
  { change 0%Q with (inject_Z 0). by rewrite <- Zlt_Qlt. }
  assert (Hq : (inject_Z a / inject_Z b * inject_Z b == inject_Z a)%Q).
  { field. lra. }
  set (q := (inject_Z a / inject_Z b)%Q) in *. clearbody q.
  pose proof (Qmult_lt_compat_r _ _ _ Hb' Hlt) as Hlt'.
  pose proof (Qmult_le_compat_r _ _ _ Hle (Qlt_le_weak _ _ Hb')) as Hle'.
  unfold Z.sub in Hlt'. rewrite inject_Z_plus in Hlt'.
  change (inject_Z (- (1))) with (- 1)%Q in Hlt'.
  split.
  - rewrite Zlt_Qlt, inject_Z_mult. unfold Z.sub. rewrite inject_Z_plus.
    change (inject_Z (- (1))) with (- 1)%Q. lra.
  - rewrite Zle_Qle, inject_Z_mult. lra.
Qed.

End OptimiserAccounting.

(** X7.  The utilisation the optimiser reports for a staff member is 9
    hours for each shift suggested to that member during the week, and
    [totalShiftsRecommended] is the number of suggested shifts. *)
Theorem utilisation_counts_shifts
    (c : option Staff.constraints) (forecasts : list Staff.demandForecast)
    (roster : list Staff.staff) (sid : string) :
  let out := Staff.optimize c forecasts roster in
  Staff.hoursOf (Staff.staffUtilization out) sid
    = (9 * Z.of_nat (shiftCount sid (shiftsOfWeek out)))%Z ∧
  Staff.totalShiftsRecommended out = length (shiftsOfWeek out).
Proof.
  unfold Staff.optimize, shiftsOfWeek.
  cbn [Staff.recommendations Staff.staffUtilization Staff.totalShiftsRecommended].
  split.
  - apply utilisation_balance.
  - by rewrite totalShifts_length.
Qed.

(** X8.  When the servers of the roster have distinct ids, nobody is
    given two shifts on the same day, so that a staff member's hours for
    the week are at most 9 times the number of forecast days. *)
Theorem one_shift_per_day
    (c : option Staff.constraints) (forecasts : list Staff.demandForecast)
    (roster : list Staff.staff) (sid : string) :
  NoDup (Staff.id <$> Staff.serversOf roster) →
  let out := Staff.optimize c forecasts roster in
  Forall (λ d, NoDup (Staff.staffId <$> Staff.suggestedShifts d))
         (Staff.recommendations out) ∧
  (Staff.hoursOf (Staff.staffUtilization out) sid
   ≤ 9 * Z.of_nat (length forecasts))%Z.
Proof.
  intros Hnd out.
  assert (Hdays : Forall (λ d, NoDup (Staff.staffId <$> Staff.suggestedShifts d))
                    (Staff.recommendations out)).
  { unfold out, Staff.optimize. cbn.
    apply recommendations_days; [constructor|].
    intros st f _.
    eapply sublist_NoDup; [|apply fmap_sublist, dayFor_shifts].
    rewrite <- list_fmap_compose.
    rewrite <- (take_drop (Z.to_nat (Staff.serversNeeded (Staff.coversOf f)))
                  (Staff.serversOf roster)) in Hnd.
    rewrite fmap_app in Hnd. apply NoDup_app in Hnd as [Hnd _]. exact Hnd. }
  split; [exact Hdays|].
  assert (Hu : Staff.hoursOf (Staff.staffUtilization out) sid
               = (9 * Z.of_nat (shiftCount sid
                      (Staff.recommendations out ≫= Staff.suggestedShifts)))%Z)
    by apply utilisation_balance.
  rewrite Hu.
  assert (Hlen : length (Staff.recommendations out) = length forecasts).
  { unfold out, Staff.optimize. cbn. rewrite scheduleDay_length. done. }
  rewrite <- Hlen.
  pose proof (shiftCount_le_days sid _ Hdays) as H.
  lia.
Qed.

Lemma one_shift_per_day_witness :
  Forall (λ d, NoDup (Staff.staffId <$> Staff.suggestedShifts d))
         (Staff.recommendations (Staff.optimize None five_days small_roster)) ∧
  (Staff.hoursOf
     (Staff.staffUtilization (Staff.optimize None five_days small_roster)) "s2"
   ≤ 9 * Z.of_nat (length five_days))%Z.
Proof.
  apply one_shift_per_day.
  apply (bool_decide_unpack _). vm_compute. exact I.
Defined.

(** X9.  The response has one recommendation per forecast row, in the
    order of the rows; its expected covers are the row's predicted covers,
    or 50 when they are null or 0, and its target headcounts are the
    least numbers of servers and cooks covering them at 20 and 40 covers
    per head, with one more for the host. *)
Theorem staffing_targets
    (c : option Staff.constraints) (forecasts : list Staff.demandForecast)
    (roster : list Staff.staff) :
  let recs := Staff.recommendations (Staff.optimize c forecasts roster) in
  (λ d, (Staff.date d, Staff.expectedCovers d)) <$> recs
    = (λ f, (Staff.forecastDate f, Staff.coversOf f)) <$> forecasts ∧
  Forall (λ d, Staff.expectedCovers d ≠ 0%Z ∧ headcountCovers d) recs.
Proof.
  unfold Staff.optimize. cbn. split.
  - assert (H : ∀ acc,
      (λ d, (Staff.date d, Staff.expectedCovers d))
        <$> (foldl (Staff.scheduleDay c roster) acc forecasts).1
      = ((λ d, (Staff.date d, Staff.expectedCovers d)) <$> acc.1)
        ++ ((λ f, (Staff.forecastDate f, Staff.coversOf f)) <$> forecasts)).
    { induction forecasts as [|f fs IH]; intros acc.
      - simpl. by rewrite app_nil_r.
      - cbn [foldl]. rewrite IH, scheduleDay_unfold. cbn [fst].
        rewrite fmap_app, <- app_assoc. done. }
    apply H.
  - apply recommendations_days; [constructor|].
    intros st f _. unfold dayFor, headcountCovers. cbn.
    split.
    + unfold Staff.coversOf. destruct (Staff.predictedCovers f) as [z|]; [|done].
      destruct (Z.eqb_spec z 0); [done|done].
    + unfold Staff.serversNeeded, Staff.cooksNeeded.
      destruct (ceil_spec (Staff.coversOf f) 20) as [? ?]; [lia|].
      destruct (ceil_spec (Staff.coversOf f) 40) as [? ?]; [lia|].
      split_and!; done.
Qed.

(** ** Cover forecast: the statistics of the history *)

Section ForecastHistory.
Import Forecast.
Context (tz : zone).

Lemma dailyCovers_lookup_from (m : gmap Z Z) (orders : list order) (d : Z) :
  foldl addOrder m orders !! d =
  if decide (d ∈ closedAt <$> orders)
  then Some (default 0 (m !! d) + guestsOn d orders)%Z
  else m !! d.
Proof.
  revert m. induction orders as [|o orders IH]; intros m.
  - rewrite fmap_nil, decide_False by apply not_elem_of_nil. done.
  - cbn [foldl]. rewrite IH. unfold guestsOn, ordersOn.
    rewrite fmap_cons, filter_cons. unfold addOrder at 1 2.
    destruct (decide (closedAt o = d)) as [Heq|Hne].
    + subst d. rewrite lookup_insert_eq. cbn [default foldr].
      rewrite (decide_True (P := _ ∈ _ :: _)) by left.
      case_decide as Hin; [f_equal; unfold id; lia|].
      f_equal.
      assert (filter (λ o', closedAt o' = closedAt o) orders = []) as ->.
      { destruct (filter _ orders) as [|o' k] eqn:E; [done|].
        assert (Ho' : o' ∈ filter (λ o', closedAt o' = closedAt o) orders)
          by (rewrite E; by left).
        apply list_elem_of_filter in Ho' as [Hd Ho'].
        destruct Hin. rewrite <- Hd. apply list_elem_of_fmap. by exists o'. }
      simpl. lia.
    + rewrite lookup_insert_ne by done.
      destruct (decide (d ∈ closedAt <$> orders)) as [Hin|Hnin].
      * by rewrite decide_True by (by right).
      * rewrite decide_False; [done|].
        intros [?|?]%elem_of_cons; congruence.
Qed.

Lemma dailyCovers_lookup (orders : list order) (d : Z) :
  dailyCovers orders !! d =
  if decide (d ∈ closedAt <$> orders) then Some (guestsOn d orders) else None.
Proof.
  unfold dailyCovers. rewrite dailyCovers_lookup_from, lookup_empty. done.
Qed.

Lemma pushCovers_lookup_from (m : gmap Z (list Z)) (l : list (Z * Z)) (w : Z) :
  foldl (pushCovers tz) m l !! w =
  if decide (w ∈ (λ e, getDayOfDate tz e.1) <$> l)
  then Some (default [] (m !! w) ++ (snd <$> filter (λ e, getDayOfDate tz e.1 = w) l))
  else m !! w.
Proof.
  revert m. induction l as [|e l IH]; intros m.
  - rewrite fmap_nil, decide_False by apply not_elem_of_nil. done.
  - cbn [foldl]. rewrite IH. rewrite fmap_cons, filter_cons.
    unfold pushCovers at 1 2. cbv zeta.
    destruct (decide (getDayOfDate tz e.1 = w)) as [Heq|Hne].
    + subst w. rewrite lookup_insert_eq. cbn [default].
      rewrite (decide_True (P := _ ∈ _ :: _)) by left.
      unfold id. rewrite fmap_cons, <- app_assoc. cbn [app].
      case_decide as Hin; [done|].
      f_equal. f_equal. f_equal.
      destruct (filter _ l) as [|e' k] eqn:E; [done|].
      assert (He' : e' ∈ filter (λ e', getDayOfDate tz e'.1 = getDayOfDate tz e.1) l)
        by (rewrite E; by left).
      apply list_elem_of_filter in He' as [Hd He'].
      destruct Hin. rewrite <- Hd. apply list_elem_of_fmap. by exists e'.
    + rewrite lookup_insert_ne by done.
      destruct (decide (w ∈ (λ e, getDayOfDate tz e.1) <$> l)) as [Hin|Hnin].
      * by rewrite decide_True by (by right).
      * rewrite decide_False; [done|].
        intros [?|?]%elem_of_cons; congruence.
Qed.

(** The daily covers of one weekday, in the order of the map. *)
Lemma weekday_entries (orders : list order) (w : Z) :
  filter (λ e : Z * Z, getDayOfDate tz e.1 = w) (map_to_list (dailyCovers orders))
  ≡ₚ (λ d, (d, guestsOn d orders)) <$> datesOn tz w orders.
Proof.
  apply NoDup_Permutation.
  - apply NoDup_filter, NoDup_map_to_list.
  - apply NoDup_fmap_2; [by intros d1 d2 [=]|].
    unfold datesOn. apply NoDup_filter, NoDup_remove_dups.
  - intros [d v]. split.
    + intros [Hw Hd]%list_elem_of_filter. cbn [fst] in Hw.
      apply elem_of_map_to_list in Hd. rewrite dailyCovers_lookup in Hd.
      case_decide as Hin; [|done]. injection Hd as <-.
      apply list_elem_of_fmap. exists d. split; [done|]. unfold datesOn.
      apply list_elem_of_filter. split; [done|]. by apply elem_of_remove_dups.
    + intros (d' & [= -> ->] & Hd')%list_elem_of_fmap. unfold datesOn in Hd'.
      apply list_elem_of_filter in Hd' as [Hw Hd'].
      apply (proj1 (elem_of_remove_dups _ _)) in Hd'.
      apply list_elem_of_filter. split; [done|].
      apply elem_of_map_to_list. rewrite dailyCovers_lookup.
      by rewrite decide_True.
Qed.

Lemma sumZ_total (values : list Z) : (sumZ values == total inject_Z values)%Q.
Proof.
  unfold sumZ.
  assert (H : ∀ a, (foldl (λ a b, a + inject_Z b) a values
                    == a + total inject_Z values)%Q).
  { induction values as [|v values IH]; intros a; simpl; [ring|].
    rewrite IH. ring. }
  rewrite H. ring.
Qed.

End ForecastHistory.

(** X10.  The daily covers are the guests of the orders closed on each
    date, an order without a guest count (null or 0) counting for one
    guest; a date without orders has no entry (it is not filled with 0). *)
Theorem daily_covers_by_date (orders : list Forecast.order) (d : Z) :
  Forecast.dailyCovers orders !! d =
  if decide (d ∈ Forecast.closedAt <$> orders)
  then Some (guestsOn d orders) else None.
Proof. apply dailyCovers_lookup. Qed.

(** X11.  A weekday has statistics exactly when some order of the history
    was closed on a date the handler files under it, which is the local
    weekday at midnight UTC of the date, whatever the time zone of the
    server; its mean is then the arithmetic mean of the daily covers of
    the dates of the history filed under this weekday. *)
Theorem weekday_mean_of_daily_covers
    (tz : Forecast.zone) (msqrt : Q → Q) (orders : list Forecast.order)
    (w : Z) :
  match datesOn tz w orders with
  | [] => Forecast.dowMeans tz msqrt orders !! w = None
  | _ :: _ =>
      ∃ s, Forecast.dowMeans tz msqrt orders !! w = Some s ∧
           (Forecast.mean s
            == total (λ d, inject_Z (guestsOn d orders)) (datesOn tz w orders)
               / inject_Z (Z.of_nat (length (datesOn tz w orders))))%Q
  end.
Proof.
  pose proof (weekday_entries tz orders w) as Hperm.
  unfold Forecast.dowMeans, Forecast.dowAverages.
  rewrite lookup_fmap, pushCovers_lookup_from, lookup_empty. cbn [default app].
  set (L := map_to_list (Forecast.dailyCovers orders)) in *.
  destruct (datesOn tz w orders) as [|d ds] eqn:E.
  - rewrite decide_False; [done|].
    intros (e & Hw & He)%list_elem_of_fmap.
    assert (e ∈ filter (λ e : Z * Z, Forecast.getDayOfDate tz e.1 = w) L)
      by (by apply list_elem_of_filter).
    rewrite Hperm in H. by apply elem_of_nil in H.
  - rewrite decide_True.
    + eexists. split; [reflexivity|]. cbn [Forecast.dowStats Forecast.mean].
      rewrite sumZ_total, length_fmap, total_fmap.
      rewrite (total_perm _ _ _ Hperm), (Permutation_length Hperm).
      rewrite total_fmap, length_fmap. reflexivity.
    + assert (Hin : (d, guestsOn d orders)
                    ∈ filter (λ e : Z * Z, Forecast.getDayOfDate tz e.1 = w) L).
      { rewrite Hperm. rewrite fmap_cons. by left. }
      apply list_elem_of_filter in Hin as [Hw Hin].
      apply list_elem_of_fmap. by exists (d, guestsOn d orders).
Qed.

(** ** Menu engineering: the metrics and the indices *)

Section MenuMetrics.
Import Menu.

Lemma entry_revenue (l : list orderItem) (m0 : metrics) :
  (revenue (foldl addTo m0 l) == revenue m0 + total oi_revenue l)%Q.
Proof.
  revert m0. induction l as [|oi l IH]; intros m0; simpl; [ring|].
  rewrite IH. simpl. ring.
Qed.

Lemma entry_cost (l : list orderItem) (m0 : metrics) :
  (cost (foldl addTo m0 l) == cost m0 + total oi_cost l)%Q.
Proof.
  revert m0. induction l as [|oi l IH]; intros m0; simpl; [ring|].
  rewrite IH. simpl. ring.
Qed.

Lemma total_sub {A} (f g : A → Q) (l : list A) :
  (total (λ x, f x - g x) l == total f l - total g l)%Q.
Proof. induction l as [|x l IH]; simpl; [ring|]. rewrite IH. ring. Qed.

Lemma metricsOf_entry (ois : list orderItem) (item : menuItem) :
  metricsOf ois item = entryOf (id item) noMetrics ois.
Proof.
  unfold metricsOf. rewrite itemMetrics_lookup.
  case_decide as Hin; [done|]. cbn [default].
  unfold entryOf. rewrite salesOf_none; [done|].
  unfold soldIds in Hin. intros H. apply Hin. by apply elem_of_remove_dups.
Qed.

(** [sum / length || 1] is a finite number other than 0. *)
Lemma avg_finite {A} (f : A → Q) (l : list A) :
  ∃ a, Js.or_else (Js.div (Js.Fin (sumOf f l)) (Js.Fin (lengthOf l))) (Js.Fin 1)
       = Js.Fin a ∧ ¬ (a == 0)%Q.
Proof.
  unfold Js.div, lengthOf.
  destruct (Qeq_bool (inject_Z (Z.of_nat (length l))) 0) eqn:En.
  - apply Qeq_bool_iff in En.
    assert (Hl : l = []).
    { destruct l; [done|]. exfalso. simpl length in En.
      unfold Qeq in En. cbn [Qnum Qden inject_Z] in En. lia. }
    subst l. simpl. exists 1%Q. split; [done|]. discriminate.
  - unfold Js.or_else, Js.truthy.
    destruct (Qeq_bool (sumOf f l / inject_Z (Z.of_nat (length l))) 0) eqn:Es; simpl.
    + exists 1%Q. split; [done|]. discriminate.
    + eexists. split; [reflexivity|]. by apply Qeq_bool_neq.
Qed.

Lemma div_finite (x a : Q) :
  ¬ (a == 0)%Q → Js.div (Js.Fin x) (Js.Fin a) = Js.Fin (x / a).
Proof.
  intros Ha. unfold Js.div.
  destruct (Qeq_bool a 0) eqn:E; [|done].
  apply Qeq_bool_iff in E. done.
Qed.

Lemma roundTo_finite (k x : Q) :
  ¬ (k == 0)%Q → isFin (roundTo k (Js.Fin x)).
Proof.
  intros Hk. unfold roundTo. cbn [Js.mul Js.round].
  rewrite div_finite by done. by eexists.
Qed.

Lemma popularity_finite (ois : list orderItem) (item : menuItem) :
  ∃ a, ¬ (a == 0)%Q ∧
       popularity ois item
       = Js.Fin (inject_Z (quantity (metricsOf ois item)) / a).
Proof.
  unfold popularity, avgQuantity. cbv zeta.
  destruct (avg_finite (λ m, inject_Z (quantity m)) (allMetrics ois))
    as (a & -> & Ha).
  exists a. split; [done|]. by apply div_finite.
Qed.

Lemma profitability_finite (ois : list orderItem) (item : menuItem) :
  ∃ b, ¬ (b == 0)%Q ∧
       profitability ois item = Js.Fin (profit (metricsOf ois item) / b).
Proof.
  unfold profitability, avgProfit. cbv zeta.
  destruct (avg_finite profit (allMetrics ois)) as (b & -> & Hb).
  exists b. split; [done|]. by apply div_finite.
Qed.

Lemma analysis_rows_finite
    (items : list menuItem) (orderItems : list orderItem) :
  Forall rowFinite (analysis items orderItems).
Proof.
  unfold Menu.analysis. apply Forall_fmap, Forall_forall. intros item _.
  destruct (popularity_finite orderItems item) as (a & Ha & Hpop).
  destruct (profitability_finite orderItems item) as (b & Hb & Hprof).
  unfold rowFinite, compose.
  cbn [Menu.analyse Menu.a_revenue Menu.a_profit Menu.contributionMargin
       Menu.popularityIndex Menu.profitabilityIndex].
  rewrite Hpop, Hprof.
  split_and!; apply roundTo_finite; discriminate.
Qed.

End MenuMetrics.

(** X12.  The metrics of an analysed item are the running totals of its
    sales in the period: quantity, revenue, cost and profit are the sums,
    taken in the order of the sales, of the quantity, the unit price
    times the quantity, the item cost times the quantity and the
    difference of these two over the order items of this menu item (all 0
    for an item without sales), and the reported [quantitySold] is that
    quantity. *)
Theorem item_metrics_are_totals
    (orderItems : list Menu.orderItem) (item : Menu.menuItem) :
  let m := Menu.metricsOf orderItems item in
  let sales := salesOf (Menu.id item) orderItems in
  (inject_Z (Menu.quantity m)
   == Menu.sumOf (λ oi, inject_Z (Menu.oi_quantity oi)) sales)%Q ∧
  (Menu.revenue m == Menu.sumOf Menu.oi_revenue sales)%Q ∧
  (Menu.cost m == Menu.sumOf Menu.oi_cost sales)%Q ∧
  (Menu.profit m
   == Menu.sumOf (λ oi, Menu.oi_revenue oi - Menu.oi_cost oi) sales)%Q ∧
  (sales = [] → m = Menu.noMetrics) ∧
  Menu.quantitySold (Menu.analyse orderItems item) = Menu.quantity m.
Proof.
  cbv zeta. rewrite metricsOf_entry. unfold entryOf.
  rewrite !sumOf_total.
  rewrite entry_quantity, entry_revenue, entry_cost, entry_profit.
  cbn [Menu.noMetrics Menu.quantity Menu.revenue Menu.cost Menu.profit].
  split_and!; try ring.
  - by intros ->.
  - cbn [Menu.analyse Menu.quantitySold]. by rewrite metricsOf_entry.
Qed.

(** X13.  An active menu item without a sale in the period is always
    classified Dog, with [quantitySold] 0, whatever the other items
    sold. *)
Theorem unsold_item_is_dog
    (orderItems : list Menu.orderItem) (item : Menu.menuItem) :
  Menu.id item ∉ Menu.menuItemId <$> orderItems →
  Menu.classification (Menu.analyse orderItems item) = "Dog" ∧
  Menu.quantitySold (Menu.analyse orderItems item) = 0%Z.
Proof.
  intros Hno.
  assert (Hm : Menu.metricsOf orderItems item = Menu.noMetrics).
  { rewrite metricsOf_entry. unfold entryOf. by rewrite salesOf_none. }
  destruct (popularity_finite orderItems item) as (a & Ha & Hpop).
  destruct (profitability_finite orderItems item) as (b & Hb & Hprof).
  rewrite Hm in Hpop, Hprof.
  change (inject_Z (Menu.quantity Menu.noMetrics)) with 0%Q in Hpop.
  change (Menu.profit Menu.noMetrics) with 0%Q in Hprof.
  cbn [Menu.analyse Menu.classification Menu.quantitySold].
  rewrite Hm. split; [|done].
  unfold Menu.classify. rewrite Hpop, Hprof. cbn [Js.ge Js.lt].
  assert (E1 : Qle_bool 1 (0 / a) = false).
  { destruct (Qle_bool 1 (0 / a)) eqn:E; [|done].
    apply Qle_bool_iff in E. exfalso.
    assert (0 / a == 0)%Q by (field; done). lra. }
  assert (E2 : Qle_bool 1 (0 / b) = false).
  { destruct (Qle_bool 1 (0 / b)) eqn:E; [|done].
    apply Qle_bool_iff in E. exfalso.
    assert (0 / b == 0)%Q by (field; done). lra. }
  rewrite E1, E2. cbn. by rewrite andb_false_r.
Qed.

Lemma unsold_item_is_dog_witness :
  Menu.classification (Menu.analyse rounding_sales unsold_item) = "Dog" ∧
  Menu.quantitySold (Menu.analyse rounding_sales unsold_item) = 0%Z.
Proof.
  apply unsold_item_is_dog.
  apply (bool_decide_unpack _). vm_compute. exact I.
Defined.

(** X14.  Every number of the menu analysis is finite: for no set of
    items and no sales does a row carry NaN or an infinity in its
    revenue, profit, contribution margin, popularity index or
    profitability index. *)
Theorem analysis_numbers_finite
    (items : list Menu.menuItem) (orderItems : list Menu.orderItem) :
  Forall rowFinite (Menu.analysis items orderItems).
Proof. apply analysis_rows_finite. Qed.

(** ** Sorting with a comparator *)

Section SortByKey.
Context {A : Type} (cmp : A → A → Js.num) (key : A → Q) (P : A → Prop).
Hypothesis Hcmp : ordersBy cmp key P.

Lemma insert_perm (x : A) (l : list A) : JsArray.insert cmp x l ≡ₚ x :: l.
Proof.
  induction l as [|y l IH]; simpl; [done|].
  destruct (JsArray.after (cmp x y)); [|done].
  rewrite IH. apply Permutation_swap.
Qed.

Lemma sort_perm (l : list A) : JsArray.sort cmp l ≡ₚ l.
Proof.
  induction l as [|x l IH]; simpl; [done|]. by rewrite insert_perm, IH.
Qed.

Lemma insert_sorted (x : A) (l : list A) :
  P x → Forall P l →
  StronglySorted (λ a b, key a <= key b)%Q l →
  StronglySorted (λ a b, key a <= key b)%Q (JsArray.insert cmp x l).
Proof.
  intros Hx HP Hl. induction Hl as [|y l Hl IH Hy]; simpl.
  - repeat constructor.
  - apply Forall_cons in HP as [HPy HP].
    destruct (JsArray.after (cmp x y)) eqn:E.
    + apply (Hcmp x y Hx HPy) in E.
      constructor; [by apply IH|].
      rewrite insert_perm. constructor; [lra|done].
    + assert (Hxy : (key x <= key y)%Q).
      { apply Qnot_lt_le. intros Hlt. apply (Hcmp x y Hx HPy) in Hlt.
        congruence. }
      constructor; [by constructor|].
      constructor; [done|].
      eapply Forall_impl; [exact Hy|]. intros z Hz. simpl in Hz. lra.
Qed.

Lemma sort_sorted (l : list A) :
  Forall P l → StronglySorted (λ a b, key a <= key b)%Q (JsArray.sort cmp l).
Proof.
  induction 1 as [|x l Hx HP IH]; simpl; [constructor|].
  apply insert_sorted; [done| |done].
  by rewrite sort_perm.
Qed.

(** The first element of the sorted array has the least key. *)
Lemma sort_head_least (l : list A) (h : A) :
  Forall P l → head (JsArray.sort cmp l) = Some h →
  h ∈ l ∧ Forall (λ y, key h <= key y)%Q l.
Proof.
  intros HP Hh. pose proof (sort_sorted l HP) as Hs.
  pose proof (sort_perm l) as Hperm.
  destruct (JsArray.sort cmp l) as [|h' t]; [done|]. injection Hh as ->.
  split.
  - rewrite <- Hperm. by left.
  - rewrite <- Hperm. apply StronglySorted_cons in Hs as [Hh _].
    constructor; [lra|done].
Qed.

End SortByKey.

Lemma sort_nil_iff {A} (cmp : A → A → Js.num) (l : list A) :
  JsArray.sort cmp l = [] ↔ l = [].
Proof.
  split; [|by intros ->].
  intros H. pose proof (sort_perm cmp l) as Hp. rewrite H in Hp.
  by apply Permutation_nil_l in Hp.
Qed.

(** ** Menu recommendations *)

Section Advice.
Import MenuAdvice.

Lemma class_advice {B} (f : Menu.analysisRow → list B)
    (cmp : Menu.analysisRow → Menu.analysisRow → Js.num)
    (l : list Menu.analysisRow) :
  (∀ a, length (f a) = 1%nat) →
  length (if decide (0 < length l)%nat
          then from_option f [] (head (JsArray.sort cmp l)) else [])
  = (if decide (l ≠ []) then 1 else 0)%nat.
Proof.
  intros Hf. destruct l as [|a l].
  - by rewrite decide_False by (simpl; lia).
  - rewrite decide_True by (simpl; lia). rewrite (decide_True (P := _ ≠ _)) by done.
    destruct (JsArray.sort cmp (a :: l)) as [|h t] eqn:E.
    + by apply sort_nil_iff in E.
    + simpl. apply Hf.
Qed.

Lemma advice_length show (analysis : list Menu.analysisRow) :
  length (advice show analysis) = actionableClasses analysis.
Proof.
  unfold advice, worstDog, topPlowhorse, topPuzzle.
  rewrite !length_app, !class_advice by done.
  unfold actionableClasses. rewrite !filter_cons, filter_nil.
  repeat case_decide; done.
Qed.

Lemma class_advice_not_balanced (f : Menu.analysisRow → string) (b : bool)
    (o : option Menu.analysisRow) :
  (∀ a, f a ≠ balanced) →
  Forall (λ s, s ≠ balanced)
         (if b then from_option (λ a, [f a]) [] o else []).
Proof.
  intros Hf. destruct b, o; simpl; repeat constructor. apply Hf.
Qed.

Lemma advice_not_balanced show (analysis : list Menu.analysisRow) :
  Forall (λ s, s ≠ balanced) (advice show analysis).
Proof.
  unfold advice. rewrite !Forall_app. split_and!.
  - destruct (decide (0 < _)%nat);
      [apply (class_advice_not_balanced _ true)
      |apply (class_advice_not_balanced dogAdvice false None)];
      intros a; unfold dogAdvice, balanced; simpl; discriminate.
  - destruct (decide (0 < _)%nat);
      [apply (class_advice_not_balanced _ true)
      |apply (class_advice_not_balanced (plowhorseAdvice show) false None)];
      intros a; unfold plowhorseAdvice, balanced, quote; simpl; discriminate.
  - destruct (decide (0 < _)%nat);
      [apply (class_advice_not_balanced _ true)
      |apply (class_advice_not_balanced puzzleAdvice false None)];
      intros a; unfold puzzleAdvice, balanced, quote; simpl; discriminate.
Qed.

(** The rows of an analysis report finite profits. *)
Lemma analysis_profit_finite items ois (a : Menu.analysisRow) :
  a ∈ Menu.analysis items ois → Menu.a_profit a = Js.Fin (reportedProfit a).
Proof.
  intros Ha. pose proof (analysis_rows_finite items ois) as Hfin.
  eapply Forall_forall in Hfin; [|exact Ha].
  destruct Hfin as (_ & [q Hq] & _). unfold reportedProfit. by rewrite Hq.
Qed.

End Advice.

(** X15.  [generateMenuRecommendations] returns between one and three
    messages: one for each of the classes Dog, Plowhorse and Puzzle that
    has an item, in this order, and the single well-balanced message
    exactly when none of the three classes has an item. *)
Theorem recommendations_per_class
    (show : Js.num → string) (analysis : list Menu.analysisRow) :
  let recs := MenuAdvice.generateMenuRecommendations show analysis in
  length recs = Nat.max 1 (actionableClasses analysis) ∧
  (1 ≤ length recs ≤ 3)%nat ∧
  (actionableClasses analysis = 0%nat ↔ recs = [MenuAdvice.balanced]).
Proof.
  cbv zeta. unfold MenuAdvice.generateMenuRecommendations. cbv zeta.
  pose proof (advice_length show analysis) as Hlen.
  assert (Hmax : (actionableClasses analysis ≤ 3)%nat).
  { unfold actionableClasses.
    etrans; [apply length_filter|]. done. }
  case_decide as H0.
  - rewrite Hlen in H0. rewrite H0. simpl. split_and!; try done; lia.
  - rewrite Hlen in H0 |- *. split_and!; try lia.
    split; [done|]. intros Heq.
    pose proof (advice_not_balanced show analysis) as Hnb.
    rewrite Heq in Hnb. apply Forall_cons in Hnb as [Hnb _]. done.
Qed.

Section AdvicePicks.
Import MenuAdvice.

Lemma byProfitAsc_orders :
  ordersBy byProfitAsc reportedProfit
           (λ a, Menu.a_profit a = Js.Fin (reportedProfit a)).
Proof.
  intros x y Hx Hy. unfold byProfitAsc, JsArray.after. rewrite Hx, Hy.
  cbn [JsArray.sub Js.lt]. rewrite Qlt_bool_iff. split; intros; lra.
Qed.

Lemma byProfitDesc_orders :
  ordersBy byProfitDesc (λ a, - reportedProfit a)%Q
           (λ a, Menu.a_profit a = Js.Fin (reportedProfit a)).
Proof.
  intros x y Hx Hy. unfold byProfitDesc, JsArray.after. rewrite Hx, Hy.
  cbn [JsArray.sub Js.lt]. rewrite Qlt_bool_iff. split; intros; lra.
Qed.

Lemma byQuantityDesc_orders :
  ordersBy byQuantityDesc (λ a, - inject_Z (Menu.quantitySold a))%Q (λ _, True).
Proof.
  intros x y _ _. unfold byQuantityDesc, JsArray.after.
  cbn [Js.lt]. rewrite Qlt_bool_iff. split; intros; lra.
Qed.

Lemma ofClass_finite items ois (label : string) :
  Forall (λ a, Menu.a_profit a = Js.Fin (reportedProfit a))
         (ofClass label (Menu.analysis items ois)).
Proof.
  apply Forall_forall. intros a [_ Ha]%list_elem_of_filter.
  by eapply analysis_profit_finite.
Qed.

Lemma head_sort_none {A} (cmp : A → A → Js.num) (l : list A) :
  head (JsArray.sort cmp l) = None → l = [].
Proof.
  intros H. apply (sort_nil_iff cmp).
  by destruct (JsArray.sort cmp l).
Qed.

End AdvicePicks.

(** X16.  For the rows of a menu analysis, the Dog the recommendations
    name is a Dog of least reported profit and its message comes first;
    the Plowhorse named is one of greatest quantity sold and the Puzzle
    named one of greatest reported profit; a class is passed over only
    when it has no item. *)
Theorem recommendations_name_extremes
    (show : Js.num → string) (items : list Menu.menuItem)
    (orderItems : list Menu.orderItem) :
  let an := Menu.analysis items orderItems in
  match MenuAdvice.worstDog an with
  | Some w =>
      w ∈ MenuAdvice.ofClass "Dog" an ∧
      Forall (λ d, reportedProfit w <= reportedProfit d)%Q
             (MenuAdvice.ofClass "Dog" an) ∧
      head (MenuAdvice.generateMenuRecommendations show an)
        = Some (MenuAdvice.dogAdvice w)
  | None => MenuAdvice.ofClass "Dog" an = []
  end ∧
  match MenuAdvice.topPlowhorse an with
  | Some t =>
      t ∈ MenuAdvice.ofClass "Plowhorse" an ∧
      Forall (λ d, (Menu.quantitySold d ≤ Menu.quantitySold t)%Z)
             (MenuAdvice.ofClass "Plowhorse" an) ∧
      MenuAdvice.plowhorseAdvice show t
        ∈ MenuAdvice.generateMenuRecommendations show an
  | None => MenuAdvice.ofClass "Plowhorse" an = []
  end ∧
  match MenuAdvice.topPuzzle an with
  | Some t =>
      t ∈ MenuAdvice.ofClass "Puzzle" an ∧
      Forall (λ d, reportedProfit d <= reportedProfit t)%Q
             (MenuAdvice.ofClass "Puzzle" an) ∧
      MenuAdvice.puzzleAdvice t
        ∈ MenuAdvice.generateMenuRecommendations show an
  | None => MenuAdvice.ofClass "Puzzle" an = []
  end.
Proof.
  intros an.
  assert (Hrecs : ∀ s, s ∈ MenuAdvice.advice show an →
                       s ∈ MenuAdvice.generateMenuRecommendations show an).
  { intros s Hs. unfold MenuAdvice.generateMenuRecommendations. cbv zeta.
    case_decide as H0; [|done].
    destruct (MenuAdvice.advice show an); [by apply elem_of_nil in Hs|done]. }
  assert (Hpos : ∀ (x : Menu.analysisRow) l, x ∈ l → (0 < length l)%nat).
  { intros x [|y l] Hx; [by apply elem_of_nil in Hx|simpl; lia]. }
  split_and!.
  - destruct (MenuAdvice.worstDog an) as [w|] eqn:E;
      [|by apply head_sort_none in E].
    destruct (sort_head_least _ _ _ byProfitAsc_orders _ w
                (ofClass_finite items orderItems "Dog") E) as [Hin Hle].
    split_and!; [done|done|].
    unfold MenuAdvice.generateMenuRecommendations, MenuAdvice.advice. cbv zeta.
    rewrite E.
    rewrite (decide_True (P := (0 < _)%nat))
      by (by eapply Hpos).
    simpl. done.
  - destruct (MenuAdvice.topPlowhorse an) as [t|] eqn:E;
      [|by apply head_sort_none in E].
    destruct (sort_head_least _ _ _ byQuantityDesc_orders
                (MenuAdvice.ofClass "Plowhorse" an) t) as [Hin Hle];
      [by apply Forall_forall|done|].
    split_and!; [done| |].
    + eapply Forall_impl; [exact Hle|]. intros d Hd. simpl in Hd.
      rewrite Zle_Qle. lra.
    + apply Hrecs. unfold MenuAdvice.advice. rewrite E.
      rewrite (decide_True (P := (0 < length (MenuAdvice.ofClass "Plowhorse" an))%nat))
        by (by eapply Hpos).
      apply elem_of_app. right. apply elem_of_app. left. simpl. by left.
  - destruct (MenuAdvice.topPuzzle an) as [t|] eqn:E;
      [|by apply head_sort_none in E].
    destruct (sort_head_least _ _ _ byProfitDesc_orders _ t
                (ofClass_finite items orderItems "Puzzle") E) as [Hin Hle].
    split_and!; [done| |].
    + eapply Forall_impl; [exact Hle|]. intros d Hd. simpl in Hd. lra.
    + apply Hrecs. unfold MenuAdvice.advice. rewrite E.
      rewrite (decide_True (P := (0 < length (MenuAdvice.ofClass "Puzzle" an))%nat))
        by (by eapply Hpos).
      apply elem_of_app. right. apply elem_of_app. right. simpl. by left.
Qed.

(** ** Maps and sets in insertion order *)

Section InsertionSet.
Context {T : Type} `{EqDecision T}.

Lemma add_elem_of (s : list T) (x y : T) :
  y ∈ JsSet.add s x ↔ y ∈ s ∨ y = x.
Proof.
  unfold JsSet.add. destruct (decide (x ∈ s)) as [Hin|Hnin].
  - split; [tauto|]. intros [?| ->]; done.
  - rewrite elem_of_app, list_elem_of_singleton. done.
Qed.

Lemma add_NoDup (s : list T) (x : T) :
  NoDup s → NoDup (JsSet.add s x).
Proof.
  intros Hnd. unfold JsSet.add. destruct (decide (x ∈ s)) as [Hin|Hnin]; [done|].
  apply NoDup_app. split_and!; [done| |apply NoDup_singleton].
  intros y Hy ->%list_elem_of_singleton. done.
Qed.

Lemma adds_elem_of (s xs : list T) (y : T) :
  y ∈ foldl JsSet.add s xs ↔ y ∈ s ∨ y ∈ xs.
Proof.
  revert s. induction xs as [|x xs IH]; intros s; simpl.
  - rewrite elem_of_nil. tauto.
  - rewrite IH, add_elem_of, elem_of_cons. tauto.
Qed.

Lemma adds_NoDup (s xs : list T) :
  NoDup s → NoDup (foldl JsSet.add s xs).
Proof.
  revert s. induction xs as [|x xs IH]; intros s Hnd; simpl; [done|].
  by apply IH, add_NoDup.
Qed.

Lemma distinct_elem_of (xs : list T) (y : T) :
  y ∈ JsSet.distinct xs ↔ y ∈ xs.
Proof.
  unfold JsSet.distinct. rewrite adds_elem_of, elem_of_nil. tauto.
Qed.

Lemma distinct_NoDup (xs : list T) : NoDup (JsSet.distinct xs).
Proof. apply adds_NoDup, NoDup_nil_2. Qed.

Lemma adds_firstSeen (s xs : list T) :
  foldl JsSet.add s xs = s ++ filter (λ y, y ∉ s) (firstSeen xs).
Proof.
  revert s. induction xs as [|x xs IH]; intros s; cbn [foldl firstSeen].
  - by rewrite filter_nil, app_nil_r.
  - rewrite IH. unfold JsSet.add. rewrite filter_cons.
    destruct (decide (x ∈ s)) as [Hin|Hnin].
    + rewrite decide_False by (by intros H; apply H). f_equal.
      rewrite list_filter_filter. apply list_filter_iff.
      intros y. split; [|tauto]. intros Hy. split; [done|]. by intros ->.
    + rewrite decide_True by done. rewrite <- app_assoc. cbn [app]. do 2 f_equal.
      rewrite list_filter_filter. apply list_filter_iff.
      intros y. rewrite not_elem_of_app, list_elem_of_singleton. tauto.
Qed.

(** A set lists its elements in the order of their first insertion. *)
Lemma distinct_firstSeen (xs : list T) : JsSet.distinct xs = firstSeen xs.
Proof.
  unfold JsSet.distinct. rewrite adds_firstSeen. cbn [app].
  induction (firstSeen xs) as [|y l IH]; [done|].
  rewrite filter_cons, decide_True by apply not_elem_of_nil. by rewrite IH.
Qed.

End InsertionSet.

Section InsertionOrder.
Context {K V A : Type} `{EqDecision K}.
Implicit Types (m : list (K * V)) (k : K) (v : V).

Lemma get_set_eq m k v : JsMap.get (JsMap.set m k v) k = Some v.
Proof.
  induction m as [|[k' v'] m IH]; simpl.
  - by rewrite decide_True.
  - destruct (decide (k' = k)) as [->|Hne]; simpl.
    + by rewrite decide_True.
    + by rewrite decide_False.
Qed.

Lemma get_set_ne m k k' v :
  k ≠ k' → JsMap.get (JsMap.set m k v) k' = JsMap.get m k'.
Proof.
  intros Hne. induction m as [|[k0 v0] m IH]; simpl.
  - by rewrite decide_False.
  - destruct (decide (k0 = k)) as [->|Hne0]; simpl.
    + by rewrite !decide_False.
    + by rewrite IH.
Qed.

Lemma get_None m k : JsMap.get m k = None ↔ k ∉ m.*1.
Proof.
  induction m as [|[k' v'] m IH]; simpl.
  - split; [intros _; apply not_elem_of_nil|done].
  - rewrite not_elem_of_cons. destruct (decide (k' = k)) as [->|Hne].
    + split; [done|]. intros [? _]. done.
    + rewrite IH. split; [intros ?; split; [congruence|done]|tauto].
Qed.

Lemma get_Some_elem m k v : JsMap.get m k = Some v → (k, v) ∈ m.
Proof.
  induction m as [|[k' v'] m IH]; simpl; [done|].
  destruct (decide (k' = k)) as [->|Hne].
  - intros [= ->]. apply elem_of_cons. by left.
  - intros H'. apply elem_of_cons. right. by apply IH.
Qed.

Lemma elem_get_Some m k v : NoDup m.*1 → (k, v) ∈ m → JsMap.get m k = Some v.
Proof.
  induction m as [|[k' v'] m IH]; simpl.
  - intros _ Hin. by apply elem_of_nil in Hin.
  - intros [Hk Hnd]%NoDup_cons [Heq|Hin]%elem_of_cons.
    + injection Heq as -> ->. by rewrite decide_True.
    + rewrite decide_False; [by apply IH|].
      intros ->. apply Hk. apply list_elem_of_fmap. by exists (k, v).
Qed.

Lemma keys_set m k v : (JsMap.set m k v).*1 = JsSet.add m.*1 k.
Proof.
  unfold JsSet.add. induction m as [|[k' v'] m IH]; csimpl.
  - done.
  - destruct (decide (k' = k)) as [->|Hne]; csimpl.
    + rewrite decide_True by (apply elem_of_cons; by left). done.
    + rewrite IH. destruct (decide (k ∈ m.*1)) as [Hin|Hnin].
      * rewrite decide_True by (apply elem_of_cons; by right). done.
      * rewrite decide_False; [done|].
        intros [?|?]%elem_of_cons; congruence.
Qed.

(** Replacing or adding one value changes the total by the difference. *)
Lemma total_set (μ : V → Q) m k v :
  (total (μ ∘ snd) (JsMap.set m k v)
   == total (μ ∘ snd) m - from_option μ 0 (JsMap.get m k) + μ v)%Q.
Proof.
  induction m as [|[k' v'] m IH]; simpl.
  - ring.
  - destruct (decide (k' = k)) as [->|Hne]; simpl.
    + ring.
    + rewrite IH. ring.
Qed.

Section Accumulate.
Context (key : A → K) (init : A → V) (f : V → A → V).

Lemma accumulate_keys m (xs : list A) :
  (foldl (JsMap.accumulate key init f) m xs).*1
  = foldl JsSet.add m.*1 (key <$> xs).
Proof.
  revert m. induction xs as [|x xs IH]; intros m; simpl; [done|].
  rewrite IH. unfold JsMap.accumulate. by rewrite keys_set.
Qed.

Lemma accumulate_get m (xs : list A) k :
  JsMap.get (foldl (JsMap.accumulate key init f) m xs) k
  = match JsMap.get m k with
    | Some v => Some (foldl f v (filter (λ x, key x = k) xs))
    | None => JsMap.fold1 init f (filter (λ x, key x = k) xs)
    end.
Proof.
  revert m. induction xs as [|x xs IH]; intros m; simpl.
  - by destruct (JsMap.get m k).
  - rewrite IH. unfold JsMap.accumulate.
    destruct (decide (key x = k)) as [<-|Hne].
    + rewrite filter_cons_True by done. rewrite get_set_eq.
      by destruct (JsMap.get m (key x)).
    + rewrite filter_cons_False by done. by rewrite get_set_ne.
Qed.

Lemma accumulate_total (μ : V → Q) (w : A → Q) m (xs : list A) :
  (∀ x, μ (init x) == 0)%Q → (∀ v x, μ (f v x) == μ v + w x)%Q →
  (total (μ ∘ snd) (foldl (JsMap.accumulate key init f) m xs)
   == total (μ ∘ snd) m + total w xs)%Q.
Proof.
  intros Hinit Hf. revert m. induction xs as [|x xs IH]; intros m; simpl.
  - ring.
  - rewrite IH. unfold JsMap.accumulate. rewrite total_set, Hf.
    destruct (JsMap.get m (key x)) as [v|]; simpl.
    + ring.
    + rewrite Hinit. ring.
Qed.

Lemma groupBy_keys (xs : list A) :
  (JsMap.groupBy key init f xs).*1 = JsSet.distinct (key <$> xs).
Proof. apply (accumulate_keys []). Qed.

Lemma groupBy_NoDup (xs : list A) : NoDup (JsMap.groupBy key init f xs).*1.
Proof. rewrite groupBy_keys. apply distinct_NoDup. Qed.

Lemma groupBy_key_elem_of (xs : list A) k :
  k ∈ (JsMap.groupBy key init f xs).*1 ↔ k ∈ key <$> xs.
Proof. rewrite groupBy_keys. apply distinct_elem_of. Qed.

Lemma groupBy_get (xs : list A) k :
  JsMap.get (JsMap.groupBy key init f xs) k
  = JsMap.fold1 init f (filter (λ x, key x = k) xs).
Proof. apply (accumulate_get []). Qed.

Lemma groupBy_entry (xs : list A) k v :
  (k, v) ∈ JsMap.groupBy key init f xs ↔
  JsMap.fold1 init f (filter (λ x, key x = k) xs) = Some v.
Proof.
  rewrite <- groupBy_get. split.
  - apply elem_get_Some, groupBy_NoDup.
  - apply get_Some_elem.
Qed.

Lemma groupBy_total (μ : V → Q) (w : A → Q) (xs : list A) :
  (∀ x, μ (init x) == 0)%Q → (∀ v x, μ (f v x) == μ v + w x)%Q →
  (total (μ ∘ snd) (JsMap.groupBy key init f xs) == total w xs)%Q.
Proof.
  intros Hinit Hf. unfold JsMap.groupBy.
  rewrite (accumulate_total μ w) by done. simpl. ring.
Qed.

End Accumulate.
End InsertionOrder.

(** ** Item-level forecast *)

Section ItemForecastFacts.
Import ItemForecast.
Context (getDay : Z → Z).

Lemma round_fin_comp (a b : Q) : (a == b)%Q → Js.round_fin a = Js.round_fin b.
Proof. intros H. unfold Js.round_fin. apply Qfloor_comp. by rewrite H. Qed.

Lemma tally_flat (orders : list order) (m : list (string * ratioEntry)) (c : Z) :
  foldl addOrder (m, c) orders
  = (foldl addItem m (orders ≫= orderItems),
     (c + foldr (λ o s, guestsOr1 o + s) 0 orders)%Z).
Proof.
  revert m c. induction orders as [|o orders IH]; intros m c.
  - simpl. f_equal. lia.
  - cbn [foldl foldr]. unfold addOrder at 2. cbn [fst snd].
    rewrite IH, bind_cons, foldl_app. f_equal. lia.
Qed.

Lemma tally_spec (fd : Z) (hist : list order) :
  tally (sameDowOrders getDay fd hist)
  = (JsMap.groupBy menuItemId
       (λ oi, {| name := nameOf oi; ratio := 0 |})
       (λ existing oi, {| name := name existing;
                          ratio := ratio existing + inject_Z (quantity oi) |})
       (soldOn getDay fd hist),
     coversOn getDay fd hist).
Proof. unfold tally. by rewrite tally_flat. Qed.

Lemma ratio_foldl (e : ratioEntry) (l : list orderItem) :
  (ratio (foldl (λ existing oi,
                   {| name := name existing;
                      ratio := ratio existing + inject_Z (quantity oi) |}) e l)
   == ratio e + total (λ oi, inject_Z (quantity oi)) l)%Q.
Proof.
  revert e. induction l as [|oi l IH]; intros e; simpl; [ring|].
  rewrite IH. simpl. ring.
Qed.

Lemma totals_entry (fd : Z) (hist : list order) (i : string) (e : ratioEntry) :
  (i, e) ∈ (tally (sameDowOrders getDay fd hist)).1 →
  i ∈ menuItemId <$> soldOn getDay fd hist ∧ (ratio e == soldQuantity getDay fd hist i)%Q.
Proof.
  rewrite tally_spec. cbn [fst]. intros Hin. split.
  - eapply groupBy_key_elem_of, list_elem_of_fmap. by exists (i, e).
  - apply groupBy_entry in Hin. unfold soldQuantity.
    destruct (filter _ (soldOn getDay fd hist)) as [|oi l]; [done|].
    injection Hin as <-. rewrite ratio_foldl. simpl. ring.
Qed.

Lemma totals_keys (fd : Z) (hist : list order) (i : string) :
  i ∈ (tally (sameDowOrders getDay fd hist)).1.*1 ↔ i ∈ menuItemId <$> soldOn getDay fd hist.
Proof. rewrite tally_spec. apply groupBy_key_elem_of. Qed.

Lemma totals_NoDup (fd : Z) (hist : list order) :
  NoDup (tally (sameDowOrders getDay fd hist)).1.*1.
Proof. rewrite tally_spec. apply groupBy_NoDup. Qed.

(** What [forecastOf] after [toRatio] predicts for an entry of the
    totals. *)
Lemma predicted_entry (covers : Q) (fd : Z) (hist : list order) (i : string)
    (e : ratioEntry) :
  (i, e) ∈ (tally (sameDowOrders getDay fd hist)).1 →
  predictedQuantity
    (forecastOf covers (toRatio (tally (sameDowOrders getDay fd hist)).2 (i, e)))
  = if decide (0 < coversOn getDay fd hist)%Z
    then scaledQuantity getDay covers fd hist i else 0%Z.
Proof.
  intros [_ He]%totals_entry. rewrite tally_spec. cbn [snd fst].
  unfold forecastOf, toRatio. cbn [predictedQuantity ratio snd fst].
  destruct (decide (0 < coversOn getDay fd hist)%Z) as [Hpos|Hneg].
  - rewrite (proj2 (Z.ltb_lt _ _)) by done. unfold scaledQuantity.
    apply round_fin_comp. by rewrite He.
  - rewrite (proj2 (Z.ltb_ge _ _)) by lia. apply (round_fin_eq _ 0).
    change (inject_Z 0) with 0%Q. ring.
Qed.

Lemma forecasts_perm (covers : Q) (fd : Z) (hist : list order) :
  itemForecasts getDay covers fd hist
  ≡ₚ filter (λ f, (0 < predictedQuantity f)%Z)
       (forecastOf covers <$>
          (toRatio (tally (sameDowOrders getDay fd hist)).2
             <$> (tally (sameDowOrders getDay fd hist)).1)).
Proof. apply sort_perm. Qed.

Lemma forecast_ids (covers : Q) (c : Z) (m : list (string * ratioEntry)) :
  f_menuItemId <$> (forecastOf covers <$> (toRatio c <$> m)) = m.*1.
Proof.
  rewrite <- !list_fmap_compose. apply list_fmap_ext. by intros _ [i e] _.
Qed.

Lemma forecast_order :
  ordersBy byQuantityDesc (λ f, - inject_Z (predictedQuantity f))%Q (λ _, True).
Proof.
  intros x y _ _. unfold byQuantityDesc, JsArray.after.
  cbn [Js.lt]. rewrite Qlt_bool_iff. split; intros; lra.
Qed.

End ItemForecastFacts.

Section ItemForecastEntries.
Import ItemForecast.
Context (getDay : Z → Z).

(** The forecasts before sorting, one by one. *)
Lemma forecast_elem_of (covers : Q) (fd : Z) (hist : list order)
    (f : itemForecast) :
  f ∈ itemForecasts getDay covers fd hist ↔
  ∃ e, (f_menuItemId f, e) ∈ (tally (sameDowOrders getDay fd hist)).1 ∧
       f = forecastOf covers
             (toRatio (tally (sameDowOrders getDay fd hist)).2 (f_menuItemId f, e)) ∧
       (0 < coversOn getDay fd hist)%Z ∧
       predictedQuantity f = scaledQuantity getDay covers fd hist (f_menuItemId f) ∧
       (0 < scaledQuantity getDay covers fd hist (f_menuItemId f))%Z.
Proof.
  rewrite forecasts_perm. split.
  - intros [Hpos Hin]%list_elem_of_filter.
    apply list_elem_of_fmap in Hin as [ie [Hf Hin]].
    apply list_elem_of_fmap in Hin as [[i' e'] [-> Hin]].
    subst f.
    pose proof (predicted_entry getDay covers fd hist i' e' Hin) as Hp.
    exists e'.
    change (f_menuItemId (forecastOf covers (toRatio ?c (i', e')))) with i'.
    destruct (decide (0 < coversOn getDay fd hist)%Z) as [Hc|Hc].
    + split_and!; [done|done|done|exact Hp|].
      rewrite <- Hp. exact Hpos.
    + rewrite Hp in Hpos. lia.
  - intros (e & Hin & Hf & Hc & Hp & Hpos). apply list_elem_of_filter.
    split; [lia|]. rewrite Hf at 1.
    apply list_elem_of_fmap_2, list_elem_of_fmap_2. exact Hin.
Qed.

Lemma coversFor_nonzero (expected : option Q)
    (coverForecast : option Forecast.forecastRow) :
  ¬ (coversFor expected coverForecast == 0)%Q.
Proof.
  assert (Hs : ¬ (storedCovers coverForecast == 0)%Q).
  { unfold storedCovers. destruct coverForecast as [row|]; [|done].
    destruct (Z.eqb_spec (Forecast.row_predictedCovers row) 0) as [|Hne];
      [done|].
    intros H. apply Hne. unfold Qeq in H. cbn [Qnum Qden inject_Z] in H. lia. }
  unfold coversFor. destruct expected as [c|]; [|done].
  destruct (Qeq_bool c 0) eqn:E; [done|].
  by apply Qeq_bool_neq.
Qed.

End ItemForecastEntries.

(** X17.  The item forecast scales the history of the local weekday of
    the forecast date to the expected covers.  Every entry is for a menu
    item sold on that weekday, predicts a positive quantity, and this
    quantity is less than one unit away from the quantity sold per cover
    of those orders times the expected covers; every item for which that
    number is at least 1 has an entry; no item has two entries; the
    entries come by decreasing predicted quantity.  The expected covers
    are never 0. *)
Theorem item_forecast_scales_history
    (getDay : Z → Z) (restaurantId : string) (forecastDate : Z)
    (expected : option Q) (coverForecast : option Forecast.forecastRow)
    (historicalOrders : list ItemForecast.order)
    (db : gmap (string * string * Z) Z) :
  let r := (ItemForecast.items getDay restaurantId forecastDate expected
              coverForecast historicalOrders db).1 in
  let covers := ItemForecast.expectedCovers r in
  let fs := ItemForecast.forecasts r in
  let sold :=
    ItemForecast.menuItemId <$> soldOn getDay forecastDate historicalOrders in
  let x := scaled getDay covers forecastDate historicalOrders in
  ¬ (covers == 0)%Q ∧
  NoDup (ItemForecast.f_menuItemId <$> fs) ∧
  StronglySorted (λ a b, (ItemForecast.predictedQuantity b
                          ≤ ItemForecast.predictedQuantity a)%Z) fs ∧
  Forall (λ f, ItemForecast.f_menuItemId f ∈ sold ∧
               (0 < ItemForecast.predictedQuantity f)%Z ∧
               (x (ItemForecast.f_menuItemId f) - 1
                < inject_Z (ItemForecast.predictedQuantity f))%Q ∧
               (inject_Z (ItemForecast.predictedQuantity f)
                < x (ItemForecast.f_menuItemId f) + 1)%Q) fs ∧
  Forall (λ i, i ∈ ItemForecast.f_menuItemId <$> fs ∨
               (coversOn getDay forecastDate historicalOrders ≤ 0)%Z ∨
               (x i < 1)%Q) sold.
Proof.
  cbn [ItemForecast.items fst ItemForecast.expectedCovers ItemForecast.forecasts].
  set (covers := ItemForecast.coversFor expected coverForecast).
  cbv zeta. split_and!.
  - apply coversFor_nonzero.
  - rewrite forecasts_perm.
    eapply sublist_NoDup; [|apply fmap_sublist, sublist_filter].
    rewrite forecast_ids. apply totals_NoDup.
  - pose proof (sort_sorted _ _ _ forecast_order
                  (filter (λ f, (0 < ItemForecast.predictedQuantity f)%Z)
                     (ItemForecast.forecastOf covers <$>
                        (ItemForecast.toRatio
                           (ItemForecast.tally
                              (ItemForecast.sameDowOrders getDay forecastDate
                                 historicalOrders)).2
                           <$> (ItemForecast.tally
                                  (ItemForecast.sameDowOrders getDay
                                     forecastDate historicalOrders)).1))))
      as Hs.
    fold (ItemForecast.itemForecasts getDay covers forecastDate historicalOrders)
      in Hs.
    specialize (Hs ltac:(by apply Forall_forall)).
    induction Hs as [|a l _ IH Ha]; [constructor|].
    constructor; [exact IH|].
    eapply Forall_impl; [exact Ha|]. intros b Hb. simpl in Hb.
    rewrite Zle_Qle. lra.
  - apply Forall_forall. intros f Hf.
    apply forecast_elem_of in Hf as (e & Hin & _ & _ & Hp & Hpos).
    destruct (round_fin_bounds
                (scaled getDay covers forecastDate historicalOrders
                   (ItemForecast.f_menuItemId f))) as [Hlo Hhi].
    fold (scaledQuantity getDay covers forecastDate historicalOrders
            (ItemForecast.f_menuItemId f)) in Hlo, Hhi.
    rewrite <- Hp in Hlo, Hhi.
    split_and!.
    + apply totals_keys, list_elem_of_fmap.
      by exists (ItemForecast.f_menuItemId f, e).
    + by rewrite Hp.
    + lra.
    + lra.
  - apply Forall_forall. intros i Hi.
    destruct (decide (0 < coversOn getDay forecastDate historicalOrders)%Z)
      as [Hc|Hc]; [|right; left; lia].
    destruct (Qlt_le_dec
                (scaled getDay covers forecastDate historicalOrders i) 1)
      as [Hx|Hx]; [by right; right|].
    left.
    assert (Hpos : (0 < scaledQuantity getDay covers forecastDate
                          historicalOrders i)%Z).
    { unfold scaledQuantity.
      pose proof (round_fin_mono 1 _ Hx) as Hm.
      change (Js.round_fin 1) with 1%Z in Hm. lia. }
    apply totals_keys, list_elem_of_fmap in Hi as [[i' e] [Hi Hin]].
    cbn [fst] in Hi. subst i'.
    set (f := ItemForecast.forecastOf covers
                (ItemForecast.toRatio
                   (ItemForecast.tally
                      (ItemForecast.sameDowOrders getDay forecastDate
                         historicalOrders)).2 (i, e))).
    apply list_elem_of_fmap. exists f. split; [done|].
    apply forecast_elem_of. exists e.
    change (ItemForecast.f_menuItemId f) with i.
    assert (Hp : ItemForecast.predictedQuantity f
                 = scaledQuantity getDay covers forecastDate historicalOrders i).
    { unfold f. rewrite predicted_entry by done. by rewrite decide_True. }
    split_and!; done.
Qed.

(** ** Grouping by key *)

(** The classes of a list under a key, taken for distinct keys that
    cover the list, hold every element once. *)
Lemma partition_by_key {A K} `{EqDecision K} (key : A → K) (ks : list K)
    (l : list A) :
  NoDup ks → Forall (λ x, key x ∈ ks) l →
  concat ((λ k, filter (λ x, key x = k) l) <$> ks) ≡ₚ l.
Proof.
  intros Hnd. revert l. induction Hnd as [|k ks Hk Hnd IH]; intros l Hl.
  - destruct l as [|x l]; [done|].
    apply Forall_cons in Hl as [Hx _]. by apply elem_of_nil in Hx.
  - rewrite fmap_cons. cbn [concat].
    etrans; [|apply (filter_app_complement (λ x, key x = k) l)].
    apply Permutation_app_head.
    etrans; [|apply (IH (filter (λ x, ¬ key x = k) l))].
    + apply reflexive_eq. f_equal. apply list_fmap_ext.
      intros _ k' Hk'%list_elem_of_lookup_2.
      rewrite list_filter_filter. apply list_filter_iff.
      intros x. split; [|tauto]. intros ->. split; [done|]. by intros ->.
    + apply Forall_forall. intros x [Hx Hin]%list_elem_of_filter.
      rewrite Forall_forall in Hl. specialize (Hl x Hin).
      apply elem_of_cons in Hl as [?|?]; done.
Qed.

(** X18.  The grouped view of the menu listing is a partition of the
    listed items: the categories of the groups are distinct, no group is
    empty, a group holds items of its category only, in their order in
    the list, and all groups together hold every listed item once. *)
Theorem menu_groups_partition (items : list Menu.menuItem) :
  let d := MenuList.list items in
  MenuList.totalItems d = length (MenuList.items d) ∧
  NoDup (MenuList.g_category <$> MenuList.grouped d) ∧
  Forall (λ g, MenuList.g_items g ≠ [] ∧
               MenuList.g_items g `sublist_of` MenuList.items d ∧
               Forall (λ i, Menu.category i = MenuList.g_category g)
                      (MenuList.g_items g))
         (MenuList.grouped d) ∧
  concat (MenuList.g_items <$> MenuList.grouped d) ≡ₚ MenuList.items d.
Proof.
  cbn [MenuList.list MenuList.totalItems MenuList.items MenuList.grouped].
  split_and!.
  - done.
  - rewrite <- list_fmap_compose.
    rewrite (list_fmap_ext _ id (MenuList.categories items))
      by (by intros).
    rewrite list_fmap_id. apply distinct_NoDup.
  - apply Forall_forall. intros g [cat [-> Hcat]]%list_elem_of_fmap.
    cbn [MenuList.groupOf MenuList.g_items MenuList.g_category].
    apply distinct_elem_of, list_elem_of_fmap in Hcat as [i [-> Hi]].
    split_and!.
    + intros Hnil. eapply (filter_nil_not_elem_of _ _ i); done.
    + apply sublist_filter.
    + apply Forall_forall. by intros j [Hj _]%list_elem_of_filter.
  - rewrite <- list_fmap_compose.
    apply (partition_by_key Menu.category); [apply distinct_NoDup|].
    apply Forall_forall. intros i Hi.
    apply distinct_elem_of, list_elem_of_fmap. by exists i.
Qed.

(** ** Item performance *)

(** A list sorted by a key without repetition is strictly sorted. *)
Lemma sorted_NoDup_strict {A} (key : A → Q) (date : A → Z) (l : list A) :
  (∀ x, key x = inject_Z (date x)) →
  StronglySorted (λ a b, key a <= key b)%Q l → NoDup (date <$> l) →
  StronglySorted (λ a b, (date a < date b)%Z) l.
Proof.
  intros Hkey. induction 1 as [|a l _ IH Ha]; csimpl; [constructor|].
  intros [Hnotin Hnd]%NoDup_cons. constructor; [by apply IH|].
  apply Forall_forall. intros b Hb.
  rewrite Forall_forall in Ha. specialize (Ha b Hb). simpl in Ha.
  rewrite !Hkey, <- Zle_Qle in Ha.
  assert (date a ≠ date b); [|lia].
  intros Heq. apply Hnotin. rewrite Heq. by apply list_elem_of_fmap_2.
Qed.

Lemma roundTo_comp (k a b : Q) :
  (a == b)%Q → Js.eq (Menu.roundTo k (Js.Fin a)) (Menu.roundTo k (Js.Fin b)).
Proof.
  intros Hab. unfold Menu.roundTo. cbn [Js.mul Js.round].
  rewrite (round_fin_comp (a * k) (b * k)) by (by rewrite Hab).
  destruct (Js.div _ _); simpl; done.
Qed.

Section ItemPerformanceFacts.
Import ItemPerformance.

Lemma byDate_orders : ordersBy byDate (λ p, inject_Z (date p)) (λ _, True).
Proof.
  intros x y _ _. unfold byDate, JsArray.after. cbn [Js.lt].
  rewrite Qlt_bool_iff. change 0%Q with (inject_Z 0).
  rewrite <- !Zlt_Qlt. lia.
Qed.

Lemma day_foldl (e : day) (l : list sale) :
  let e' := foldl (λ existing oi,
                     {| quantity := quantity existing + Menu.oi_quantity (item oi);
                        revenue := revenue existing + Menu.oi_revenue (item oi) |})
                  e l in
  (inject_Z (quantity e') == inject_Z (quantity e) + quantityOfSales l)%Q ∧
  (revenue e' == revenue e + revenueOfSales l)%Q.
Proof.
  revert e. induction l as [|oi l IH]; intros e; simpl.
  - split; ring.
  - destruct (IH {| quantity := quantity e + Menu.oi_quantity (item oi);
                    revenue := revenue e + Menu.oi_revenue (item oi) |})
      as [Hq Hr].
    cbv zeta in Hq, Hr. rewrite Hq, Hr. simpl. rewrite inject_Z_plus.
    split; ring.
Qed.

Lemma trend_perm (orderItems : list sale) :
  trendOf orderItems
  ≡ₚ (λ e, {| date := e.1; p_quantity := quantity e.2;
              p_revenue := revenue e.2 |}) <$> dailySales orderItems.
Proof. apply sort_perm. Qed.

Lemma trend_dates (orderItems : list sale) :
  date <$> trendOf orderItems ≡ₚ JsSet.distinct (closedAt <$> orderItems).
Proof.
  rewrite trend_perm, <- list_fmap_compose.
  rewrite <- (groupBy_keys closedAt (λ _, {| quantity := 0; revenue := 0 |})
                (λ existing oi,
                   {| quantity := quantity existing + Menu.oi_quantity (item oi);
                      revenue := revenue existing + Menu.oi_revenue (item oi) |})).
  done.
Qed.

Lemma trend_point (orderItems : list sale) (p : point) :
  p ∈ trendOf orderItems →
  (inject_Z (p_quantity p) == quantityOfSales (salesOn (date p) orderItems))%Q ∧
  (p_revenue p == revenueOfSales (salesOn (date p) orderItems))%Q.
Proof.
  rewrite trend_perm. intros [[d e] [-> Hin]]%list_elem_of_fmap.
  cbn [date p_quantity p_revenue fst snd].
  apply groupBy_entry in Hin. unfold salesOn.
  destruct (filter _ orderItems) as [|oi l]; [done|].
  injection Hin as <-.
  destruct (day_foldl {| quantity := 0; revenue := 0 |} (oi :: l)) as [Hq Hr].
  cbv zeta in Hq, Hr. rewrite Hq, Hr. simpl.
  change (inject_Z 0) with 0%Q. split; ring.
Qed.

Lemma trend_totals (orderItems : list sale) :
  (inject_Z (quantityOf (trendOf orderItems)) == quantityOfSales orderItems)%Q ∧
  (revenueOf (trendOf orderItems) == revenueOfSales orderItems)%Q.
Proof.
  assert (Hq : ∀ l a, (inject_Z (foldl (λ s d, (s + p_quantity d)%Z) a l)
                       == inject_Z a + total (λ d, inject_Z (p_quantity d)) l)%Q).
  { induction l as [|d l IH]; intros a; simpl; [ring|].
    rewrite IH, inject_Z_plus. ring. }
  unfold quantityOf, revenueOf. rewrite Hq, sumOf_total.
  rewrite !(total_perm _ _ _ (trend_perm orderItems)), !total_fmap.
  unfold quantityOfSales, revenueOfSales.
  pose proof (groupBy_total closedAt
                (λ _, {| quantity := 0; revenue := 0 |})
                (λ existing oi,
                   {| quantity := quantity existing + Menu.oi_quantity (item oi);
                      revenue := revenue existing + Menu.oi_revenue (item oi) |}))
    as Ht.
  change (dailySales orderItems)
    with (JsMap.groupBy closedAt
            (λ _, {| quantity := 0; revenue := 0 |})
            (λ existing oi,
               {| quantity := quantity existing + Menu.oi_quantity (item oi);
                  revenue := revenue existing + Menu.oi_revenue (item oi) |})
            orderItems).
  split.
  - change (inject_Z 0) with 0%Q.
    rewrite (total_ext _ ((λ e, inject_Z (quantity e)) ∘ snd))
      by (by apply Forall_forall).
    rewrite (Ht (λ e, inject_Z (quantity e))
                (λ oi, inject_Z (Menu.oi_quantity (item oi)))).
    + ring.
    + done.
    + intros v x. simpl. by rewrite inject_Z_plus.
  - rewrite (total_ext _ (revenue ∘ snd)) by (by apply Forall_forall).
    apply (Ht revenue (λ oi, Menu.oi_revenue (item oi))); done.
Qed.

End ItemPerformanceFacts.

(** X19.  For a menu item that exists, the performance answer reports
    one trend point per day with a sale, by strictly increasing date;
    each point carries the quantity and revenue of the sales of its
    day; the total quantity is that of all sales and the total revenue
    is their revenue rounded to cents.  Without the menu item the
    answer is the 404. *)
Theorem item_performance_totals
    (found : Menu.menuItem) (days : Q)
    (orderItems : list ItemPerformance.sale) :
  ItemPerformance.get None days orderItems = None ∧
  match ItemPerformance.get (Some found) days orderItems with
  | None => False
  | Some d =>
      StronglySorted (λ a b, (ItemPerformance.date a < ItemPerformance.date b)%Z)
                     (ItemPerformance.trend d) ∧
      (∀ t, t ∈ ItemPerformance.date <$> ItemPerformance.trend d
            ↔ t ∈ ItemPerformance.closedAt <$> orderItems) ∧
      Forall (λ p,
                (inject_Z (ItemPerformance.p_quantity p)
                 == quantityOfSales (salesOn (ItemPerformance.date p) orderItems))%Q ∧
                (ItemPerformance.p_revenue p
                 == revenueOfSales (salesOn (ItemPerformance.date p) orderItems))%Q)
             (ItemPerformance.trend d) ∧
      (inject_Z (ItemPerformance.totalQuantity (ItemPerformance.perf d))
       == quantityOfSales orderItems)%Q ∧
      Js.eq (ItemPerformance.totalRevenue (ItemPerformance.perf d))
            (Menu.roundTo 100 (Js.Fin (revenueOfSales orderItems)))
  end.
Proof.
  split; [done|].
  cbn [ItemPerformance.get ItemPerformance.trend ItemPerformance.perf
       ItemPerformance.totalQuantity ItemPerformance.totalRevenue].
  split_and!.
  - apply (sorted_NoDup_strict (λ p, inject_Z (ItemPerformance.date p)));
      [done| |].
    + apply (sort_sorted _ _ _ byDate_orders). by apply Forall_forall.
    + rewrite trend_dates. apply distinct_NoDup.
  - intros t. rewrite trend_dates. apply distinct_elem_of.
  - apply Forall_forall. intros p Hp. by apply trend_point.
  - apply trend_totals.
  - apply roundTo_comp, trend_totals.
Qed.

(** ** Inventory *)

Section SortStable.
Context {A : Type} (cmp : A → A → Js.num) (key : A → Q) (P : A → Prop).
Hypothesis Hcmp : ordersBy cmp key P.
Context (C : A → Prop) `{∀ x, Decision (C x)}.
Hypothesis Hclass : ∀ x y, C x → C y → (key x == key y)%Q.

(** [sort] is stable: elements of equal key keep their order. *)
Lemma insert_stable (x : A) (l : list A) :
  P x → Forall P l →
  filter C (JsArray.insert cmp x l) = filter C (x :: l).
Proof.
  intros Hx. induction 1 as [|y l Hy HP IH]; simpl; [done|].
  destruct (JsArray.after (cmp x y)) eqn:E; [|done].
  apply (Hcmp x y Hx Hy) in E.
  destruct (decide (C x)) as [Cx|Cx], (decide (C y)) as [Cy|Cy].
  - pose proof (Hclass x y Cx Cy). lra.
  - rewrite (filter_cons_False _ y) by done. rewrite IH.
    rewrite (filter_cons_True _ x) by done.
    by rewrite (filter_cons_True _ x), (filter_cons_False _ y) by done.
  - rewrite (filter_cons_True _ y) by done. rewrite IH.
    rewrite (filter_cons_False _ x) by done.
    by rewrite (filter_cons_False _ x), (filter_cons_True _ y) by done.
  - rewrite (filter_cons_False _ y) by done. rewrite IH.
    rewrite (filter_cons_False _ x) by done.
    by rewrite (filter_cons_False _ x), (filter_cons_False _ y) by done.
Qed.

Lemma sort_stable (l : list A) :
  Forall P l → filter C (JsArray.sort cmp l) = filter C l.
Proof.
  induction 1 as [|x l Hx HP IH]; simpl; [done|].
  rewrite insert_stable; [|done|by rewrite (sort_perm cmp)].
  destruct (decide (C x)).
  - by rewrite !(filter_cons_True _ x), IH by done.
  - by rewrite !(filter_cons_False _ x), IH by done.
Qed.

End SortStable.

Section InventoryFacts.
Import Inventory.

Lemma urgencyOf_cases (i : item) :
  urgencyOf i = "critical" ∨ urgencyOf i = "high" ∨ urgencyOf i = "medium".
Proof. unfold urgencyOf. repeat case_match; tauto. Qed.

Lemma urgencyOrder_rank (u : string) :
  u = "critical" ∨ u = "high" ∨ u = "medium" →
  urgencyOrder u = Js.Fin (inject_Z (urgencyRank u)).
Proof. by intros [->| [->| ->]]. Qed.

Lemma byUrgency_orders :
  ordersBy byUrgency (λ a, inject_Z (urgencyRank (urgency a))) graded.
Proof.
  intros x y Hx Hy. unfold byUrgency, JsArray.after.
  rewrite !urgencyOrder_rank by done. cbn [JsArray.sub Js.lt].
  rewrite Qlt_bool_iff. split; intros; lra.
Qed.

Lemma toAlert_graded (l : list item) : Forall graded (toAlert <$> l).
Proof.
  apply Forall_forall. intros a [i [-> _]]%list_elem_of_fmap.
  apply urgencyOf_cases.
Qed.

Lemma alerts_perm (items : list item) :
  alertsOf items ≡ₚ toAlert <$> filter isLow items.
Proof. apply sort_perm. Qed.

Lemma count_partition (l : list alert) :
  Forall graded l →
  (countOf "critical" l + countOf "high" l + countOf "medium" l = length l)%nat.
Proof.
  unfold countOf. induction 1 as [|a l Ha _ IH]; [done|].
  rewrite !filter_cons. destruct Ha as [Ha| [Ha|Ha]]; rewrite Ha; simpl; lia.
Qed.

End InventoryFacts.

(** X20.  The alerts are the low-stock rows of the restaurant, ordered
    critical, high, medium; rows of the same urgency keep the order
    the query gave them; the three counts of the summary add up to the
    number of low-stock rows. *)
Theorem inventory_alerts_by_urgency (items : list Inventory.item) :
  let r := Inventory.getAlerts items in
  let s := Inventory.a_summary r in
  Inventory.alerts r ≡ₚ Inventory.toAlert <$> filter Inventory.isLow items ∧
  StronglySorted
    (λ a b, (urgencyRank (Inventory.urgency a)
             ≤ urgencyRank (Inventory.urgency b))%Z)
    (Inventory.alerts r) ∧
  (∀ u, filter (λ a, Inventory.urgency a = u) (Inventory.alerts r)
        = filter (λ a, Inventory.urgency a = u)
                 (Inventory.toAlert <$> filter Inventory.isLow items)) ∧
  (Inventory.critical s + Inventory.high s + Inventory.medium s
   = length (filter Inventory.isLow items))%nat.
Proof.
  cbn [Inventory.getAlerts Inventory.alerts Inventory.a_summary
       Inventory.critical Inventory.high Inventory.medium].
  split_and!.
  - apply alerts_perm.
  - pose proof (sort_sorted _ _ _ byUrgency_orders _
                  (toAlert_graded (filter Inventory.isLow items))) as Hs.
    fold (Inventory.alertsOf items) in Hs.
    induction Hs as [|a l _ IH Ha]; constructor; [exact IH|].
    eapply Forall_impl; [exact Ha|]. intros b Hb. simpl in Hb.
    by rewrite Zle_Qle.
  - intros u. unfold Inventory.alertsOf.
    apply (sort_stable _ _ _ byUrgency_orders); [|apply toAlert_graded].
    by intros x y -> ->.
  - rewrite count_partition.
    + by rewrite alerts_perm, length_fmap.
    + rewrite alerts_perm. apply toAlert_graded.
Qed.

(** X21.  The low-stock filter of the inventory listing agrees with
    its summary and with the alerts: asking for low stock only returns
    the low-stock rows of the full listing in the same order; both
    answers report the same [lowStockCount], which is the number of
    items of the filtered answer and the number of alerts for the same
    rows. *)
Theorem low_stock_filter_consistent (rows : list Inventory.item) :
  let all := Inventory.getItems false rows in
  let low := Inventory.getItems true rows in
  Inventory.items low = filter Inventory.isLow (Inventory.items all) ∧
  Inventory.lowStockCount (Inventory.d_summary low)
  = Inventory.lowStockCount (Inventory.d_summary all) ∧
  Inventory.totalItems (Inventory.d_summary low)
  = Inventory.lowStockCount (Inventory.d_summary low) ∧
  (Inventory.lowStockCount (Inventory.d_summary all)
   ≤ Inventory.totalItems (Inventory.d_summary all))%nat ∧
  length (Inventory.alerts (Inventory.getAlerts rows))
  = Inventory.lowStockCount (Inventory.d_summary all).
Proof.
  cbn [Inventory.getItems Inventory.items Inventory.d_summary
       Inventory.lowStockCount Inventory.totalItems
       Inventory.getAlerts Inventory.alerts].
  assert (Hidem : filter Inventory.isLow (filter Inventory.isLow rows)
                  = filter Inventory.isLow rows).
  { by apply list_filter_filter_r. }
  split_and!.
  - done.
  - by rewrite Hidem.
  - by rewrite Hidem.
  - apply length_filter.
  - by rewrite alerts_perm, length_fmap.
Qed.

(** ** Waste log *)

Lemma total_nonneg {A} (f : A → Q) (l : list A) :
  Forall (λ x, 0 <= f x)%Q l → (0 <= total f l)%Q.
Proof. induction 1 as [|x l Hx _ IH]; simpl; lra. Qed.

Lemma total_filter_le {A} (f : A → Q) (P : A → Prop) `{∀ x, Decision (P x)}
    (l : list A) :
  Forall (λ x, 0 <= f x)%Q l → (total f (filter P l) <= total f l)%Q.
Proof.
  induction 1 as [|x l Hx _ IH]; [simpl; lra|].
  rewrite filter_cons. destruct (decide (P x)); simpl; lra.
Qed.

Lemma total_const {A} (l : list A) :
  (total (λ _, 1) l == inject_Z (Z.of_nat (length l)))%Q.
Proof.
  induction l as [|x l IH]; [done|].
  cbn [total foldr length]. fold (total (λ _ : A, 1%Q) l).
  rewrite IH, Nat2Z.inj_succ, <- Z.add_1_l, inject_Z_plus.
  change (inject_Z 1) with 1%Q. ring.
Qed.

Section WasteFacts.
Import Waste.

Lemma tally_foldl (e : tally) (l : list row) :
  let e' := foldl (λ existing w, {| count := count existing + 1;
                                    t_cost := t_cost existing + costOf w |})
                  e l in
  count e' = (count e + Z.of_nat (length l))%Z ∧
  (t_cost e' == t_cost e + wasteCost l)%Q.
Proof.
  revert e. induction l as [|w l IH]; intros e.
  - simpl. split; [lia|unfold wasteCost; simpl; ring].
  - destruct (IH {| count := count e + 1; t_cost := t_cost e + costOf w |})
      as [Hc Ht].
    cbv zeta in Hc, Ht. cbn [foldl]. cbv zeta. rewrite Hc, Ht.
    cbn [count t_cost length]. split; [lia|].
    unfold wasteCost. simpl. ring.
Qed.

Lemma byReason_entry (waste : list row) (r : string) (e : tally) :
  (r, e) ∈ byReason waste →
  count e = Z.of_nat (length (wasteFor r waste)) ∧
  (t_cost e == wasteCost (wasteFor r waste))%Q ∧
  (0 < count e)%Z.
Proof.
  intros Hin. apply groupBy_entry in Hin. unfold wasteFor.
  destruct (filter _ waste) as [|w l]; [done|].
  injection Hin as <-.
  destruct (tally_foldl {| count := 0 + 1; t_cost := 0 + costOf w |} l)
    as [Hc Ht].
  cbv zeta in Hc, Ht. rewrite Hc, Ht. cbn [count t_cost length].
  split_and!; [lia| |lia]. unfold wasteCost. simpl. ring.
Qed.

Lemma byReason_keys (waste : list row) :
  (byReason waste).*1 = JsSet.distinct (reasonOf <$> waste).
Proof. apply groupBy_keys. Qed.

Lemma summary_reasons (waste : list row) :
  s_reason <$> s_byReason (summaryOf waste)
  = JsSet.distinct (reasonOf <$> waste).
Proof.
  cbn [summaryOf s_byReason]. rewrite <- list_fmap_compose.
  rewrite <- byReason_keys. done.
Qed.

Lemma totalCost_spec (waste : list row) : (totalCost waste == wasteCost waste)%Q.
Proof. apply sumOf_total. Qed.

End WasteFacts.

(** X22.  The waste summary has one entry per reason that occurs, in
    the order in which the reasons first occur in the rows, a row without
    a reason counting under [other]; an entry counts the rows of its
    reason and reports their costs, added up in the order of the rows,
    rounded to cents; the counts add up to the number of rows. *)
Theorem waste_by_reason_totals (waste : list Waste.row) :
  let s := Waste.s_byReason (Waste.summaryOf waste) in
  Waste.s_reason <$> s = firstSeen (Waste.reasonOf <$> waste) ∧
  NoDup (Waste.s_reason <$> s) ∧
  (∀ r, r ∈ Waste.s_reason <$> s ↔ r ∈ Waste.reasonOf <$> waste) ∧
  Forall (λ e,
            Waste.s_count e
            = Z.of_nat (length (wasteFor (Waste.s_reason e) waste)) ∧
            (0 < Waste.s_count e)%Z ∧
            Js.eq (Waste.s_cost e)
                  (Menu.roundTo 100
                     (Js.Fin (Menu.sumOf Waste.costOf
                                (wasteFor (Waste.s_reason e) waste)))))
         s ∧
  (total (λ e, inject_Z (Waste.s_count e)) s
   == inject_Z (Z.of_nat (length waste)))%Q.
Proof.
  cbv zeta. rewrite summary_reasons. split_and!.
  - apply distinct_firstSeen.
  - apply distinct_NoDup.
  - intros r. apply distinct_elem_of.
  - apply Forall_forall. intros e [[r t] [-> Hin]]%list_elem_of_fmap.
    cbn [Waste.summarise Waste.s_count Waste.s_reason Waste.s_cost fst snd].
    destruct (byReason_entry waste r t Hin) as (Hc & Ht & Hpos).
    split_and!; [done|done|]. apply roundTo_comp.
    by rewrite sumOf_total.
  - cbn [Waste.summaryOf Waste.s_byReason]. rewrite total_fmap.
    rewrite (total_ext _ ((λ t, inject_Z (Waste.count t)) ∘ snd))
      by (by apply Forall_forall).
    change (Waste.byReason waste)
      with (JsMap.groupBy Waste.reasonOf
              (λ _, {| Waste.count := 0; Waste.t_cost := 0 |})
              (λ existing w,
                 {| Waste.count := Waste.count existing + 1;
                    Waste.t_cost := Waste.t_cost existing + Waste.costOf w |})
              waste).
    rewrite (groupBy_total _ _ _ (λ t, inject_Z (Waste.count t)) (λ _, 1%Q)).
    + apply total_const.
    + done.
    + intros v x. simpl. rewrite inject_Z_plus. done.
Qed.

(** A rounded share of a positive total lies between 0 and 100. *)
Lemma share_isPercentage (c T : Q) :
  (0 <= c <= T)%Q → (0 < T)%Q →
  isPercentage
    (Js.div (Js.round (Js.mul (Js.div (Js.Fin c) (Js.Fin T)) (Js.Fin 1000)))
            (Js.Fin 10)).
Proof.
  intros [Hlo Hhi] HT.
  assert (Hq : (0 <= c / T <= 1)%Q).
  { split.
    - apply Qle_shift_div_l; lra.
    - apply Qle_shift_div_r; lra. }
  unfold Js.div at 2.
  destruct (Qeq_bool T 0) eqn:ET; [apply Qeq_bool_eq in ET; lra|].
  cbn [Js.mul Js.round]. unfold Js.div.
  change (Qeq_bool 10 0) with false. cbn [isPercentage].
  pose proof (round_fin_mono 0 (c / T * 1000) ltac:(lra)) as H0.
  pose proof (round_fin_mono (c / T * 1000) 1000 ltac:(lra)) as H1.
  change (Js.round_fin 0) with 0%Z in H0.
  change (Js.round_fin 1000) with 1000%Z in H1.
  rewrite Zle_Qle in H0, H1.
  change (inject_Z 0) with 0%Q in H0. change (inject_Z 1000) with 1000%Q in H1.
  set (n := inject_Z (Js.round_fin (c / T * 1000))) in *. clearbody n.
  split.
  - apply Qle_shift_div_l; lra.
  - apply Qle_shift_div_r; lra.
Qed.

(** X23.  When no logged cost is negative, every percentage of the
    waste summary is a number between 0 and 100, and it is 0 for every
    reason when the costs add up to 0. *)
Theorem waste_percentages_bounded (waste : list Waste.row) :
  Forall (λ w, 0 <= Waste.costOf w)%Q waste →
  Forall (λ e, isPercentage (Waste.percentage e))
         (Waste.s_byReason (Waste.summaryOf waste)) ∧
  ((Waste.totalCost waste == 0)%Q →
   Forall (λ e, Waste.percentage e = Js.Fin 0)
          (Waste.s_byReason (Waste.summaryOf waste))).
Proof.
  intros Hnonneg. split.
  - apply Forall_forall.
    intros e [[r t] [-> Hin]]%list_elem_of_fmap.
    cbn [Waste.summarise Waste.percentage snd].
    destruct (byReason_entry waste r t Hin) as (_ & Ht & _).
    destruct (Js.Qlt_bool 0 (Waste.totalCost waste)) eqn:E; [|simpl; lra].
    apply Qlt_bool_iff in E. pose proof (totalCost_spec waste) as Htot.
    assert (Hlo : (0 <= Waste.t_cost t)%Q).
    { rewrite Ht. apply total_nonneg.
      apply Forall_forall. intros w [_ Hw]%list_elem_of_filter.
      rewrite Forall_forall in Hnonneg. by apply Hnonneg. }
    assert (Hhi : (Waste.t_cost t <= Waste.totalCost waste)%Q).
    { rewrite Ht, Htot. by apply total_filter_le. }
    by apply share_isPercentage.
  - intros Hzero. apply Forall_forall.
    intros e [[r t] [-> Hin]]%list_elem_of_fmap.
    cbn [Waste.summarise Waste.percentage snd].
    destruct (Js.Qlt_bool 0 (Waste.totalCost waste)) eqn:E; [|done].
    apply Qlt_bool_iff in E. lra.
Qed.

(** Costs 12, 3 and none: the shares are 80, 20 percent. *)
Lemma waste_percentages_bounded_witness :
  Forall (λ e, isPercentage (Waste.percentage e))
         (Waste.s_byReason (Waste.summaryOf waste_rows)).
Proof.
  apply waste_percentages_bounded.
  repeat constructor; by vm_compute.
Defined.

(** ** Weekly schedule *)

Section ScheduleFacts.
Import Schedule.

Lemma dateOf_add (t : Z) (i : Z) :
  dateOf (t + i * msPerDay) = (dateOf t + i)%Z.
Proof. unfold dateOf. by rewrite Z.div_add. Qed.

Lemma emptyWeek_spec (startDate : Z) :
  emptyWeek startDate = (λ d, (d, [])) <$> weekFrom (dateOf startDate).
Proof.
  unfold emptyWeek, weekFrom. cbn [seq foldl fmap list_fmap].
  rewrite !dateOf_add. cbn [JsMap.set].
  repeat (rewrite decide_False by lia; cbn [JsMap.set]).
  done.
Qed.

Lemma emptyWeek_keys (startDate : Z) :
  (emptyWeek startDate).*1 = weekFrom (dateOf startDate).
Proof.
  rewrite emptyWeek_spec, <- list_fmap_compose.
  rewrite (list_fmap_ext _ Datatypes.id (weekFrom (dateOf startDate))) by done.
  apply list_fmap_id.
Qed.

Lemma weekFrom_elem_of (d x : Z) : x ∈ weekFrom d ↔ (d ≤ x < d + 7)%Z.
Proof.
  unfold weekFrom. rewrite list_elem_of_fmap. split.
  - intros [i [-> Hi%elem_of_seq]]. lia.
  - intros Hx. exists (Z.to_nat (x - d)). split; [lia|].
    apply elem_of_seq. lia.
Qed.

Lemma weekFrom_NoDup (d : Z) : NoDup (weekFrom d).
Proof.
  unfold weekFrom. apply NoDup_fmap_2; [|apply NoDup_seq].
  intros i j Hij. lia.
Qed.

Lemma emptyWeek_get (startDate k : Z) :
  JsMap.get (emptyWeek startDate) k
  = if decide (k ∈ weekFrom (dateOf startDate)) then Some [] else None.
Proof.
  destruct (decide (k ∈ weekFrom (dateOf startDate))) as [Hin|Hnin].
  - apply elem_get_Some.
    + rewrite emptyWeek_keys. apply weekFrom_NoDup.
    + rewrite emptyWeek_spec. by apply (list_elem_of_fmap_2 (λ d, (d, []))).
  - apply get_None. by rewrite emptyWeek_keys.
Qed.

(** A shift of the week starts on one of eight dates. *)
Lemma inWeek_date (startDate : Z) (s : shift) :
  inWeek startDate s →
  (dateOf startDate ≤ dateOf (scheduledStart s) ≤ dateOf startDate + 7)%Z.
Proof.
  unfold inWeek, dateOf. intros [Hlo Hhi]. split.
  - by apply Z.div_le_mono.
  - replace (startDate `div` msPerDay + 7)%Z
      with ((startDate + 7 * msPerDay) `div` msPerDay)%Z
      by (by rewrite Z.div_add).
    apply Z.div_le_mono; [done|lia].
Qed.

Lemma inWeek_date_midnight (startDate : Z) (s : shift) :
  (startDate `mod` msPerDay = 0)%Z → inWeek startDate s →
  (dateOf (scheduledStart s) < dateOf startDate + 7)%Z.
Proof.
  unfold inWeek, dateOf. intros Hmid [_ Hhi].
  apply Z.div_lt_upper_bound; [done|].
  pose proof (Z.div_mod startDate msPerDay ltac:(done)) as Hdm. lia.
Qed.

(** The keys the loop adds to the seven days. *)
Lemma adds_late (week ds : list Z) (d7 : Z) :
  d7 ∉ week → Forall (λ d, d ∈ week ∨ d = d7) ds →
  foldl JsSet.add week ds
  = week ++ (if decide (d7 ∈ ds) then [d7] else []).
Proof.
  intros Hd7.
  assert (Hfull : ∀ ds, Forall (λ d, d ∈ week ∨ d = d7) ds →
                        foldl JsSet.add (week ++ [d7]) ds = week ++ [d7]).
  { induction 1 as [|d ds' Hd _ IH]; [done|]. cbn [foldl].
    unfold JsSet.add at 2. rewrite decide_True; [done|].
    apply elem_of_app. destruct Hd as [?| ->]; [by left|right].
    by apply list_elem_of_singleton. }
  induction 1 as [|d ds' Hd Hds IH]; cbn [foldl].
  - rewrite decide_False by apply not_elem_of_nil. by rewrite app_nil_r.
  - destruct Hd as [Hd| ->].
    + unfold JsSet.add at 2. rewrite decide_True by done. rewrite IH.
      f_equal. destruct (decide (d7 ∈ ds')) as [Hin|Hnin].
      * rewrite decide_True by (by right). done.
      * rewrite decide_False; [done|].
        intros [->|?]%elem_of_cons; done.
    + unfold JsSet.add at 2. rewrite decide_False by done.
      rewrite Hfull by done. rewrite decide_True by (by left). done.
Qed.

Lemma byDay_keys (startDate : Z) (rows : list shift) :
  (byDay startDate rows).*1
  = foldl JsSet.add (weekFrom (dateOf startDate))
          ((λ s, dateOf (scheduledStart s)) <$> rows).
Proof.
  unfold byDay. rewrite <- emptyWeek_keys.
  apply (accumulate_keys (λ s, dateOf (scheduledStart s)) (λ _, [])
           (λ dayShifts s, dayShifts ++ [entryOf s])).
Qed.

Lemma push_entries (l : list entry) (rows : list shift) :
  foldl (λ dayShifts s, dayShifts ++ [entryOf s]) l rows
  = l ++ (entryOf <$> rows).
Proof.
  revert l. induction rows as [|s rows IH]; intros l; simpl.
  - by rewrite app_nil_r.
  - by rewrite IH, <- app_assoc.
Qed.

Lemma byDay_NoDup (startDate : Z) (rows : list shift) :
  NoDup (byDay startDate rows).*1.
Proof. rewrite byDay_keys. apply adds_NoDup, weekFrom_NoDup. Qed.

(** A day of the schedule holds the shifts that start on it, in the
    order of the query. *)
Lemma byDay_entry (startDate : Z) (rows : list shift) (d : Z) (l : list entry) :
  (d, l) ∈ byDay startDate rows → l = entryOf <$> startingOn d rows.
Proof.
  intros Hin. apply elem_get_Some in Hin; [|apply byDay_NoDup].
  unfold byDay in Hin.
  pose proof (accumulate_get (λ s, dateOf (scheduledStart s)) (λ _, [])
                (λ dayShifts s, dayShifts ++ [entryOf s])
                (emptyWeek startDate) rows d) as Hget.
  fold addShift in Hget. unfold startingOn.
  change (foldl addShift (emptyWeek startDate) rows)
    with (foldl (JsMap.accumulate (λ s, dateOf (scheduledStart s)) (λ _, [])
                   (λ dayShifts s, dayShifts ++ [entryOf s]))
                (emptyWeek startDate) rows) in Hin.
  rewrite Hin in Hget. rewrite emptyWeek_get in Hget.
  destruct (decide (d ∈ weekFrom (dateOf startDate))).
  - injection Hget as ->. by rewrite push_entries.
  - destruct (filter _ rows) as [|s ss]; [done|].
    unfold JsMap.fold1 in Hget. injection Hget as ->.
    by rewrite push_entries.
Qed.

Lemma byDay_total (startDate : Z) (rows : list shift) :
  (total (λ e, total e_hours e.2) (byDay startDate rows)
   == total hoursOf rows)%Q.
Proof.
  unfold byDay.
  pose proof (accumulate_total (λ s, dateOf (scheduledStart s)) (λ _, [])
                (λ dayShifts s, dayShifts ++ [entryOf s])
                (total e_hours) hoursOf (emptyWeek startDate) rows) as Ht.
  change (total (λ e, total e_hours e.2) ?m) with (total (total e_hours ∘ snd) m).
  change (foldl addShift (emptyWeek startDate) rows)
    with (foldl (JsMap.accumulate (λ s, dateOf (scheduledStart s)) (λ _, [])
                   (λ dayShifts s, dayShifts ++ [entryOf s]))
                (emptyWeek startDate) rows).
  rewrite Ht.
  - rewrite emptyWeek_spec, total_fmap.
    rewrite (total_ext _ (λ _, 0%Q)) by (by apply Forall_forall).
    assert (H0 : ∀ l : list Z, (total (λ _, 0) l == 0)%Q).
    { induction l as [|x l IH]; simpl; [done|]. rewrite IH. ring. }
    rewrite H0. ring.
  - done.
  - intros v x. unfold total. rewrite foldr_app. simpl.
    induction v as [|e v IH]; simpl; [ring|]. rewrite IH. ring.
Qed.

End ScheduleFacts.

Section ScheduleDays.
Import Schedule.

Lemma schedule_dates (startDate : Z) (rows : list shift) :
  date <$> schedule (get startDate rows) = (byDay startDate rows).*1.
Proof.
  cbn [get schedule]. rewrite <- list_fmap_compose.
  apply list_fmap_ext. by intros _ [d l] _.
Qed.

Lemma schedule_day (startDate : Z) (rows : list shift) (d : day) :
  d ∈ schedule (get startDate rows) →
  shifts d = entryOf <$> startingOn (date d) rows.
Proof.
  cbn [get schedule]. intros [[k l] [-> Hin]]%list_elem_of_fmap.
  cbn [dayOf shifts date fst snd]. by eapply byDay_entry.
Qed.

Lemma hours_entries (rows : list shift) :
  total e_hours (entryOf <$> rows) = total hoursOf rows.
Proof. by rewrite total_fmap. Qed.

Lemma schedule_shifts (startDate : Z) (rows : list shift) :
  shifts <$> schedule (get startDate rows)
  = (λ k, entryOf <$> startingOn k rows) <$> (byDay startDate rows).*1.
Proof.
  cbn [get schedule]. rewrite <- !list_fmap_compose.
  apply list_fmap_ext. intros i [k l] Hin%list_elem_of_lookup_2.
  cbn [compose dayOf shifts fst snd]. by eapply byDay_entry.
Qed.

Lemma concat_fmap_classes {A B K} (f : A → B) (g : K → list A) (ks : list K) :
  concat ((λ k, f <$> g k) <$> ks) = f <$> concat (g <$> ks).
Proof.
  induction ks as [|k ks IH]; [done|].
  rewrite !fmap_cons. cbn [concat]. by rewrite fmap_app, IH.
Qed.

End ScheduleDays.

(** X24.  For the shifts of the requested week, the schedule lists the
    seven dates from the date of [weekStart] on, in order, each at most
    once; an eighth date follows exactly when a shift starts on it,
    which does not happen for a week that starts at midnight UTC. *)
Theorem schedule_days_of_week (startDate : Z) (rows : list Schedule.shift) :
  Forall (inWeek startDate) rows →
  let d0 := Schedule.dateOf startDate in
  let late := startingOn (d0 + 7) rows in
  Schedule.date <$> Schedule.schedule (Schedule.get startDate rows)
  = weekFrom d0 ++ (if decide (late = []) then [] else [(d0 + 7)%Z]) ∧
  ¬ ((startDate `mod` Schedule.msPerDay = 0)%Z ∧ late ≠ []).
Proof.
  intros Hrows d0 late. split.
  - rewrite schedule_dates, byDay_keys. fold d0.
    rewrite (adds_late _ _ (d0 + 7)%Z).
    + f_equal. unfold late, startingOn.
      destruct (decide (filter _ rows = [])) as [Hnil|Hne].
      * rewrite decide_False; [done|].
        intros [s [Hs Hin]]%list_elem_of_fmap.
        by eapply (filter_nil_not_elem_of _ _ s).
      * rewrite decide_True; [done|].
        destruct (filter _ rows) as [|s l] eqn:E; [done|].
        assert (Hs : s ∈ filter (λ s, Schedule.dateOf (Schedule.scheduledStart s)
                                      = (d0 + 7)%Z) rows)
          by (rewrite E; by left).
        apply list_elem_of_filter in Hs as [Hd Hs].
        apply list_elem_of_fmap. by exists s.
    + rewrite weekFrom_elem_of. lia.
    + apply Forall_fmap, Forall_forall. intros s Hs.
      rewrite Forall_forall in Hrows.
      pose proof (inWeek_date startDate s (Hrows s Hs)) as Hd.
      cbn [compose]. rewrite weekFrom_elem_of. fold d0 in Hd. lia.
  - intros [Hmid Hlate]. unfold late, startingOn in Hlate.
    destruct (filter _ rows) as [|s l] eqn:E; [done|].
    assert (Hs : s ∈ filter (λ s, Schedule.dateOf (Schedule.scheduledStart s)
                                  = (d0 + 7)%Z) rows)
      by (rewrite E; by left).
    apply list_elem_of_filter in Hs as [Hd Hs].
    rewrite Forall_forall in Hrows.
    pose proof (inWeek_date_midnight startDate s Hmid (Hrows s Hs)) as Hlt.
    fold d0 in Hlt. lia.
Qed.

Lemma schedule_days_of_week_witness :
  Schedule.date <$> Schedule.schedule (Schedule.get evening_week evening_shifts)
  = [0; 1; 2; 3; 4; 5; 6; 7]%Z.
Proof.
  destruct (schedule_days_of_week evening_week evening_shifts) as [Hdates _].
  - repeat constructor; by vm_compute.
  - exact Hdates.
Defined.

(** X25.  Every shift the query returns is on the schedule once, under
    the date it starts on and in the order of the query; the total
    hours of a day are the hours of its shifts added up in that order;
    the summary counts the shifts and reports a number of tenths of an
    hour that is less than a tenth away from the hours of all shifts
    added up in the order of the query. *)
Theorem schedule_holds_every_shift (startDate : Z) (rows : list Schedule.shift) :
  let r := Schedule.get startDate rows in
  NoDup (Schedule.date <$> Schedule.schedule r) ∧
  Forall (λ d,
            Schedule.shifts d
            = Schedule.entryOf <$> startingOn (Schedule.date d) rows ∧
            (Schedule.d_totalHours d
             == Menu.sumOf Schedule.hoursOf
                  (startingOn (Schedule.date d) rows))%Q)
         (Schedule.schedule r) ∧
  concat (Schedule.shifts <$> Schedule.schedule r)
    ≡ₚ Schedule.entryOf <$> rows ∧
  Schedule.totalShifts (Schedule.d_summary r) = length rows ∧
  ∃ tenths : Z,
    Schedule.totalHours (Schedule.d_summary r)
    = Js.Fin (inject_Z tenths / 10) ∧
    (Menu.sumOf Schedule.hoursOf rows - (1 # 10) < inject_Z tenths / 10)%Q ∧
    (inject_Z tenths / 10 < Menu.sumOf Schedule.hoursOf rows + (1 # 10))%Q.
Proof.
  intros r. split_and!.
  - unfold r. rewrite schedule_dates. apply byDay_NoDup.
  - apply Forall_forall. intros d Hd.
    pose proof (schedule_day startDate rows d Hd) as Hsh. split; [done|].
    unfold r in Hd. cbn [Schedule.get Schedule.schedule] in Hd.
    apply list_elem_of_fmap in Hd as [[k l] [-> Hin]].
    cbn [Schedule.dayOf Schedule.d_totalHours Schedule.date
         Schedule.shifts fst snd] in *.
    rewrite !sumOf_total, Hsh. by rewrite hours_entries.
  - unfold r. rewrite schedule_shifts.
    rewrite (concat_fmap_classes Schedule.entryOf (λ k, startingOn k rows)).
    apply fmap_Permutation.
    apply (partition_by_key (λ s, Schedule.dateOf (Schedule.scheduledStart s)));
      [apply byDay_NoDup|].
    apply Forall_forall. intros s Hs. rewrite byDay_keys.
    apply adds_elem_of. right. apply list_elem_of_fmap. by exists s.
  - done.
  - exists (Js.round_fin (Menu.sumOf Schedule.hoursOf rows * 10)).
    split; [done|].
    destruct (round_fin_bounds (Menu.sumOf Schedule.hoursOf rows * 10))
      as [Hlo Hhi].
    set (n := inject_Z (Js.round_fin (Menu.sumOf Schedule.hoursOf rows * 10)))
      in *. clearbody n.
    set (x := Menu.sumOf Schedule.hoursOf rows) in *. clearbody x.
    split.
    + apply Qlt_shift_div_l; lra.
    + apply Qlt_shift_div_r; lra.
Qed.

(** ** Customer profile *)

Section ProfileFacts.
Import Profile.

Lemma gaps_length (v : list Z) : length (gaps v) = (length v - 1)%nat.
Proof.
  induction v as [|a [|b v] IH]; [done|done|].
  change (gaps (a :: b :: v)) with
    ((inject_Z (a - b) / inject_Z Customers.msPerDay)%Q :: gaps (b :: v)).
  cbn [length] in *. lia.
Qed.

(** The gaps telescope. *)
Lemma gaps_total (a : Z) (v : list Z) :
  (total (λ g, g) (gaps (a :: v))
   == inject_Z (a - default a (last (a :: v)))
      / inject_Z Customers.msPerDay)%Q.
Proof.
  revert a. induction v as [|b v IH]; intros a.
  - cbn [gaps total foldr last default]. rewrite Z.sub_diag.
    unfold Qdiv. change (inject_Z 0) with 0%Q. ring.
  - change (gaps (a :: b :: v)) with
      ((inject_Z (a - b) / inject_Z Customers.msPerDay)%Q :: gaps (b :: v)).
    cbn [total foldr]. fold (total (λ g : Q, g) (gaps (b :: v))).
    rewrite IH. change (last (a :: b :: v)) with (last (b :: v)).
    destruct (last (b :: v)) as [z|] eqn:E.
    + cbn [default]. unfold Z.sub. rewrite !inject_Z_plus, !inject_Z_opp.
      unfold Qdiv. ring.
    + by apply last_None in E.
Qed.

Lemma itemCounts_flat (orders : list order) (m : list (string * favorite)) :
  foldl (λ m o, foldl addItem m (orderItems o)) m orders
  = foldl addItem m (orders ≫= orderItems).
Proof.
  revert m. induction orders as [|o orders IH]; intros m; [done|].
  cbn [foldl]. by rewrite IH, bind_cons, foldl_app.
Qed.

Lemma itemCounts_spec (orders : list order) :
  itemCounts orders
  = JsMap.groupBy nameOf
      (λ oi, {| name := nameOf oi; count := 0 |})
      (λ existing oi, {| name := nameOf oi;
                         count := count existing + quantity oi |})
      (orderedItems orders).
Proof. apply itemCounts_flat. Qed.

Lemma favorite_foldl (e : favorite) (n : string) (l : list orderItem) :
  name e = n → Forall (λ oi, nameOf oi = n) l →
  let e' := foldl (λ existing oi, {| name := nameOf oi;
                                     count := count existing + quantity oi |})
                  e l in
  name e' = n ∧
  (inject_Z (count e')
   == inject_Z (count e) + total (λ oi, inject_Z (quantity oi)) l)%Q.
Proof.
  intros He Hl. revert e He. induction Hl as [|oi l Hoi _ IH]; intros e He.
  - simpl. split; [done|ring].
  - destruct (IH {| name := nameOf oi; count := count e + quantity oi |} Hoi)
      as [Hn Hc].
    cbv zeta in Hn, Hc. cbn [foldl]. cbv zeta. rewrite Hn, Hc.
    cbn [count]. rewrite inject_Z_plus. split; [done|]. simpl. ring.
Qed.

Lemma itemCounts_entry (orders : list order) (n : string) (e : favorite) :
  (n, e) ∈ itemCounts orders →
  name e = n ∧ (inject_Z (count e) == orderedQuantity orders n)%Q.
Proof.
  rewrite itemCounts_spec. intros Hin. apply groupBy_entry in Hin.
  unfold orderedQuantity.
  assert (Hall : Forall (λ oi, nameOf oi = n)
                        (filter (λ oi, nameOf oi = n) (orderedItems orders))).
  { apply Forall_forall. by intros oi [Hoi _]%list_elem_of_filter. }
  destruct (filter _ (orderedItems orders)) as [|oi l]; [done|].
  unfold JsMap.fold1 in Hin. apply (inj Some) in Hin. subst e.
  apply Forall_cons in Hall as [Hoi Hall].
  destruct (favorite_foldl {| name := nameOf oi; count := 0 |} n (oi :: l))
    as [Hn Hc]; [done|by constructor|].
  cbv zeta in Hn, Hc. split; [exact Hn|].
  rewrite Hc. cbn [count]. change (inject_Z 0) with 0%Q. ring.
Qed.

Lemma itemCounts_names (orders : list order) :
  name <$> (itemCounts orders).*2 = (itemCounts orders).*1.
Proof.
  rewrite <- list_fmap_compose. apply list_fmap_ext.
  intros i [n e] Hin%list_elem_of_lookup_2.
  cbn [compose fst snd]. by apply itemCounts_entry in Hin as [-> _].
Qed.

Lemma byCountDesc_orders :
  ordersBy byCountDesc (λ f, - inject_Z (count f))%Q (λ _, True).
Proof.
  intros x y _ _. unfold byCountDesc, JsArray.after.
  cbn [Js.lt]. rewrite Qlt_bool_iff. split; intros; lra.
Qed.

End ProfileFacts.

(** X26.  The average number of days between the visits of a customer
    is a whole number less than one day away from the time from the
    last to the first of the dated orders of the answer, in days,
    divided by the number of gaps between them; with fewer than two
    dated orders it is null.  A customer that does not exist gives the
    404. *)
Theorem visit_gap_is_span_per_gap
    (c : Customers.customer) (orders : list Profile.order) (now : Z) :
  Profile.get None orders now = None ∧
  match Profile.get (Some c) orders now with
  | None => False
  | Some d =>
      match spanPerGap (Profile.visitDates orders) with
      | Some x =>
          ∃ a, Profile.i_avgDaysBetweenVisits (Profile.d_insights d) = Some a ∧
               (x - 1 < inject_Z a)%Q ∧ (inject_Z a < x + 1)%Q
      | None =>
          Profile.i_avgDaysBetweenVisits (Profile.d_insights d) = None
      end
  end.
Proof.
  split; [done|].
  cbn [Profile.get Profile.d_insights Profile.i_avgDaysBetweenVisits].
  unfold Profile.avgDaysBetweenVisits, spanPerGap.
  destruct (Profile.visitDates orders) as [|a v]; [done|].
  cbn [head].
  destruct (last (a :: v)) as [b|] eqn:E; [|by apply last_None in E].
  destruct (decide (1 < length (a :: v))%nat) as [Hlen|Hlen].
  - rewrite decide_True by lia. eexists. split; [reflexivity|].
    destruct (round_fin_bounds
                (Menu.sumOf (λ g, g) (Profile.gaps (a :: v))
                 / inject_Z (Z.of_nat (length (Profile.gaps (a :: v))))))
      as [Hlo Hhi].
    assert (Heq : (Menu.sumOf (λ g, g) (Profile.gaps (a :: v))
                   / inject_Z (Z.of_nat (length (Profile.gaps (a :: v))))
                   == inject_Z (a - b) / inject_Z Customers.msPerDay
                      / inject_Z (Z.of_nat (length (a :: v)) - 1))%Q).
    { rewrite sumOf_total, gaps_total, E, gaps_length. cbn [default].
      replace (Z.of_nat (length (a :: v) - 1))
        with (Z.of_nat (length (a :: v)) - 1)%Z by lia.
      reflexivity. }
    set (n := inject_Z (Js.round_fin _)) in *. clearbody n.
    rewrite Heq in Hlo, Hhi. split; lra.
  - rewrite decide_False by lia. done.
Qed.

Section ProfileFavorites.
Import Profile.

Lemma favorites_split (orders : list order) :
  favoriteItems orders
    ++ drop 5 (JsArray.sort byCountDesc (itemCounts orders).*2)
  = JsArray.sort byCountDesc (itemCounts orders).*2.
Proof. apply take_drop. Qed.

Lemma sorted_counts (orders : list order) :
  StronglySorted (λ a b, - inject_Z (count a) <= - inject_Z (count b))%Q
                 (JsArray.sort byCountDesc (itemCounts orders).*2).
Proof. apply (sort_sorted _ _ _ byCountDesc_orders). by apply Forall_forall. Qed.

Lemma sorted_value (orders : list order) (e : favorite) :
  e ∈ JsArray.sort byCountDesc (itemCounts orders).*2 →
  (name e, e) ∈ itemCounts orders.
Proof.
  rewrite (sort_perm byCountDesc).
  intros [[n e'] [-> Hin]]%list_elem_of_fmap. cbn [snd].
  by destruct (itemCounts_entry orders n e' Hin) as [-> _].
Qed.

End ProfileFavorites.

(** X27.  The favourite items of a profile are the five most ordered
    item names of the orders of the answer: at most five, of distinct
    names, by decreasing count, each with the quantity ordered under its
    name; a name that is ordered but is no favourite is ordered no more
    than any of the five favourites. *)
Theorem favorites_are_top_five (orders : list Profile.order) :
  let favs := Profile.favoriteItems orders in
  (length favs ≤ 5)%nat ∧
  NoDup (Profile.name <$> favs) ∧
  StronglySorted (λ a b, (Profile.count b ≤ Profile.count a)%Z) favs ∧
  Forall (λ f, (inject_Z (Profile.count f)
                == orderedQuantity orders (Profile.name f))%Q) favs ∧
  Forall (λ n, n ∈ Profile.name <$> favs ∨
               (length favs = 5%nat ∧
                Forall (λ f, (orderedQuantity orders n
                              <= inject_Z (Profile.count f))%Q) favs))
         (Profile.nameOf <$> orderedItems orders).
Proof.
  intros favs.
  pose proof (favorites_split orders) as Hsplit. fold favs in Hsplit.
  pose proof (sorted_counts orders) as Hsorted. rewrite <- Hsplit in Hsorted.
  assert (Hin : ∀ f, f ∈ favs → (Profile.name f, f) ∈ Profile.itemCounts orders).
  { intros f Hf. apply sorted_value. rewrite <- Hsplit.
    apply elem_of_app. by left. }
  split_and!.
  - unfold favs, Profile.favoriteItems. rewrite length_take. lia.
  - eapply sublist_NoDup;
      [|apply fmap_sublist, (sublist_take _ 5)].
    rewrite (sort_perm Profile.byCountDesc), itemCounts_names.
    rewrite itemCounts_spec. apply groupBy_NoDup.
  - apply StronglySorted_app_1_l in Hsorted. clear Hsplit Hin.
    induction Hsorted as [|a l _ IH Ha]; [constructor|].
    constructor; [exact IH|].
    eapply Forall_impl; [exact Ha|]. intros b Hb. simpl in Hb.
    rewrite Zle_Qle. lra.
  - apply Forall_forall. intros f Hf.
    by destruct (itemCounts_entry orders _ f (Hin f Hf)) as [_ Hc].
  - apply Forall_forall. intros n Hn.
    assert (Hkey : n ∈ (Profile.itemCounts orders).*1).
    { rewrite itemCounts_spec. by apply groupBy_key_elem_of. }
    apply list_elem_of_fmap in Hkey as [[n' e] [-> He]]. cbn [fst].
    destruct (itemCounts_entry orders n' e He) as [Hname Hc].
    assert (Hs : e ∈ JsArray.sort Profile.byCountDesc
                       (Profile.itemCounts orders).*2).
    { rewrite (sort_perm Profile.byCountDesc).
      apply list_elem_of_fmap. by exists (n', e). }
    rewrite <- Hsplit in Hs. apply elem_of_app in Hs as [Hfav|Hrest].
    + left. apply list_elem_of_fmap. by exists e.
    + right. split.
      * assert (Hlen : (5 < length (JsArray.sort Profile.byCountDesc
                                      (Profile.itemCounts orders).*2))%nat).
        { destruct (decide (5 < length (JsArray.sort Profile.byCountDesc
                                          (Profile.itemCounts orders).*2))%nat)
            as [|Hle]; [done|].
          rewrite drop_ge in Hrest by lia. by apply elem_of_nil in Hrest. }
        unfold favs, Profile.favoriteItems. rewrite length_take. lia.
      * apply Forall_forall. intros f Hf.
        pose proof (StronglySorted_app_1_elem_of _ _ _ f e Hsorted Hf Hrest)
          as Hle.
        simpl in Hle. rewrite <- Hc. lra.
Qed.

(** ** Customer segments *)

Section SegmentFacts.
Import Segments.

Lemma totalCustomers_ge (groups : list group) (g : group) :
  g ∈ groups → (g_count g ≤ totalCustomers (get groups))%nat.
Proof.
  cbn [get totalCustomers].
  assert (Hmono : ∀ l a, (a ≤ foldl (λ s seg, s + g_count seg) a l)%nat).
  { induction l as [|x l IH]; intros a; simpl; [lia|].
    etrans; [|apply IH]. lia. }
  assert (Hgen : ∀ l a, g ∈ l →
                        (a + g_count g ≤ foldl (λ s seg, s + g_count seg) a l)%nat).
  { induction l as [|x l IH]; intros a Hin; [by apply elem_of_nil in Hin|].
    cbn [foldl]. apply elem_of_cons in Hin as [<-|Hin].
    - apply Hmono.
    - etrans; [|by apply IH]. lia. }
  intros Hin. specialize (Hgen groups 0%nat Hin). lia.
Qed.

Lemma segmentInfo_described (key : string) :
  is_Some (segmentInfo key) ↔ key ∈ describedSegments.
Proof.
  unfold segmentInfo, describedSegments.
  repeat (destruct (decide _) as [->|?];
          [split; [intros _; repeat constructor|by eexists]|]).
  split; [by intros [? ?]|].
  rewrite !elem_of_cons, elem_of_nil. tauto.
Qed.

Lemma enrich_info (g : group) :
  is_Some (e_info (enrich g)) ↔ segment (enrich g) ∈ describedSegments.
Proof.
  assert (Hnone : is_Some (segmentInfo EmptyString)
                  ↔ "Unknown" ∈ describedSegments).
  { rewrite segmentInfo_described. unfold describedSegments.
    rewrite !elem_of_cons, !elem_of_nil.
    split; intros H; repeat (destruct H as [H|H]; [done|]); done. }
  cbn [enrich e_info segment]. unfold segmentOr.
  destruct (rfmSegment g) as [s|]; [|exact Hnone].
  destruct (decide (s = EmptyString)) as [->|]; [exact Hnone|].
  apply segmentInfo_described.
Qed.

End SegmentFacts.

(** X28.  The segment answer reports one share per group, in the order
    of the groups; every share is a number between 0 and 100, also when
    the restaurant has no customer; no group counts more customers than
    the reported total; a description is attached exactly to the five
    described segments, and a group without a segment name is reported
    as Unknown, without description. *)
Theorem segment_shares_bounded (groups : list Segments.group) :
  let r := Segments.get groups in
  Segments.s_segment <$> Segments.distribution r
  = Segments.segment <$> Segments.segments r ∧
  Forall (λ p, isPercentage (Segments.percentage p)) (Segments.distribution r) ∧
  Forall (λ e, (Segments.count e ≤ Segments.totalCustomers r)%nat ∧
               (is_Some (Segments.e_info e)
                ↔ Segments.segment e ∈ describedSegments))
         (Segments.segments r) ∧
  Forall (λ e, Segments.segment e = "Unknown" ∧ Segments.e_info e = None)
         (Segments.enrich
            <$> filter (λ g, Segments.rfmSegment g = None) groups).
Proof.
  intros r. split_and!.
  - unfold r. cbn [Segments.get Segments.distribution Segments.segments].
    rewrite <- list_fmap_compose. by apply list_fmap_ext.
  - apply Forall_forall. intros p Hp. unfold r in Hp.
    cbn [Segments.get Segments.distribution] in Hp.
    apply list_elem_of_fmap in Hp as [e [-> He]].
    apply list_elem_of_fmap in He as [g [-> Hg]].
    cbn [Segments.shareOf Segments.percentage Segments.enrich Segments.count].
    pose proof (totalCustomers_ge groups g Hg) as Hle.
    cbn [Segments.get Segments.totalCustomers] in Hle.
    destruct (decide (0 < _)%nat) as [Hpos|Hzero]; [|simpl; lra].
    apply share_isPercentage.
    + rewrite <- !Zle_Qle. change 0%Q with (inject_Z 0).
      rewrite <- Zle_Qle. lia.
    + change 0%Q with (inject_Z 0). rewrite <- Zlt_Qlt. lia.
  - apply Forall_forall. intros e He. unfold r in He.
    cbn [Segments.get Segments.segments] in He.
    apply list_elem_of_fmap in He as [g [-> Hg]]. split.
    + by apply totalCustomers_ge.
    + apply enrich_info.
  - apply Forall_forall. intros e [g [-> Hg]]%list_elem_of_fmap.
    apply list_elem_of_filter in Hg as [Hnone _].
    cbn [Segments.enrich Segments.segment Segments.e_info].
    unfold Segments.segmentOr. by rewrite Hnone.
Qed.

(** ** Inventory count *)

Section InventoryCountFacts.
Import InventoryCount.

Lemma knownPrefix_ext (db db' : gmap string Inventory.item)
    (items : list counted) :
  (∀ i, is_Some (db' !! i) ↔ is_Some (db !! i)) →
  knownPrefix db' items = knownPrefix db items.
Proof.
  intros Hkeys. induction items as [|x items IH]; [done|].
  cbn [knownPrefix]. rewrite IH. apply decide_ext, Hkeys.
Qed.

Lemma lastCount_cons (i : string) (item : counted) (items : list counted) :
  lastCount i (item :: items)
  = match lastCount i items with
    | Some q => Some q
    | None => if decide (c_id item = i) then Some (c_quantity item) else None
    end.
Proof.
  unfold lastCount. rewrite filter_cons.
  destruct (decide (c_id item = i)); [|by destruct (last _)].
  rewrite last_cons. by destruct (last _).
Qed.

Lemma submit_spec (items : list counted) (db : gmap string Inventory.item)
    (updates : list Inventory.item) :
  let r := submit items db updates in
  (is_Some r.1 ↔ Forall (λ item, is_Some (db !! c_id item)) items) ∧
  (∀ i, r.2 !! i
        = match lastCount i (knownPrefix db items) with
          | Some q => setQuantity q <$> db !! i
          | None => db !! i
          end) ∧
  length <$> r.1 = (λ _, (length updates + length items)%nat) <$> r.1.
Proof.
  revert db updates. induction items as [|item rest IH]; intros db updates.
  - cbn [submit fst snd]. split_and!.
    + split; [by intros _|by eexists].
    + done.
    + simpl. f_equal. lia.
  - cbn [submit knownPrefix].
    destruct (db !! c_id item) as [row|] eqn:E.
    + rewrite decide_True by (by eexists).
      set (row' := setQuantity (c_quantity item) row).
      destruct (IH (<[c_id item := row']> db) (updates ++ [row']))
        as (Hok & Hdb & Hlen).
      cbv zeta in Hok, Hdb, Hlen. cbv zeta.
      assert (Hkeys : ∀ i, is_Some (<[c_id item := row']> db !! i)
                           ↔ is_Some (db !! i)).
      { intros i. destruct (decide (c_id item = i)) as [<-|Hne].
        - rewrite lookup_insert_eq, E. split; by eexists.
        - by rewrite lookup_insert_ne. }
      rewrite (knownPrefix_ext db) in Hdb by done.
      split_and!.
      * rewrite Hok, Forall_cons, E. split.
        -- intros Hrest. split; [by eexists|].
           eapply Forall_impl; [exact Hrest|]. intros x. apply Hkeys.
        -- intros [_ Hrest].
           eapply Forall_impl; [exact Hrest|]. intros x. apply Hkeys.
      * intros i. rewrite Hdb, lastCount_cons.
        destruct (decide (c_id item = i)) as [<-|Hne].
        -- rewrite lookup_insert_eq, E.
           by destruct (lastCount (c_id item) (knownPrefix db rest)).
        -- rewrite lookup_insert_ne by done.
           by destruct (lastCount i (knownPrefix db rest)).
      * rewrite Hlen. destruct (submit rest _ _).1; [|done].
        simpl. f_equal. rewrite length_app. simpl. lia.
    + rewrite decide_False by (by intros [? ?]).
      cbn [fst snd]. split_and!.
      * split; [by intros [? ?]|].
        intros [Hx _]%Forall_cons. rewrite E in Hx. by destruct Hx.
      * done.
      * done.
Qed.

End InventoryCountFacts.

(** X29.  An inventory count is not atomic: the answer is the error
    answer exactly when some counted id has no row, and the table then
    keeps the quantities written before the first such id; in every
    case a row holds the last quantity counted for it among the items
    up to there, every other row is unchanged, and a successful answer
    reports as many updates as items were sent. *)
Theorem count_keeps_updates_before_failure
    (items : list InventoryCount.counted) (db : gmap string Inventory.item) :
  let r := InventoryCount.count items db in
  (is_Some r.1
   ↔ Forall (λ item, is_Some (db !! InventoryCount.c_id item)) items) ∧
  (∀ i, r.2 !! i
        = match lastCount i (knownPrefix db items) with
          | Some q => InventoryCount.setQuantity q <$> db !! i
          | None => db !! i
          end) ∧
  InventoryCount.updated <$> r.1 = (λ _, length items) <$> r.1.
Proof.
  destruct (submit_spec items db []) as (Hok & Hdb & Hlen).
  cbv zeta in Hok, Hdb, Hlen. cbn [InventoryCount.count fst snd].
  split_and!.
  - rewrite <- Hok. apply fmap_is_Some.
  - exact Hdb.
  - rewrite <- !option_fmap_compose.
    destruct (InventoryCount.submit items db []).1; [|done].
    simpl in Hlen |- *. by injection Hlen as ->.
Qed.

(** ** Staff performance *)

Lemma lengthOf_nonzero {A} (l : list A) :
  (0 < length l)%nat → ¬ (Menu.lengthOf l == 0)%Q.
Proof.
  intros Hpos H. unfold Menu.lengthOf, Qeq in H.
  cbn [Qnum Qden inject_Z] in H. lia.
Qed.

Lemma ratio_finite (k x a : Q) :
  ¬ (k == 0)%Q → ¬ (a == 0)%Q →
  isFin (Menu.roundTo k (Js.div (Js.Fin x) (Js.Fin a))).
Proof. intros Hk Ha. rewrite div_finite by done. by apply roundTo_finite. Qed.

(** X30.  The staff performance answer never carries NaN or an
    infinite number, whatever the shifts and orders: every ratio is
    guarded.  The hours per shift are 0 for a member without shifts; for
    a server the average check is 0 without orders, the tip percentage
    is 0 unless the sales are positive, and the sales per hour are 0
    unless the hours are positive.  The sales metrics are present
    exactly for a server, and a staff member that does not exist gives
    the 404. *)
Theorem staff_performance_finite
    (staff : Staff.staff) (shifts : list StaffPerformance.shift)
    (orders : list StaffPerformance.order) :
  StaffPerformance.get None shifts orders = None ∧
  match StaffPerformance.get (Some staff) shifts orders with
  | None => False
  | Some d =>
      laborFinite (StaffPerformance.d_labor d) ∧
      (shifts = [] →
       StaffPerformance.avgHoursPerShift (StaffPerformance.d_labor d)
       = Js.Fin 0) ∧
      match StaffPerformance.sales d with
      | Some m =>
          Staff.role staff = "server" ∧ salesFinite m ∧
          (orders = [] → StaffPerformance.avgCheck m = Js.Fin 0) ∧
          ((Menu.sumOf (λ o, default 0 (StaffPerformance.o_total o)) orders
            <= 0)%Q →
           StaffPerformance.avgTipPercent m = Js.Fin 0) ∧
          ((StaffPerformance.totalHoursOf shifts <= 0)%Q →
           StaffPerformance.salesPerHour m = Js.Fin 0)
      | None => Staff.role staff ≠ "server"
      end
  end.
Proof.
  split; [done|].
  cbn [StaffPerformance.get StaffPerformance.d_labor StaffPerformance.sales].
  split_and!.
  - split; cbn [StaffPerformance.totalHours StaffPerformance.avgHoursPerShift].
    + by apply roundTo_finite.
    + destruct (decide (0 < length shifts)%nat); [|by eexists].
      apply ratio_finite; [done|by apply lengthOf_nonzero].
  - by intros ->.
  - destruct (decide (Staff.role staff = "server")); [|done].
    unfold salesFinite, StaffPerformance.salesOf.
    cbn [StaffPerformance.totalSales StaffPerformance.totalTips
         StaffPerformance.avgCheck StaffPerformance.avgTipPercent
         StaffPerformance.salesPerHour].
    split_and!.
    + done.
    + by apply roundTo_finite.
    + by apply roundTo_finite.
    + destruct (decide (0 < length orders)%nat); [|by eexists].
      apply ratio_finite; [done|by apply lengthOf_nonzero].
    + destruct (Js.Qlt_bool 0 _) eqn:E; [|by eexists].
      apply Qlt_bool_iff in E. rewrite div_finite by lra.
      cbn [Js.mul Js.round]. rewrite div_finite by done. by eexists.
    + destruct (Js.Qlt_bool 0 _) eqn:E; [|by eexists].
      apply Qlt_bool_iff in E. apply ratio_finite; [done|lra].
    + by intros ->.
    + intros Hle. destruct (Js.Qlt_bool 0 _) eqn:E; [|done].
      apply Qlt_bool_iff in E. lra.
    + intros Hle. destruct (Js.Qlt_bool 0 _) eqn:E; [|done].
      apply Qlt_bool_iff in E. lra.
Qed.
